(** * Comment-node parsing of ts-morph: a shallow embedding

    This development embeds [CommentNodeParser] (the child enumerator, the
    boundary resolver and the two memoization tables) and states its
    documented properties as theorems.

    Offsets are JavaScript numbers holding integers; they are modelled by
    [Z].  Syntax-tree nodes are objects with identity and parent links;
    they are modelled by an arena: a node is named by a [NodeId] and its
    fields are read through the source file.  The comment scanner
    ([createCommentScanner]) is an imported interface; it is a type class
    here, so that what is proved about the parser holds for every scanner,
    and one concrete scanner is given to run examples. *)

From Stdlib Require Import ZArith Lia Ascii.
From stdpp Require Import base option list gmap strings.

Local Open Scope Z_scope.

(** ** Syntax kinds *)

(** The members of TypeScript's [SyntaxKind] that the parser inspects;
    every other kind is [OtherKind]. *)
Inductive SyntaxKind :=
  | SourceFile
  | Block
  | ModuleBlock
  | CaseClause
  | DefaultClause
  | ClassDeclaration
  | InterfaceDeclaration
  | EnumDeclaration
  | ClassExpression
  | TypeLiteral
  | ObjectLiteralExpression
  | SyntaxList
  | OpenBraceToken
  | CloseBraceToken
  | ColonToken
  | EndOfFileToken
  | JSDocComment
  | SingleLineCommentTrivia
  | MultiLineCommentTrivia
  | OtherKind (tag : nat).

#[global] Instance SyntaxKind_eq_dec : EqDecision SyntaxKind.
Proof. solve_decision. Defined.

(** [new Set<SyntaxKind>([...])] with [Set.prototype.has]. *)
Definition has (s : list SyntaxKind) (k : SyntaxKind) : bool :=
  bool_decide (k ∈ s).

Definition commentNodeParserKinds : list SyntaxKind :=
  [ SourceFile; Block; ModuleBlock; CaseClause; DefaultClause;
    ClassDeclaration; InterfaceDeclaration; EnumDeclaration;
    ClassExpression; TypeLiteral; ObjectLiteralExpression ].

Definition singleSyntaxListParents : list SyntaxKind :=
  [ SourceFile; Block; ModuleBlock; CaseClause; DefaultClause ].

Definition openBraceSyntaxListParents : list SyntaxKind :=
  [ ClassDeclaration; InterfaceDeclaration; EnumDeclaration;
    ClassExpression; TypeLiteral; ObjectLiteralExpression ].

(** ** The frozen syntax tree *)

Definition NodeId := nat.

(** The fields of a [ts.Node] that the parser reads.  [getStart] is the
    value of [node.getStart(sourceFile)] and [getChildren] the array
    returned by [node.getChildren(sourceFile)]; [statements], [members] and
    [properties] are the node arrays of the container kinds, [jsDoc] the
    attached documentation nodes (empty when the property is absent). *)
Record Node := mkNode {
  kind : SyntaxKind;
  pos : Z;
  end_ : Z;
  getStart : Z;
  parent : NodeId;
  getChildren : list NodeId;
  statements : list NodeId;
  members : list NodeId;
  properties : list NodeId;
  jsDoc : list NodeId
}.

(** A source file: its own node, its text, and the arena of its nodes. *)
Record SourceFileObj := mkSourceFile {
  sf_node : NodeId;
  text : string;
  node : NodeId → Node
}.

(** [str[p]] of JavaScript: [undefined] outside [0 .. length-1]. *)
Definition charAt (s : string) (p : Z) : option ascii :=
  if p <? 0 then None else String.get (Z.to_nat p) s.

Definition text_length (s : string) : Z := Z.of_nat (String.length s).

(** ** Exceptions *)

Inductive Exception :=
  | NotImplementedError
  | Error (message : string).

(** What a call comes to: a value or an exception.  [OutOfFuel] is no
    outcome of the program; the two [while (true)] loops of the enumerator
    are run with fuel, and a fuel above the length of the text is shown to
    be enough. *)
Inductive Outcome (A : Type) :=
  | Ok (a : A)
  | Throw (e : Exception)
  | OutOfFuel.
Arguments Ok {A} a.
Arguments Throw {A} e.
Arguments OutOfFuel {A}.

(** The value of an outcome, or [d] when there is none. *)
Definition valueOr {A : Type} (d : A) (o : Outcome A) : A :=
  match o with
  | Ok a => a
  | _ => d
  end.

(** ** Kind guards of the TypeScript API *)

Definition isKind (k : SyntaxKind) (n : Node) : bool := bool_decide (kind n = k).
Definition isSourceFile := isKind SourceFile.
Definition isBlock := isKind Block.
Definition isModuleBlock := isKind ModuleBlock.
Definition isCaseClause := isKind CaseClause.
Definition isDefaultClause := isKind DefaultClause.
Definition isClassDeclaration := isKind ClassDeclaration.
Definition isInterfaceDeclaration := isKind InterfaceDeclaration.
Definition isEnumDeclaration := isKind EnumDeclaration.
Definition isClassExpression := isKind ClassExpression.
Definition isTypeLiteralNode := isKind TypeLiteral.
Definition isObjectLiteralExpression := isKind ObjectLiteralExpression.
Definition isClassLike (n : Node) : bool := isClassDeclaration n || isClassExpression n.
Definition isSyntaxList := isKind SyntaxList.

(** ** [CommentNodeParser.shouldParseChildren] *)

Definition shouldParseChildren (container : Node) : bool :=
  has commentNodeParserKinds (kind container)
  && negb (bool_decide (pos container = end_ container)).

(** Modelled from the spec: [errors.throwNotImplementedForNeverValueError]
    belongs to the package [@ts-morph/common], of which only the manifest
    is among the sources at hand.  The spec has a container kind that is
    not covered signal a not-implemented failure that is not recoverable,
    and the call is modelled as throwing the not-implemented error; what
    the helper does with its argument before it throws is not modelled. *)
Definition throwNotImplementedForNeverValueError {A : Type} : Outcome A :=
  Throw NotImplementedError.

(** ** [CommentNodeParser.getContainerBodyPos] *)

Section BodyPos.
Context (sourceFile : SourceFileObj).

Definition getTokenEnd (n : Node) (k : SyntaxKind) : option Z :=
  match find (λ c, isKind k (node sourceFile c)) (getChildren n) with
  | None => None
  | Some token => Some (end_ (node sourceFile token))
  end.

(** The loop [for (let i = children.length - 1; i >= 0; i--)]: the
    argument [n] counts the indices [n-1 .. 0] still to be visited. *)
Fixpoint findLastSyntaxList_loop (children : list NodeId) (n : nat) : option NodeId :=
  match n with
  | O => None
  | S i =>
      match children !! i with
      | Some c =>
          if isSyntaxList (node sourceFile c) then Some c
          else findLastSyntaxList_loop children i
      | None => findLastSyntaxList_loop children i
      end
  end.

Definition findLastSyntaxList (n : Node) : option NodeId :=
  findLastSyntaxList_loop (getChildren n) (length (getChildren n)).

Definition getLastSyntaxListPos (n : Node) : Outcome Z :=
  match findLastSyntaxList n with
  | None => Throw (Error "Unexpected scenario where a syntax list could not be found.")
  | Some syntaxList => Ok (pos (node sourceFile syntaxList))
  end.

(** [a ?? b] where [a] is a number or [undefined]. *)
Definition orElse (a : option Z) (b : Outcome Z) : Outcome Z :=
  match a with
  | Some v => Ok v
  | None => b
  end.

Definition getContainerBodyPos (container : Node) : Outcome Z :=
  if isSourceFile container then Ok 0
  else if isClassDeclaration container
       || isEnumDeclaration container
       || isInterfaceDeclaration container
       || isTypeLiteralNode container
       || isClassExpression container
       || isObjectLiteralExpression container
  then orElse (getTokenEnd container OpenBraceToken) (getLastSyntaxListPos container)
  else if isModuleBlock container || isBlock container
  then Ok (Z.min (getStart container + 1) (end_ (node sourceFile (sf_node sourceFile))))
  else if isCaseClause container || isDefaultClause container
  then orElse (getTokenEnd container ColonToken) (getLastSyntaxListPos container)
  else throwNotImplementedForNeverValueError.
End BodyPos.

(** ** Comment nodes, comment lists and arrays *)

(** What the parser reads of a [CompilerCommentNode] (or of a [ts.JSDoc]
    handed out by the scanner): its kind, [getFullStart()], [pos], [end]
    and [getText()]. *)
Record CompilerCommentNode := mkComment {
  c_kind : SyntaxKind;
  c_getFullStart : Z;
  c_pos : Z;
  c_end : Z;
  c_getText : string
}.

Inductive CommentListKind :=
  | Statement
  | ClassElement
  | TypeElement
  | ObjectLiteralElement
  | EnumMember.

(** A JavaScript array is a reference together with its items; no array
    of this module is ever written after it is built, so an array value
    carries its items with it.  [ChildrenOf n] is the array that
    [n.getChildren(sourceFile)] returns, [Allocated a] one created here. *)
Inductive ArrayRef :=
  | ChildrenOf (n : NodeId)
  | Allocated (address : nat).

Record JsArray (A : Type) := mkArray {
  ref : ArrayRef;
  items : list A
}.
Arguments mkArray {A} ref items.
Arguments ref {A} _.
Arguments items {A} _.

(** Modelled from the spec: the class [CompilerCommentList] of
    CompilerComments is not part of the sources at hand.  A comment list
    carries the [fullStart], [pos] and [end] it was constructed with, its
    container, its member comments (an array of its own) and the list kind
    of its constructor; [cl_address] is the identity of the object. *)
Record CompilerCommentList := mkCommentList {
  cl_address : nat;
  commentListKind : CommentListKind;
  cl_fullStart : Z;
  cl_pos : Z;
  cl_end : Z;
  cl_parent : NodeId;
  comments : JsArray CompilerCommentNode
}.

(** An element of a child sequence: a real child or a comment list. *)
Inductive NodeRef :=
  | RealNode (n : NodeId)
  | CommentList (cl : CompilerCommentList).

(** An element of a token sequence may also be a single comment. *)
Inductive Token :=
  | TokNode (r : NodeRef)
  | TokComment (c : CompilerCommentNode).

(** ** The comment scanner *)

(** A run of one of the scanner's generators from a given state: the
    comments it yields, each with the state of the scanner while the
    consumer handles that comment, and the state once the generator is
    exhausted.  A consumer that leaves its loop early leaves the scanner in
    the state of the comment it stopped at. *)
Record Generator (Sc : Type) := mkGenerator {
  yields : list (CompilerCommentNode * Sc);
  exhausted : Sc
}.
Arguments mkGenerator {Sc} yields exhausted.
Arguments yields {Sc} _.
Arguments exhausted {Sc} _.

(** The interface of [createCommentScanner(sourceFile)]. *)
Class CommentScanner (sourceFile : SourceFileObj) (Sc : Type) := {
  createCommentScanner : Sc;
  setParent : NodeId → Sc → Sc;
  setFullStartAndPos : Z → Sc → Sc;
  setPos : Z → Sc → Sc;
  getPos : Sc → Z;
  scanUntilToken : Sc → Generator Sc;
  scanForNewLines : Sc → Generator Sc;
  scanUntilNewLineOrToken : Sc → Generator Sc
}.

(** ** The heap and the monad of the parser *)

(** Identity of the keys of [tokenSaver]: a tree node or a comment list. *)
Definition NodeKey : Type := NodeId + nat.

Definition keyOf (r : NodeRef) : NodeKey :=
  match r with
  | RealNode n => inl n
  | CommentList cl => inr (cl_address cl)
  end.

(** The module-level state: the scanner cached for the source file, the
    two [WeakMap]s, and the next free address. *)
Record Heap (Sc : Type) := mkHeap {
  scanner : Sc;
  nextAddress : nat;
  childrenSaver : gmap NodeId (JsArray NodeRef);
  tokenSaver : gmap NodeKey (JsArray Token)
}.
Arguments mkHeap {Sc} scanner nextAddress childrenSaver tokenSaver.
Arguments scanner {Sc} _.
Arguments nextAddress {Sc} _.
Arguments childrenSaver {Sc} _.
Arguments tokenSaver {Sc} _.

(** A computation returns a value or throws, and leaves a heap either
    way. *)
Definition M (Sc A : Type) : Type := Heap Sc → Outcome A * Heap Sc.

Definition ret {Sc A} (a : A) : M Sc A := λ h, (Ok a, h).

Definition bind {Sc A B} (m : M Sc A) (f : A → M Sc B) : M Sc B :=
  λ h, match m h with
       | (Ok a, h') => f a h'
       | (Throw e, h') => (Throw e, h')
       | (OutOfFuel, h') => (OutOfFuel, h')
       end.

Notation "x <- m ;; k" := (bind m (λ x, k))
  (at level 100, m at next level, right associativity, only parsing).
Notation "m ;;; k" := (bind m (λ _, k))
  (at level 100, right associativity, only parsing).

Definition lift {Sc A} (o : Outcome A) : M Sc A := λ h, (o, h).

Definition outOfFuel {Sc A} : M Sc A := λ h, (OutOfFuel, h).

(** A fresh address, for [new] and for array literals. *)
Definition allocate {Sc} : M Sc nat :=
  λ h, (Ok (nextAddress h),
        mkHeap (scanner h) (S (nextAddress h)) (childrenSaver h) (tokenSaver h)).

(** The heap once the scanner has moved to state [s]. *)
Definition withScanner {Sc} (h : Heap Sc) (s : Sc) : Heap Sc :=
  mkHeap s (nextAddress h) (childrenSaver h) (tokenSaver h).

(** The heap once [k] more addresses are taken. *)
Definition allocated {Sc} (k : nat) (h : Heap Sc) : Heap Sc :=
  mkHeap (scanner h) (k + nextAddress h) (childrenSaver h) (tokenSaver h).

Definition onScanner {Sc} (f : Sc → Sc) : M Sc unit :=
  λ h, (Ok tt, withScanner h (f (scanner h))).

Definition readScanner {Sc A} (f : Sc → A) : M Sc A :=
  λ h, (Ok (f (scanner h)), h).

(** A computation that writes to neither [childrenSaver] nor [tokenSaver]. *)
Definition frames {Sc A} (m : M Sc A) : Prop :=
  ∀ h, childrenSaver (m h).2 = childrenSaver h ∧ tokenSaver (m h).2 = tokenSaver h.

(** A computation that keeps every entry of [childrenSaver], may add
    some, and does not write to [tokenSaver]. *)
Definition grows {Sc A} (m : M Sc A) : Prop :=
  ∀ h, childrenSaver h ⊆ childrenSaver (m h).2 ∧ tokenSaver (m h).2 = tokenSaver h.

(** [Array.from(gen())] and [for (const _ of gen()) {}]: the generator is
    run to its end. *)
Definition drain {Sc} (gen : Sc → Generator Sc) : M Sc (list CompilerCommentNode) :=
  λ h, let g := gen (scanner h) in
       (Ok (fst <$> yields g), withScanner h (exhausted g)).

(** [for (const c of gen()) { if (stop c) break; result.push(c); }] *)
Fixpoint untilBreak {Sc} (stop : CompilerCommentNode → bool)
    (ys : list (CompilerCommentNode * Sc)) (finished : Sc) : list CompilerCommentNode * Sc :=
  match ys with
  | [] => ([], finished)
  | (c, s) :: rest =>
      if stop c then ([], s)
      else let '(cs, s') := untilBreak stop rest finished in (c :: cs, s')
  end.

Definition pushUntil {Sc} (gen : Sc → Generator Sc) (stop : CompilerCommentNode → bool)
    : M Sc (list CompilerCommentNode) :=
  λ h, let g := gen (scanner h) in
       let '(cs, s') := untilBreak stop (yields g) (exhausted g) in
       (Ok cs, withScanner h s').

(** ** [StringUtils.getLineStartFromPos] *)

Definition isLineBreak (c : ascii) : bool :=
  bool_decide (c = "010"%char) || bool_decide (c = "013"%char).

(** Modelled from the spec: [StringUtils.getLineStartFromPos] belongs to
    the common package, which is not part of the sources at hand; the spec
    calls its result the line-start of the position.  It is the nearest
    offset at or before the position that is 0 or follows a line break. *)
Fixpoint lineStartFrom (s : string) (p : nat) : nat :=
  match p with
  | O => O
  | S q =>
      match String.get q s with
      | Some c => if isLineBreak c then p else lineStartFrom s q
      | None => lineStartFrom s q
      end
  end.

(** Modelled from the spec: [StringUtils.getLineStartFromPos(s, p)], the
    start of the line of [p]. *)
Definition getLineStartFromPos (s : string) (p : Z) : Z :=
  if p <? 0 then p else Z.of_nat (lineStartFrom s (Z.to_nat p)).

(** ** The child enumerator: [getNodes] *)

Definition isStatementContainerNode (n : Node) : bool :=
  isSourceFile n || isBlock n || isModuleBlock n || isCaseClause n || isDefaultClause n.

Definition getContainerChildren (container : Node) : Outcome (list NodeId) :=
  if isSourceFile container || isBlock container || isModuleBlock container
     || isCaseClause container || isDefaultClause container
  then Ok (statements container)
  else if isClassDeclaration container
       || isClassExpression container
       || isEnumDeclaration container
       || isInterfaceDeclaration container
       || isTypeLiteralNode container
       || isClassExpression container
  then Ok (members container)
  else if isObjectLiteralExpression container
  then Ok (properties container)
  else throwNotImplementedForNeverValueError.

Definition getCtor (container : Node) : Outcome CommentListKind :=
  if isStatementContainerNode container then Ok Statement
  else if isClassLike container then Ok ClassElement
  else if isInterfaceDeclaration container || isTypeLiteralNode container then Ok TypeElement
  else if isObjectLiteralExpression container then Ok ObjectLiteralElement
  else if isEnumDeclaration container then Ok EnumMember
  else Throw NotImplementedError.

Definition isJsDocComment (comment : CompilerCommentNode) : bool :=
  if bool_decide (c_kind comment = JSDocComment) then true
  else
    let text := c_getText comment in
    String.prefix "/**" text && negb (String.eqb text "/***/").

Definition isComma (c : option ascii) : bool := bool_decide (c = Some ","%char).
Definition isCloseBrace (c : option ascii) : bool := bool_decide (c = Some "}"%char).

Section Parser.
Context (sourceFile : SourceFileObj) {Sc : Type} `{!CommentScanner sourceFile Sc}.

Definition sourceFileText : string := text sourceFile.

(** [cachedScanners] keeps one scanner per source file and creates it on
    first use.  Creating a scanner has no other effect, so the heap of a
    source file holds the state of its scanner from the start (that of
    [createCommentScanner]) and the lookup changes nothing. *)
Definition getScannerForSourceFile : M Sc unit := ret tt.

(** The loop [while (true)] of [skipTrailingLine]. *)
Fixpoint skipTrailingLine_loop (fuel : nat) : M Sc unit :=
  match fuel with
  | O => outOfFuel
  | S fuel' =>
      _ <- drain scanUntilNewLineOrToken ;;
      p <- readScanner getPos ;;
      if negb (isComma (charAt sourceFileText p)) then ret tt
      else (onScanner (setPos (p + 1)) ;;; skipTrailingLine_loop fuel')
  end.

Definition skipTrailingLine (fuel : nat) : M Sc unit :=
  p <- readScanner getPos ;;
  if bool_decide (p = 0) then ret tt
  else skipTrailingLine_loop fuel.

(** [createCommentList(fullStart, pos, end, comments)], that is
    [new ctor(fullStart, pos, end, sourceFile, container, comments)]. *)
Definition createCommentList (ctor : CommentListKind) (container : NodeId)
    (fullStart pos' end' : Z) (comments' : JsArray CompilerCommentNode)
    : M Sc CompilerCommentList :=
  a <- allocate ;;
  ret (mkCommentList a ctor fullStart pos' end' container comments').

(** The generator [getLeadingComments], run to its end by [Array.from]. *)
Fixpoint getLeadingComments (ctor : CommentListKind) (container : NodeId)
    (stopAtJsDoc : bool) (fuel : nat) : M Sc (list CompilerCommentList) :=
  match fuel with
  | O => outOfFuel
  | S fuel' =>
      a <- allocate ;;
      cs <- drain scanForNewLines ;;
      match cs with
      | [] => ret []
      | firstComment :: _ =>
          if stopAtJsDoc && existsb isJsDocComment cs then ret []
          else
            let lastComment := List.last cs firstComment in
            cl <- createCommentList ctor container
                    (c_getFullStart firstComment) (c_pos firstComment)
                    (c_end lastComment) (mkArray (Allocated a) cs) ;;
            rest <- getLeadingComments ctor container stopAtJsDoc fuel' ;;
            ret (cl :: rest)
      end
  end.

Definition maxEndAt (p : Z) : Z :=
  if bool_decide (text_length sourceFileText = p) || isCloseBrace (charAt sourceFileText p)
  then p
  else getLineStartFromPos sourceFileText p.

Definition getCommentNodes (ctor : CommentListKind) (container : NodeId)
    (stopAtJsDoc : bool) (fuel : nat) : M Sc (list CompilerCommentList) :=
  skipTrailingLine fuel ;;;
  leadingComments <- getLeadingComments ctor container stopAtJsDoc fuel ;;
  p <- readScanner getPos ;;
  let maxEnd := maxEndAt p in
  ret (filter (λ leadingComment, cl_end leadingComment ≤ maxEnd) leadingComments).

(** The loop [for (const childNode of childNodes)] of [getNodes]. *)
Fixpoint getNodes_children (ctor : CommentListKind) (container : NodeId)
    (fuel : nat) (childNodes : list NodeId) : M Sc (list NodeRef) :=
  match childNodes with
  | [] => ret []
  | childNode :: rest =>
      onScanner (setFullStartAndPos (pos (node sourceFile childNode))) ;;;
      cls <- getCommentNodes ctor container true fuel ;;
      more <- getNodes_children ctor container fuel rest ;;
      ret ((CommentList <$> cls) ++ RealNode childNode :: more)
  end.

Definition getNodes (fuel : nat) (container : NodeId) : M Sc (list NodeRef) :=
  let c := node sourceFile container in
  getScannerForSourceFile ;;;
  childNodes <- lift (getContainerChildren c) ;;
  ctor <- lift (getCtor c) ;;
  onScanner (setParent container) ;;;
  match childNodes with
  | [] =>
      bodyStartPos <- lift (getContainerBodyPos sourceFile c) ;;
      onScanner (setFullStartAndPos bodyStartPos) ;;;
      cls <- getCommentNodes ctor container false fuel ;;
      ret (CommentList <$> cls)
  | firstChild :: _ =>
      before <- getNodes_children ctor container fuel childNodes ;;
      let lastChild := List.last childNodes firstChild in
      onScanner (setFullStartAndPos (end_ (node sourceFile lastChild))) ;;;
      cls <- getCommentNodes ctor container false fuel ;;
      ret (before ++ (CommentList <$> cls))
  end.

(** ** The memoization layer *)

Definition setChildren (container : NodeId) (children : JsArray NodeRef) : M Sc unit :=
  λ h, (Ok tt, mkHeap (scanner h) (nextAddress h)
                 (<[container := children]> (childrenSaver h)) (tokenSaver h)).

Definition setTokens (k : NodeKey) (tokens : JsArray Token) : M Sc unit :=
  λ h, (Ok tt, mkHeap (scanner h) (nextAddress h)
                 (childrenSaver h) (<[k := tokens]> (tokenSaver h))).

(** [if (isSyntaxList(container)) container = container.parent] *)
Definition redirect (container : NodeId) : NodeId :=
  if isSyntaxList (node sourceFile container)
  then parent (node sourceFile container)
  else container.

Definition getOrParseChildren (fuel : nat) (container : NodeId) : M Sc (JsArray NodeRef) :=
  let container := redirect container in
  λ h, match childrenSaver h !! container with
       | Some children => (Ok children, h)
       | None =>
           (nodes <- getNodes fuel container ;;
            a <- allocate ;;
            let children := mkArray (Allocated a) nodes in
            setChildren container children ;;;
            ret children) h
       end.

Definition hasParsedChildren (container : NodeId) (h : Heap Sc) : bool :=
  bool_decide (is_Some (childrenSaver h !! redirect container)).

Definition hasParsedTokens (n : NodeRef) (h : Heap Sc) : bool :=
  bool_decide (is_Some (tokenSaver h !! keyOf n)).

(** ** The token enumerator: [getOrParseTokens] *)

(** The loop of [isChildSyntaxList] over [parent.getChildren(sourceFile)]. *)
Fixpoint isChildSyntaxList_loop (n : NodeId) (passedBrace : bool)
    (children : list NodeId) : bool :=
  match children with
  | [] => false
  | child :: rest =>
      if passedBrace then bool_decide (child = n)
      else if isKind OpenBraceToken (node sourceFile child)
      then isChildSyntaxList_loop n true rest
      else isChildSyntaxList_loop n passedBrace rest
  end.

Definition isChildSyntaxList (n : NodeId) : bool :=
  let parent' := node sourceFile (parent (node sourceFile n)) in
  if has singleSyntaxListParents (kind parent') then true
  else if negb (has openBraceSyntaxListParents (kind parent')) then false
  else isChildSyntaxList_loop n false (getChildren parent').

(** Modelled from the spec: [getStart] and [end] of a comment list, whose
    class is not part of the sources at hand, are its [pos] (the start of
    its significant content) and its [end]. *)
Definition ref_getStart (r : NodeRef) : Z :=
  match r with
  | RealNode n => getStart (node sourceFile n)
  | CommentList cl => cl_pos cl
  end.

(** Modelled from the spec: the [end] of an element, which for a comment
    list is the [end] it was constructed with. *)
Definition ref_end (r : NodeRef) : Z :=
  match r with
  | RealNode n => end_ (node sourceFile n)
  | CommentList cl => cl_end cl
  end.

(** [((child as any).jsDoc?.[0] || child).getStart(sourceFile)] *)
Definition childStartOf (child : NodeRef) : Z :=
  match child with
  | RealNode n =>
      match jsDoc (node sourceFile n) with
      | doc :: _ => getStart (node sourceFile doc)
      | [] => getStart (node sourceFile n)
      end
  | CommentList cl => cl_pos cl
  end.

(** [children.indexOf(x)], with -1 when [x] is absent. *)
Fixpoint indexOf (children : list NodeId) (x : NodeId) : Z :=
  match children with
  | [] => -1
  | c :: rest =>
      if bool_decide (c = x) then 0
      else let i := indexOf rest x in if i <? 0 then -1 else i + 1
  end.

(** [children[i]] for a number [i]. *)
Definition at_index (children : list NodeId) (i : Z) : option NodeId :=
  if i <? 0 then None else children !! Z.to_nat i.

Definition getSearchEnd (syntaxList : NodeId) : Z :=
  let parent' := parent (node sourceFile syntaxList) in
  if isSourceFile (node sourceFile parent') then end_ (node sourceFile parent')
  else
    let children := getChildren (node sourceFile parent') in
    match at_index children (indexOf children syntaxList + 1) with
    | Some nextChild =>
        if isKind CloseBraceToken (node sourceFile nextChild)
        then end_ (node sourceFile nextChild) - 1
        else end_ (node sourceFile (sf_node sourceFile))
    | None => end_ (node sourceFile (sf_node sourceFile))
    end.

(** The loop [for (const child of children)] of [parseChildSyntaxList]. *)
Fixpoint parseChildSyntaxList_children (children : list NodeRef) : M Sc (list Token) :=
  match children with
  | [] => ret []
  | child :: rest =>
      let childStart := childStartOf child in
      cs <- pushUntil scanUntilToken (λ comment, bool_decide (c_pos comment = childStart)) ;;
      onScanner (setFullStartAndPos (ref_end child)) ;;;
      more <- parseChildSyntaxList_children rest ;;
      ret ((TokComment <$> cs) ++ TokNode child :: more)
  end.

Definition parseChildSyntaxList (fuel : nat) (syntaxList : NodeId) : M Sc (JsArray Token) :=
  a <- allocate ;;
  children <- getOrParseChildren fuel syntaxList ;;
  getScannerForSourceFile ;;;
  let searchEnd := getSearchEnd syntaxList in
  onScanner (setParent (parent (node sourceFile syntaxList))) ;;;
  onScanner (setFullStartAndPos (pos (node sourceFile syntaxList))) ;;;
  before <- parseChildSyntaxList_children (items children) ;;
  cs <- pushUntil scanUntilToken (λ comment, bool_decide (searchEnd < c_pos comment)) ;;
  ret (mkArray (Allocated a) (before ++ (TokComment <$> cs))).

(** The loop [for (let i = 1; i < children.length; i++)] of [parseNode];
    [rest] holds [children[i], children[i+1], ...]. *)
Fixpoint parseNode_loop (lastEnd : Z) (rest : list NodeId) : M Sc (list Token) :=
  match rest with
  | [] => ret []
  | child :: rest' =>
      let c := node sourceFile child in
      let childIsSyntaxList := isSyntaxList c && isChildSyntaxList child in
      cs <- (if negb (isKind EndOfFileToken c)
             then
               onScanner (setFullStartAndPos lastEnd) ;;;
               let stopPos := if childIsSyntaxList then pos c else getStart c in
               pushUntil scanUntilToken (λ comment, bool_decide (stopPos < c_pos comment))
             else ret []) ;;
      let lastEnd' :=
        match rest' with
        | nextChild :: _ =>
            if childIsSyntaxList then getStart (node sourceFile nextChild) else end_ c
        | [] => end_ c
        end in
      more <- parseNode_loop lastEnd' rest' ;;
      ret ((TokComment <$> cs) ++ TokNode (RealNode child) :: more)
  end.

Definition parseNode (n : NodeId) : M Sc (JsArray Token) :=
  let children := getChildren (node sourceFile n) in
  match children with
  | [] | [_] => ret (mkArray (ChildrenOf n) (TokNode ∘ RealNode <$> children))
  | first :: rest =>
      a <- allocate ;;
      getScannerForSourceFile ;;;
      let lastEnd := end_ (node sourceFile first) in
      onScanner (setParent n) ;;;
      more <- parseNode_loop lastEnd rest ;;
      ret (mkArray (Allocated a) (TokNode (RealNode first) :: more))
  end.

Definition getTokens (fuel : nat) (n : NodeRef) : M Sc (JsArray Token) :=
  match n with
  | CommentList cl =>
      ret (mkArray (ref (comments cl)) (TokComment <$> items (comments cl)))
  | RealNode i =>
      if isSyntaxList (node sourceFile i) && isChildSyntaxList i
      then parseChildSyntaxList fuel i
      else parseNode i
  end.

Definition getOrParseTokens (fuel : nat) (n : NodeRef) : M Sc (JsArray Token) :=
  λ h, match tokenSaver h !! keyOf n with
       | Some tokens => (Ok tokens, h)
       | None =>
           (tokens <- getTokens fuel n ;;
            setTokens (keyOf n) tokens ;;;
            ret tokens) h
       end.

End Parser.

(** ** A scanner over the source text *)

Module TextScanner.

(** Modelled from the spec: the scanner built by [createCommentScanner] is
    not part of the sources at hand.  The spec describes it as a cursor
    over the source text with three scans: [scanUntilToken] yields the
    comments up to the next significant token, [scanForNewLines] the
    comments before the next blank line or significant token, and
    [scanUntilNewLineOrToken] the trivia up to the first newline or
    significant token.  Every scan leaves the cursor behind each comment it
    yields; a scan that yields nothing has skipped the white space before
    the token, the end of the text, or (for the last scan) the newline that
    stopped it. *)
Record State := mkState {
  scanParent : option NodeId;
  fullStart : Z;
  position : Z
}.

Inductive Trivia :=
  | WhiteSpace
  | NewLine
  | Comment (k : SyntaxKind).

Definition isSpace (c : ascii) : bool :=
  bool_decide (c = " "%char) || bool_decide (c = "009"%char) || bool_decide (c = "013"%char).

Definition isNewLine (c : ascii) : bool := bool_decide (c = "010"%char).

Fixpoint dropString (n : nat) (s : string) : string :=
  match n, s with
  | O, _ => s
  | S n', String _ s' => dropString n' s'
  | S _, EmptyString => EmptyString
  end.

(** The number of characters of a line comment after its [//]. *)
Fixpoint lineCommentBody (s : string) : nat :=
  match s with
  | EmptyString => O
  | String c s' => if isLineBreak c then O else S (lineCommentBody s')
  end.

(** The number of characters of a block comment after its opener, the
    closer included; an unterminated comment runs to the end of the text. *)
Fixpoint blockCommentBody (s : string) : nat :=
  match s with
  | EmptyString => O
  | String c s' =>
      match s' with
      | String d _ =>
          if bool_decide (c = "*"%char) && bool_decide (d = "/"%char) then 2%nat
          else S (blockCommentBody s')
      | EmptyString => 1%nat
      end
  end.

Definition commentAt (s : string) : option (SyntaxKind * nat) :=
  match s with
  | String c (String d s') =>
      if bool_decide (c = "/"%char) && bool_decide (d = "/"%char)
      then Some (SingleLineCommentTrivia, (2 + lineCommentBody s')%nat)
      else if bool_decide (c = "/"%char) && bool_decide (d = "*"%char)
      then Some (MultiLineCommentTrivia, (2 + blockCommentBody s')%nat)
      else None
  | _ => None
  end.

(** The piece of trivia that starts at offset [p], with the offset behind
    it; [None] at a significant token and at the end of the text. *)
Definition triviaAt (txt : string) (p : nat) : option (Trivia * nat) :=
  match dropString p txt with
  | EmptyString => None
  | String c _ as suffix =>
      if isSpace c then Some (WhiteSpace, S p)
      else if isNewLine c then Some (NewLine, S p)
      else match commentAt suffix with
           | Some (k, n) => Some (Comment k, (p + n)%nat)
           | None => None
           end
  end.

(** What a scan does at a newline: [scanUntilToken] goes through it,
    [scanUntilNewLineOrToken] stops at it, and [scanForNewLines] stops at
    the second newline behind a comment (a blank line ends a group) and
    goes through the newlines before its first comment. *)
Inductive LineRule :=
  | ThroughLines
  | StopAtLine
  | StopAtBlankLine (afterComment sawNewLine : bool).

Definition atNewLine (r : LineRule) : option LineRule :=
  match r with
  | ThroughLines => Some ThroughLines
  | StopAtLine => None
  | StopAtBlankLine false _ => Some (StopAtBlankLine false false)
  | StopAtBlankLine true false => Some (StopAtBlankLine true true)
  | StopAtBlankLine true true => None
  end.

Definition atComment (r : LineRule) : LineRule :=
  match r with
  | StopAtBlankLine _ _ => StopAtBlankLine true false
  | _ => r
  end.

(** Modelled from the spec: a scan from offset [p].  White space is
    skipped; a comment is yielded with the full start [fs] of the scanner
    and leaves cursor and full start behind it; a newline is skipped or
    stops the scan, as the rule says; a significant token and the end of
    the text stop it. *)
Fixpoint scanTrivia (txt : string) (par : option NodeId) (r : LineRule)
    (fuel : nat) (fs : Z) (p : nat)
    : list (CompilerCommentNode * State) * State :=
  match fuel with
  | O => ([], mkState par fs (Z.of_nat p))
  | S fuel' =>
      match triviaAt txt p with
      | None => ([], mkState par fs (Z.of_nat p))
      | Some (WhiteSpace, q) => scanTrivia txt par r fuel' fs q
      | Some (NewLine, q) =>
          match atNewLine r with
          | Some r' => scanTrivia txt par r' fuel' fs q
          | None => ([], mkState par fs (Z.of_nat p))
          end
      | Some (Comment k, q) =>
          let c := mkComment k fs (Z.of_nat p) (Z.of_nat q)
                     (String.substring p (q - p) txt) in
          let '(ys, fin) := scanTrivia txt par (atComment r) fuel' (Z.of_nat q) q in
          ((c, mkState par (Z.of_nat q) (Z.of_nat q)) :: ys, fin)
      end
  end.

(** Modelled from the spec: a scan from the cursor of the scanner; nothing
    is found at a negative cursor. *)
Definition scan (txt : string) (r : LineRule) (s : State) : Generator State :=
  if position s <? 0 then mkGenerator [] s
  else
    let '(ys, fin) := scanTrivia txt (scanParent s) r (S (String.length txt))
                        (fullStart s) (Z.to_nat (position s)) in
    mkGenerator ys fin.

(** The offset of the next significant token at or after [p]. *)
Fixpoint skipTrivia (txt : string) (fuel : nat) (p : nat) : nat :=
  match fuel with
  | O => p
  | S fuel' =>
      match triviaAt txt p with
      | Some (_, q) => skipTrivia txt fuel' q
      | None => p
      end
  end.

Definition tokenStart (txt : string) (p : Z) : Z :=
  if p <? 0 then p else Z.of_nat (skipTrivia txt (String.length txt) (Z.to_nat p)).

(** Modelled from the spec: the operations of the scanner of a source
    file, that is [createCommentScanner(sourceFile)]. *)
#[global] Instance textScanner (sourceFile : SourceFileObj) : CommentScanner sourceFile State := {
  createCommentScanner := mkState None 0 0;
  setParent n s := mkState (Some n) (fullStart s) (position s);
  setFullStartAndPos p s := mkState (scanParent s) p p;
  setPos p s := mkState (scanParent s) (fullStart s) p;
  getPos := position;
  scanUntilToken := scan (text sourceFile) ThroughLines;
  scanForNewLines := scan (text sourceFile) (StopAtBlankLine false false);
  scanUntilNewLineOrToken := scan (text sourceFile) StopAtLine
}.

Definition emptyHeap : Heap State := mkHeap (mkState None 0 0) 0 ∅ ∅.

(** Offsets that are linked by pieces of trivia. *)
Inductive reach (txt : string) : nat → nat → Prop :=
  | reach_here (p : nat) : reach txt p p
  | reach_step (p q r : nat) (t : Trivia) :
      triviaAt txt p = Some (t, q) → reach txt q r → reach txt p r.

End TextScanner.

(** ** What is stated about the parser *)

(** The spans [start a .. finish a] of a list lie one after the other
    between [lo] and [hi], and none is empty. *)
Fixpoint chain {A : Type} (start finish : A → Z) (lo : Z) (l : list A) (hi : Z) : Prop :=
  match l with
  | [] => lo ≤ hi
  | a :: rest => lo ≤ start a ∧ start a < finish a ∧ chain start finish (finish a) rest hi
  end.

(** The comments of a scan lie in order between the cursor before the scan
    and the cursor after it. *)
Definition inOrder : Z → list CompilerCommentNode → Z → Prop := chain c_pos c_end.

(** What the parser relies on from a scanner.  [nextToken p] is the offset
    of the first significant token at or after [p]: no scan moves the
    cursor beyond it, and a comma is such a token. *)
Class ScannerLaws (sourceFile : SourceFileObj) (Sc : Type)
    `{!CommentScanner sourceFile Sc} := {
  nextToken : Z → Z;
  getPos_setFullStartAndPos : ∀ p s, getPos (setFullStartAndPos p s) = p;
  getPos_setPos : ∀ p s, getPos (setPos p s) = p;
  scanForNewLines_inOrder : ∀ s,
    inOrder (getPos s) (fst <$> yields (scanForNewLines s))
            (getPos (exhausted (scanForNewLines s)));
  scanForNewLines_nextToken : ∀ s,
    getPos (exhausted (scanForNewLines s)) ≤ nextToken (getPos s)
    ∧ nextToken (getPos (exhausted (scanForNewLines s))) = nextToken (getPos s);
  scanForNewLines_inText : ∀ s,
    yields (scanForNewLines s) ≠ [] →
    0 ≤ getPos s
    ∧ getPos (exhausted (scanForNewLines s)) ≤ text_length (text sourceFile);
  scanUntilNewLineOrToken_inOrder : ∀ s,
    inOrder (getPos s) (fst <$> yields (scanUntilNewLineOrToken s))
            (getPos (exhausted (scanUntilNewLineOrToken s)));
  scanUntilNewLineOrToken_nextToken : ∀ s,
    getPos (exhausted (scanUntilNewLineOrToken s)) ≤ nextToken (getPos s)
    ∧ nextToken (getPos (exhausted (scanUntilNewLineOrToken s))) = nextToken (getPos s);
  comma_is_token : ∀ p,
    charAt (text sourceFile) p = Some ","%char → nextToken p = p
}.

(** The comments of a comment list lie in order inside the list. *)
Definition groupOk (cl : CompilerCommentList) : Prop :=
  chain c_pos c_end (cl_pos cl) (items (comments cl)) (cl_end cl).

Section Properties.
Context (sourceFile : SourceFileObj) {Sc : Type} `{!CommentScanner sourceFile Sc}.

(** The number of offsets of the text at or after [p]. *)
Definition room (p : Z) : nat := Z.to_nat (text_length (text sourceFile) - Z.max p 0).

(** Every comment that the drains of [skipTrailingLine] throw away. *)
Fixpoint skippedComments (fuel : nat) (s : Sc) : list CompilerCommentNode :=
  match fuel with
  | O => []
  | S fuel' =>
      let g := scanUntilNewLineOrToken s in
      let p := getPos (exhausted g) in
      (fst <$> yields g)
      ++ (if negb (isComma (charAt (text sourceFile) p)) then []
          else skippedComments fuel' (setPos (p + 1) (exhausted g)))
  end.






(** Strictly increasing starts and no two spans that overlap. *)
Definition strictlyOrdered (l : list NodeRef) : Prop :=
  ∀ (i j : nat) (a b : NodeRef),
    (i < j)%nat → l !! i = Some a → l !! j = Some b →
    ref_getStart sourceFile a < ref_getStart sourceFile b
    ∧ ref_end sourceFile a ≤ ref_getStart sourceFile b.

(** Children of a parsed tree follow one another. *)
Fixpoint consecutive (l : list NodeId) : Prop :=
  match l with
  | [] => True
  | a :: rest =>
      match rest with
      | [] => True
      | b :: _ => end_ (node sourceFile a) ≤ pos (node sourceFile b)
      end ∧ consecutive rest
  end.

(** A real child as the TypeScript parser builds it: it is not empty, its
    start is the first significant token at or after its full start, and
    that token is not a comma. *)
Definition wellFormedChild `{!ScannerLaws sourceFile Sc} (n : NodeId) : Prop :=
  let c := node sourceFile n in
  getStart c < end_ c
  ∧ nextToken (pos c) = getStart c
  ∧ charAt (text sourceFile) (getStart c) ≠ Some ","%char.

Definition wellFormedContainer `{!ScannerLaws sourceFile Sc} (container : NodeId) : Prop :=
  ∀ childNodes, getContainerChildren (node sourceFile container) = Ok childNodes →
    Forall wellFormedChild childNodes ∧ consecutive childNodes.

(** The offset at which the enumeration of a container starts to scan. *)
Definition scanStart (container : NodeId) : Outcome Z :=
  match getContainerChildren (node sourceFile container) with
  | Ok [] => getContainerBodyPos sourceFile (node sourceFile container)
  | Ok (firstChild :: _) => Ok (pos (node sourceFile firstChild))
  | Throw e => Throw e
  | OutOfFuel => OutOfFuel
  end.


End Properties.

(** ** The comment-list predicates of [CommentNodeParser] *)

#[global] Instance CommentListKind_eq_dec : EqDecision CommentListKind.
Proof. solve_decision. Defined.

(** [(node as CompilerCommentList).commentListKind === k]: a real node has
    no [commentListKind]. *)
Definition hasCommentListKind (k : CommentListKind) (r : NodeRef) : bool :=
  match r with
  | RealNode _ => false
  | CommentList cl => bool_decide (commentListKind cl = k)
  end.

Definition isCommentListStatement : NodeRef → bool := hasCommentListKind Statement.
Definition isCommentListClassElement : NodeRef → bool := hasCommentListKind ClassElement.
Definition isCommentListTypeElement : NodeRef → bool := hasCommentListKind TypeElement.
Definition isCommentListObjectLiteralElement : NodeRef → bool :=
  hasCommentListKind ObjectLiteralElement.
Definition isCommentListEnumMember : NodeRef → bool := hasCommentListKind EnumMember.

(** [typeof (node as CompilerCommentList).commentListKind === "number"] *)
Definition isCommentList (r : NodeRef) : bool :=
  match r with
  | RealNode _ => false
  | CommentList _ => true
  end.

(** ** What is stated about sequences and the heap *)

(** The real children of a child sequence, in order. *)
Definition realNodes (l : list NodeRef) : list NodeId :=
  omap (λ r, match r with RealNode n => Some n | CommentList _ => None end) l.

(** The comment lists of a child sequence, in order. *)
Definition commentLists (l : list NodeRef) : list CompilerCommentList :=
  omap (λ r, match r with RealNode _ => None | CommentList cl => Some cl end) l.

(** The nodes of a token sequence, in order. *)
Definition tokenNodes (l : list Token) : list NodeRef :=
  omap (λ t, match t with TokNode r => Some r | TokComment _ => None end) l.

(** A comment list as [getLeadingComments] builds it for a container. *)
Definition builtFor (ctor : CommentListKind) (container : NodeId)
    (cl : CompilerCommentList) : Prop :=
  commentListKind cl = ctor
  ∧ cl_parent cl = container
  ∧ ∃ firstComment rest,
      items (comments cl) = firstComment :: rest
      ∧ cl_fullStart cl = c_getFullStart firstComment
      ∧ cl_pos cl = c_pos firstComment
      ∧ cl_end cl = c_end (List.last (firstComment :: rest) firstComment).

(** What holds of every stored child sequence. *)
Definition storedChildren {Sc} (P : NodeId → list NodeRef → Prop) (h : Heap Sc) : Prop :=
  ∀ c arr, childrenSaver h !! c = Some arr → P c (items arr).

(** The real children of a child sequence are the children of the
    container: its statements, members or properties. *)
Definition keepsChildren (sourceFile : SourceFileObj) (c : NodeId) (l : list NodeRef) : Prop :=
  getContainerChildren (node sourceFile c) = Ok (realNodes l).

(** The comment lists of a child sequence are built for the container. *)
Definition builtBy (sourceFile : SourceFileObj) (c : NodeId) (l : list NodeRef) : Prop :=
  ∃ ctor, getCtor (node sourceFile c) = Ok ctor
          ∧ Forall (builtFor ctor c) (commentLists l).

(** The comments of a comment list span the list in order: the first
    starts where the list starts, each is non-empty and ends at or before
    the start of the next, and the last ends where the list ends. *)
Definition spannedInOrder (cl : CompilerCommentList) : Prop :=
  ∃ firstComment rest,
    items (comments cl) = firstComment :: rest
    ∧ cl_pos cl = c_pos firstComment
    ∧ cl_end cl = c_end (List.last (firstComment :: rest) firstComment)
    ∧ chain c_pos c_end (c_pos firstComment) (firstComment :: rest)
        (c_end (List.last (firstComment :: rest) firstComment)).

(** That holds of every comment list of a child sequence. *)
Definition groupsInOrder (c : NodeId) (l : list NodeRef) : Prop :=
  Forall spannedInOrder (commentLists l).

(** No child of a node has the given kind. *)
Definition noChildOfKind (sourceFile : SourceFileObj) (k : SyntaxKind) (n : Node) : Prop :=
  ∀ c, c ∈ getChildren n → kind (node sourceFile c) ≠ k.

(** The message of the error of [getLastSyntaxListPos]. *)
Definition noSyntaxListError : Exception :=
  Error "Unexpected scenario where a syntax list could not be found.".

(** What [parseNode] lets stand before a child: nothing before the end of
    file token, and else comments that start at or before the stop
    position, which is the full start of a child syntax list and the start
    of any other child. *)
Definition commentsBeforeChild (sourceFile : SourceFileObj) (child : NodeId)
    (cs : list CompilerCommentNode) : Prop :=
  let c := node sourceFile child in
  if isKind EndOfFileToken c then cs = []
  else ∀ comment, comment ∈ cs →
         c_pos comment ≤ (if isSyntaxList c && isChildSyntaxList sourceFile child
                          then pos c else getStart c).

(** What [parseChildSyntaxList] lets stand before a child: comments that do
    not start where the child starts. *)
Definition commentsBeforeElement (sourceFile : SourceFileObj) (child : NodeRef)
    (cs : list CompilerCommentNode) : Prop :=
  ∀ comment, comment ∈ cs → c_pos comment ≠ childStartOf sourceFile child.

(** The child that follows the first open brace among the children. *)
Definition afterFirstBrace (sourceFile : SourceFileObj) (children : list NodeId)
    (n : NodeId) : Prop :=
  ∃ (i : nat) (brace : NodeId),
    children !! i = Some brace
    ∧ kind (node sourceFile brace) = OpenBraceToken
    ∧ (∀ (j : nat) (c : NodeId), (j < i)%nat → children !! j = Some c →
                                 kind (node sourceFile c) ≠ OpenBraceToken)
    ∧ children !! S i = Some n.

(** ** What a child sequence leaves out *)

(** White space: a blank, a tab, a carriage return or a line feed. *)
Definition isWhiteSpace (c : option ascii) : bool :=
  match c with
  | Some a =>
      bool_decide (a = " "%char) || bool_decide (a = "009"%char)
      || bool_decide (a = "013"%char) || bool_decide (a = "010"%char)
  | None => false
  end.

(** Offset [x] lies in the comment [c]. *)
Definition inComment (x : Z) (c : CompilerCommentNode) : Prop := c_pos c ≤ x < c_end c.

(** Between the offsets [lo] and [hi] there is nothing but white space and
    the comments [cs]. *)
Definition passesOver (sourceFile : SourceFileObj) (lo : Z)
    (cs : list CompilerCommentNode) (hi : Z) : Prop :=
  ∀ x, lo ≤ x < hi →
    isWhiteSpace (charAt (text sourceFile) x) = true ∨ ∃ c, c ∈ cs ∧ inComment x c.

(** Modelled from the spec: the scanner is not part of the sources at hand.
    The spec has [scanForNewLines] yield the comments that appear before
    the next blank line or significant token and
    [scanUntilNewLineOrToken] drain the trivia up to the first newline or
    significant token: between the cursor before such a scan and the cursor
    after it there is nothing but white space and the comments that the
    scan yields. *)
Class ScanCovers (sourceFile : SourceFileObj) (Sc : Type)
    `{!CommentScanner sourceFile Sc} := {
  scanForNewLines_covers : ∀ s,
    passesOver sourceFile (getPos s) (fst <$> yields (scanForNewLines s))
      (getPos (exhausted (scanForNewLines s)));
  scanUntilNewLineOrToken_covers : ∀ s,
    passesOver sourceFile (getPos s) (fst <$> yields (scanUntilNewLineOrToken s))
      (getPos (exhausted (scanUntilNewLineOrToken s)))
}.

Section Accounting.
Context (sourceFile : SourceFileObj) {Sc : Type} `{!CommentScanner sourceFile Sc}.






End Accounting.

(** A computation that throws nothing. *)
Definition neverThrows {Sc A} (m : M Sc A) : Prop :=
  ∀ h e, (m h).1 ≠ Throw e.

(** A computation that always returns a value. *)
Definition alwaysReturns {Sc A} (m : M Sc A) : Prop :=
  ∀ h, ∃ a, (m h).1 = Ok a.

(** A computation that changes the heap in its scanner only. *)
Definition movesScannerOnly {Sc A} (m : M Sc A) : Prop :=
  ∀ h, ∃ s, (m h).2 = withScanner h s.

(** A token sequence that holds the given children in order, each behind
    the comments found before it; [ok child cs] is what holds of the
    comments [cs] that stand before [child]. *)
Inductive Interleaved {N : Type} (wrap : N → Token)
    (ok : N → list CompilerCommentNode → Prop) : list N → list Token → Prop :=
  | Interleaved_nil : Interleaved wrap ok [] []
  | Interleaved_cons (child : N) (cs : list CompilerCommentNode)
      (children : list N) (tokens : list Token) :
      ok child cs →
      Interleaved wrap ok children tokens →
      Interleaved wrap ok (child :: children)
        ((TokComment <$> cs) ++ wrap child :: tokens).

(** ** Example trees *)

Module Examples.
Import TextScanner.

Local Close Scope Z_scope.

Definition nl : string := String "010"%char EmptyString.

(** A node with offsets given as natural numbers. *)
Definition tsNode (k : SyntaxKind) (p e st : nat) (par : NodeId)
    (children stmts membs props docs : list NodeId) : Node :=
  mkNode k (Z.of_nat p) (Z.of_nat e) (Z.of_nat st) par children stmts membs props docs.

Definition token (k : SyntaxKind) (p e st : nat) (par : NodeId) : Node :=
  tsNode k p e st par [] [] [] [] [].

Definition arena (l : list Node) : NodeId → Node :=
  λ i, nth i l (token (OtherKind 0) 0 0 0 0).

(** Two comment groups before a statement, the text ending in a newline. *)
Definition groupedText : string :=
  "// a" +:+ nl +:+ nl +:+ "// b" +:+ nl +:+ nl +:+ "x;" +:+ nl.

Definition grouped : SourceFileObj :=
  mkSourceFile 0 groupedText (arena [
    tsNode SourceFile 0 15 12 0 [1; 2] [3] [] [] [];
    tsNode SyntaxList 0 14 12 0 [3] [] [] [] [];
    token EndOfFileToken 14 15 15 0;
    token (OtherKind 1) 0 14 12 0 ]).

(** The two comment groups and the statement of [grouped]. *)
Definition groupedChildren : list NodeRef :=
  [ CommentList (mkCommentList 1 Statement 0%Z 0%Z 4%Z 0
      (mkArray (Allocated 0) [mkComment SingleLineCommentTrivia 0%Z 0%Z 4%Z "// a"]));
    CommentList (mkCommentList 3 Statement 4%Z 6%Z 10%Z 0
      (mkArray (Allocated 2) [mkComment SingleLineCommentTrivia 4%Z 6%Z 10%Z "// b"]));
    RealNode 3 ].

(** An object literal whose only comment shares the line of its brace. *)
Definition onlyText : string := "x = { /* only */ };".

Definition only : SourceFileObj :=
  mkSourceFile 0 onlyText (arena [
    tsNode SourceFile 0 19 0 0 [1; 2] [3] [] [] [];
    tsNode SyntaxList 0 19 0 0 [3] [] [] [] [];
    token EndOfFileToken 19 19 19 0;
    token (OtherKind 1) 0 19 0 0;
    tsNode ObjectLiteralExpression 3 18 4 3 [5; 6; 7] [] [] [] [];
    token OpenBraceToken 3 5 4 4;
    token SyntaxList 5 5 5 4;
    token CloseBraceToken 5 18 17 4 ]).

(** The same literal with the comment on a line of its own. *)
Definition onlyBelowText : string := "x = {" +:+ nl +:+ " /* only */ };".

Definition onlyBelow : SourceFileObj :=
  mkSourceFile 0 onlyBelowText (arena [
    tsNode SourceFile 0 20 0 0 [1; 2] [3] [] [] [];
    tsNode SyntaxList 0 20 0 0 [3] [] [] [] [];
    token EndOfFileToken 20 20 20 0;
    token (OtherKind 1) 0 20 0 0;
    tsNode ObjectLiteralExpression 3 19 4 3 [5; 6; 7] [] [] [] [];
    token OpenBraceToken 3 5 4 4;
    token SyntaxList 5 5 5 4;
    token CloseBraceToken 5 19 18 4 ]).

(** A class with one member and a comment before its closing brace:
    [class A {], [  m;], [  // t], [}]. *)
Definition classText : string :=
  "class A {" +:+ nl +:+ "  m;" +:+ nl +:+ "  // t" +:+ nl +:+ "}" +:+ nl.

Definition classFile : SourceFileObj :=
  mkSourceFile 0 classText (arena [
    tsNode SourceFile 0 24 0 0 [1; 2] [3] [] [] [];
    tsNode SyntaxList 0 23 0 0 [3] [] [] [] [];
    token EndOfFileToken 23 24 24 0;
    tsNode ClassDeclaration 0 23 0 0 [4; 5; 6; 7; 8] [] [9] [] [];
    token (OtherKind 2) 0 5 0 3;
    token (OtherKind 3) 5 7 6 3;
    token OpenBraceToken 7 9 8 3;
    tsNode SyntaxList 9 14 12 3 [9] [] [] [] [];
    token CloseBraceToken 14 23 22 3;
    token (OtherKind 4) 9 14 12 3 ]).

(** A class with a comment on the line of its open brace:
    [class A { // h], [  m;], [}]. *)
Definition headerText : string :=
  "class A { // h" +:+ nl +:+ "  m;" +:+ nl +:+ "}".

Definition headerFile : SourceFileObj :=
  mkSourceFile 0 headerText (arena [
    tsNode SourceFile 0 21 0 0 [1; 2] [3] [] [] [];
    tsNode SyntaxList 0 21 0 0 [3] [] [] [] [];
    token EndOfFileToken 21 21 21 0;
    tsNode ClassDeclaration 0 21 0 0 [4; 5; 6; 7; 8] [] [9] [] [];
    token (OtherKind 2) 0 5 0 3;
    token (OtherKind 3) 5 7 6 3;
    token OpenBraceToken 7 9 8 3;
    tsNode SyntaxList 9 19 17 3 [9] [] [] [] [];
    token CloseBraceToken 19 21 20 3;
    token (OtherKind 4) 9 19 17 3 ]).

(** A documented function: [/** doc */] on the line before [function f(){}]. *)
Definition documentedText : string := "/** doc */" +:+ nl +:+ "function f(){}".

Definition documented : SourceFileObj :=
  mkSourceFile 0 documentedText (arena [
    tsNode SourceFile 0 25 11 0 [1; 2] [3] [] [] [];
    tsNode SyntaxList 0 25 11 0 [3] [] [] [] [];
    token EndOfFileToken 25 25 25 0;
    tsNode (OtherKind 5) 0 25 11 0 [] [] [] [] [4];
    token JSDocComment 0 10 0 3 ]).

(** A file that holds a documentation comment and nothing else. *)
Definition docOnlyText : string := "/** doc */" +:+ nl.

Definition docOnly : SourceFileObj :=
  mkSourceFile 0 docOnlyText (arena [
    tsNode SourceFile 0 11 11 0 [1; 2] [] [] [] [];
    tsNode SyntaxList 0 0 0 0 [] [] [] [] [];
    token EndOfFileToken 0 11 11 0 ]).

(** An enum whose members carry comments behind their commas:
    [enum E {], [  A, // a], [  B, // b], [}]. *)
Definition enumText : string :=
  "enum E {" +:+ nl +:+ "  A, // a" +:+ nl +:+ "  B, // b" +:+ nl +:+ "}".

Definition enumFile : SourceFileObj :=
  mkSourceFile 0 enumText (arena [
    tsNode SourceFile 0 30 0 0 [1; 2] [3] [] [] [];
    tsNode SyntaxList 0 30 0 0 [3] [] [] [] [];
    token EndOfFileToken 30 30 30 0;
    tsNode EnumDeclaration 0 30 0 0 [4; 5; 6; 7; 8] [] [9; 10] [] [];
    token (OtherKind 6) 0 4 0 3;
    token (OtherKind 3) 4 6 5 3;
    token OpenBraceToken 6 8 7 3;
    tsNode SyntaxList 8 23 11 3 [9; 11; 10; 12] [] [] [] [];
    token CloseBraceToken 23 30 29 3;
    token (OtherKind 7) 8 12 11 3;
    token (OtherKind 7) 13 22 21 3;
    token (OtherKind 8) 12 13 12 3;
    token (OtherKind 8) 22 23 22 3 ]).

(** A declaration without brace and without syntax list, and a node that is
    no container. *)
Definition broken : SourceFileObj :=
  mkSourceFile 0 "" (arena [
    tsNode SourceFile 0 0 0 0 [] [] [] [] [];
    tsNode InterfaceDeclaration 0 9 0 0 [2] [] [] [] [];
    token (OtherKind 3) 0 9 0 1;
    tsNode TypeLiteral 0 9 0 0 [2; 4; 5] [] [] [] [];
    token SyntaxList 3 3 3 3;
    token SyntaxList 7 7 7 3 ]).

(** A block of zero length at the start of a text whose second line is a
    comment: [x], [// c]. *)
Definition zeroLengthText : string := "x" +:+ nl +:+ "// c" +:+ nl.

Definition zeroLength : SourceFileObj :=
  mkSourceFile 0 zeroLengthText (arena [
    tsNode SourceFile 0 7 0 0 [] [] [] [] [];
    tsNode Block 0 0 0 0 [] [] [] [] [] ]).

(** A syntax list under a case clause that names neither a colon nor the
    list among its children: a tree that the TypeScript parser does not
    build. *)
Definition orphan : SourceFileObj :=
  mkSourceFile 0 "" (arena [
    tsNode SourceFile 0 0 0 0 [] [] [] [] [];
    tsNode CaseClause 0 0 0 0 [] [] [] [] [];
    token SyntaxList 0 0 0 1 ]).

End Examples.

(** * Properties *)

(** Closes a decidable goal about concrete data by evaluation. *)
Ltac decided := apply (bool_decide_unpack _); vm_compute; exact I.

(** ** Containers and their body start *)

Lemma has_true (s : list SyntaxKind) (k : SyntaxKind) : has s k = true ↔ k ∈ s.
Proof. unfold has. apply bool_decide_eq_true. Qed.

Lemma isKind_true (k : SyntaxKind) (n : Node) : isKind k n = true ↔ kind n = k.
Proof. unfold isKind. apply bool_decide_eq_true. Qed.

Lemma isKind_false (k : SyntaxKind) (n : Node) : isKind k n = false ↔ kind n ≠ k.
Proof. unfold isKind. rewrite bool_decide_eq_false. tauto. Qed.

(** A node is classified as a container exactly when its kind is one of
    the recognised container kinds and its start position differs from its
    end position; a node of zero length is never classified as one. *)
Lemma shouldParseChildren_iff (container : Node) :
  (shouldParseChildren container = true
   ↔ kind container ∈ commentNodeParserKinds ∧ pos container ≠ end_ container)
  ∧ (pos container = end_ container → shouldParseChildren container = false).
Proof.
  unfold shouldParseChildren. split.
  - rewrite andb_true_iff, has_true, negb_true_iff, bool_decide_eq_false. tauto.
  - intros Heq. rewrite (bool_decide_eq_true_2 _ Heq). apply andb_false_r.
Qed.

Lemma findLastSyntaxList_loop_spec (sourceFile : SourceFileObj)
    (children : list NodeId) (n : nat) :
  findLastSyntaxList_loop sourceFile children n
  = last (filter (λ c, kind (node sourceFile c) = SyntaxList) (take n children)).
Proof.
  induction n as [|i IH]; simpl.
  - reflexivity.
  - destruct (children !! i) as [c|] eqn:Hc.
    + rewrite (take_S_r _ _ _ Hc), filter_app, filter_cons, filter_nil.
      unfold isSyntaxList, isKind.
      destruct (decide (kind (node sourceFile c) = SyntaxList)) as [Hk|Hk].
      * rewrite (bool_decide_eq_true_2 _ Hk). rewrite last_snoc. reflexivity.
      * rewrite (bool_decide_eq_false_2 _ Hk), app_nil_r. exact IH.
    + apply lookup_ge_None in Hc.
      rewrite IH, !take_ge by lia. reflexivity.
Qed.

Lemma findLastSyntaxList_spec (sourceFile : SourceFileObj) (n : Node) :
  findLastSyntaxList sourceFile n
  = last (filter (λ c, kind (node sourceFile c) = SyntaxList) (getChildren n)).
Proof.
  unfold findLastSyntaxList. rewrite findLastSyntaxList_loop_spec, firstn_all.
  reflexivity.
Qed.

(** C8: for a declaration body (class, interface, enum, type literal, class
    expression, object literal) the body start is the end of the first
    open-brace child when there is one, else the full start of the last
    syntax-list child, and the plain error is thrown when there is no
    syntax list either.  For a node of a kind outside the container kinds
    the function ends in the call of the library helper
    [throwNotImplementedForNeverValueError], which is modelled from the
    spec and throws the not-implemented error.  Nothing in the function
    catches either. *)
Theorem getContainerBodyPos_declaration (sourceFile : SourceFileObj) (container : Node) :
  (kind container ∈ openBraceSyntaxListParents →
   getContainerBodyPos sourceFile container =
     match find (λ c, isKind OpenBraceToken (node sourceFile c)) (getChildren container) with
     | Some brace => Ok (end_ (node sourceFile brace))
     | None =>
         match last (filter (λ c, kind (node sourceFile c) = SyntaxList)
                            (getChildren container)) with
         | Some syntaxList => Ok (pos (node sourceFile syntaxList))
         | None => Throw (Error "Unexpected scenario where a syntax list could not be found.")
         end
     end)
  ∧ (kind container ∉ commentNodeParserKinds →
     getContainerBodyPos sourceFile container = Throw NotImplementedError).
Proof.
  split.
  - intros Hk. unfold getContainerBodyPos, getTokenEnd, getLastSyntaxListPos, orElse.
    rewrite findLastSyntaxList_spec.
    unfold isSourceFile, isClassDeclaration, isEnumDeclaration, isInterfaceDeclaration,
      isTypeLiteralNode, isClassExpression, isObjectLiteralExpression, isKind at 1 2 3 4 5 6 7.
    unfold openBraceSyntaxListParents in Hk.
    repeat (apply elem_of_cons in Hk as [Hk|Hk]; [rewrite Hk; simpl|]);
      try (by apply elem_of_nil in Hk);
      destruct (find _ _); reflexivity.
  - intros Hk. unfold getContainerBodyPos.
    unfold isSourceFile, isClassDeclaration, isEnumDeclaration, isInterfaceDeclaration,
      isTypeLiteralNode, isClassExpression, isObjectLiteralExpression, isModuleBlock,
      isBlock, isCaseClause, isDefaultClause, isKind.
    unfold commentNodeParserKinds in Hk.
    repeat rewrite not_elem_of_cons in Hk.
    repeat (rewrite bool_decide_eq_false_2 by tauto). reflexivity.
Qed.

Lemma getContainerBodyPos_declaration_witness :
  getContainerBodyPos Examples.classFile (node Examples.classFile 3%nat) = Ok 9
  ∧ getContainerBodyPos Examples.broken (node Examples.broken 3%nat) = Ok 7
  ∧ getContainerBodyPos Examples.broken (node Examples.broken 1%nat)
    = Throw (Error "Unexpected scenario where a syntax list could not be found.")
  ∧ getContainerBodyPos Examples.broken (node Examples.broken 2%nat)
    = Throw NotImplementedError.
Proof.
  split; [|split; [|split]].
  - rewrite (proj1 (getContainerBodyPos_declaration Examples.classFile _)).
    + reflexivity.
    + decided.
  - rewrite (proj1 (getContainerBodyPos_declaration Examples.broken _)).
    + reflexivity.
    + decided.
  - rewrite (proj1 (getContainerBodyPos_declaration Examples.broken _)).
    + reflexivity.
    + decided.
  - apply (proj2 (getContainerBodyPos_declaration Examples.broken _)).
    decided.
Defined.

(** ** Reasoning in the monad *)

Lemma bind_Ok {Sc A B} (m : M Sc A) (f : A → M Sc B) (h h' : Heap Sc) (a : A) :
  m h = (Ok a, h') → bind m f h = f a h'.
Proof. intros H. unfold bind. rewrite H. reflexivity. Qed.

Lemma bind_ret {Sc A B} (a : A) (f : A → M Sc B) (h : Heap Sc) :
  bind (ret a) f h = f a h.
Proof. reflexivity. Qed.

Lemma bind_lift_Ok {Sc A B} (a : A) (f : A → M Sc B) (h : Heap Sc) :
  bind (lift (Ok a)) f h = f a h.
Proof. reflexivity. Qed.

Lemma bind_lift_Throw {Sc A B} (e : Exception) (f : A → M Sc B) (h : Heap Sc) :
  bind (lift (Throw e)) f h = (Throw e, h).
Proof. reflexivity. Qed.

Lemma bind_onScanner {Sc B} (g : Sc → Sc) (f : unit → M Sc B) (h : Heap Sc) :
  bind (onScanner g) f h = f tt (withScanner h (g (scanner h))).
Proof. reflexivity. Qed.

Lemma bind_readScanner {Sc A B} (g : Sc → A) (f : A → M Sc B) (h : Heap Sc) :
  bind (readScanner g) f h = f (g (scanner h)) h.
Proof. reflexivity. Qed.

Lemma bind_allocate {Sc B} (f : nat → M Sc B) (h : Heap Sc) :
  bind allocate f h = f (nextAddress h) (allocated 1 h).
Proof. reflexivity. Qed.

Lemma bind_getScanner {Sc B} (f : unit → M Sc B) (h : Heap Sc) :
  bind getScannerForSourceFile f h = f tt h.
Proof. reflexivity. Qed.

(** Runs the steps of a computation whose outcome is known. *)
Ltac mstep :=
  repeat first
    [ rewrite bind_ret | rewrite bind_lift_Ok | rewrite bind_lift_Throw
    | rewrite bind_onScanner | rewrite bind_readScanner | rewrite bind_allocate
    | rewrite bind_getScanner ].

(** Unfolds the primitive computations of the monad. *)
Ltac munfold :=
  unfold bind, ret, lift, allocate, drain, onScanner, readScanner, createCommentList,
    outOfFuel, getScannerForSourceFile, pushUntil, setChildren, setTokens.

(** ** The start of a line *)

Lemma lineStartFrom_spec (s : string) (p : nat) :
  let q := lineStartFrom s p in
  (q ≤ p)%nat
  ∧ (q = 0%nat
     ∨ (0 < q)%nat ∧ ∃ c, String.get (q - 1) s = Some c ∧ isLineBreak c = true)
  ∧ ∀ x c, (q ≤ x < p)%nat → String.get x s = Some c → isLineBreak c = false.
Proof.
  induction p as [|p (IH1 & IH2 & IH3)]; simpl.
  - split; [lia|]. split; [left; reflexivity|]. intros x c Hx. lia.
  - assert (∀ x c, (lineStartFrom s p ≤ x < S p)%nat →
                   (∀ d, String.get p s = Some d → isLineBreak d = false) →
                   String.get x s = Some c → isLineBreak c = false) as Hstep.
    { intros x c Hx Hp Hget. destruct (decide (x = p)) as [->|Hne]; [eauto|].
      apply (IH3 x c); [lia|exact Hget]. }
    destruct (String.get p s) as [d|] eqn:Hd.
    + destruct (isLineBreak d) eqn:Hbreak.
      * split; [lia|]. split.
        -- right. split; [lia|]. exists d. replace (S p - 1)%nat with p by lia. auto.
        -- intros x c Hx. lia.
      * split; [lia|]. split; [exact IH2|].
        intros x c Hx. apply Hstep; [exact Hx|]. congruence.
    + split; [lia|]. split; [exact IH2|].
      intros x c Hx. apply Hstep; [exact Hx|]. discriminate.
Qed.

(** The line start of an offset of the text is the nearest offset at or
    before it that is 0 or follows a line break. *)
Lemma getLineStartFromPos_spec (s : string) (p : Z) :
  0 ≤ p →
  let q := getLineStartFromPos s p in
  0 ≤ q ≤ p
  ∧ (q = 0 ∨ ∃ c, charAt s (q - 1) = Some c ∧ isLineBreak c = true)
  ∧ ∀ x c, q ≤ x < p → charAt s x = Some c → isLineBreak c = false.
Proof.
  intros Hp. unfold getLineStartFromPos.
  destruct (Z.ltb_spec p 0) as [?|_]; [lia|].
  destruct (lineStartFrom_spec s (Z.to_nat p)) as (H1 & H2 & H3).
  split; [lia|]. split.
  - destruct H2 as [H2|(Hq & c & Hc & Hbreak)]; [left; lia|]. right. exists c.
    split; [|exact Hbreak]. unfold charAt.
    destruct (Z.ltb_spec (Z.of_nat (lineStartFrom s (Z.to_nat p)) - 1) 0) as [?|_];
      [lia|].
    replace (Z.to_nat (Z.of_nat (lineStartFrom s (Z.to_nat p)) - 1))
      with (lineStartFrom s (Z.to_nat p) - 1)%nat by lia. exact Hc.
  - intros x c Hx. unfold charAt. destruct (Z.ltb_spec x 0) as [?|_]; [lia|].
    apply H3. lia.
Qed.

Section Structure.
Context (sourceFile : SourceFileObj) {Sc : Type} `{!CommentScanner sourceFile Sc}.

Lemma isJsDocComment_iff (c : CompilerCommentNode) :
  isJsDocComment c = true
  ↔ c_kind c = JSDocComment
    ∨ (String.prefix "/**" (c_getText c) = true ∧ c_getText c ≠ "/***/"%string).
Proof.
  unfold isJsDocComment. case_bool_decide as Hk.
  - tauto.
  - rewrite andb_true_iff, negb_true_iff, String.eqb_neq. tauto.
Qed.

Lemma getLeadingComments_S (ctor : CommentListKind) (container : NodeId)
    (stopAtJsDoc : bool) (fuel : nat) (h : Heap Sc) :
  getLeadingComments sourceFile ctor container stopAtJsDoc (S fuel) h
  = let g := scanForNewLines (scanner h) in
    let cs := (yields g).*1 in
    match cs with
    | [] => (Ok [], withScanner (allocated 1 h) (exhausted g))
    | firstComment :: _ =>
        if stopAtJsDoc && existsb isJsDocComment cs
        then (Ok [], withScanner (allocated 1 h) (exhausted g))
        else
          let cl := mkCommentList (S (nextAddress h)) ctor
                      (c_getFullStart firstComment) (c_pos firstComment)
                      (c_end (List.last cs firstComment)) container
                      (mkArray (Allocated (nextAddress h)) cs) in
          match getLeadingComments sourceFile ctor container stopAtJsDoc fuel
                  (withScanner (allocated 2 h) (exhausted g)) with
          | (Ok more, h') => (Ok (cl :: more), h')
          | (Throw e, h') => (Throw e, h')
          | (OutOfFuel, h') => (OutOfFuel, h')
          end
    end.
Proof.
  simpl. munfold. simpl.
  destruct ((yields (scanForNewLines (scanner h))).*1) as [|first rest]; [reflexivity|].
  destruct (stopAtJsDoc && existsb isJsDocComment (first :: rest)); reflexivity.
Qed.

Lemma getLeadingComments_no_jsDoc (ctor : CommentListKind) (container : NodeId)
    (fuel : nat) (h h' : Heap Sc) (groups : list CompilerCommentList) :
  getLeadingComments sourceFile ctor container true fuel h = (Ok groups, h') →
  ∀ cl c, cl ∈ groups → c ∈ items (comments cl) → isJsDocComment c = false.
Proof.
  revert h h' groups. induction fuel as [|fuel IH]; intros h h' groups Hrun.
  - discriminate.
  - simpl in Hrun. munfold. revert Hrun. munfold. simpl.
    destruct (fst <$> yields (scanForNewLines (scanner h))) as [|first rest] eqn:Hcs.
    + intros [= <- <-] cl c Hcl. by apply elem_of_nil in Hcl.
    + destruct (existsb isJsDocComment (first :: rest)) eqn:Hdoc; simpl.
      * intros [= <- <-] cl c Hcl. by apply elem_of_nil in Hcl.
      * match goal with
        | |- context [getLeadingComments _ _ _ _ fuel ?h1] =>
            destruct (getLeadingComments sourceFile ctor container true fuel h1)
              as [[more| |] h2] eqn:Hmore
        end; intros [= <- <-].
        intros cl c Hcl Hc. apply elem_of_cons in Hcl as [->|Hcl].
        -- simpl in Hc. apply list_elem_of_In in Hc.
           destruct (isJsDocComment c) eqn:Hj; [|reflexivity].
           assert (existsb isJsDocComment (first :: rest) = true) as Hex
             by (apply existsb_exists; eauto).
           congruence.
        -- eapply IH; eauto.
Qed.

(** C3: in a leading pass ([stopAtJsDoc = true]) a scanned group that holds
    a documentation comment (of kind [JSDocComment], or whose text starts
    with the doc opener and is not the empty doc form) ends the pass before
    the group is yielded, so no comment list of a leading pass holds a
    documentation comment; in a trailing pass ([stopAtJsDoc = false]) the
    group is yielded whatever its comments are. *)
Theorem getLeadingComments_jsDoc_rule (ctor : CommentListKind) (container : NodeId)
    (fuel : nat) (h : Heap Sc) :
  let g := scanForNewLines (scanner h) in
  let cs := fst <$> yields g in
  (∀ c, isJsDocComment c = true
        ↔ c_kind c = JSDocComment
          ∨ (String.prefix "/**" (c_getText c) = true ∧ c_getText c ≠ "/***/"%string))
  ∧ (cs ≠ [] → existsb isJsDocComment cs = true →
     getLeadingComments sourceFile ctor container true (S fuel) h
     = (Ok [], withScanner (allocated 1 h) (exhausted g)))
  ∧ (∀ fuel' groups h',
       getLeadingComments sourceFile ctor container true fuel' h = (Ok groups, h') →
       ∀ cl c, cl ∈ groups → c ∈ items (comments cl) → isJsDocComment c = false)
  ∧ (∀ first rest, cs = first :: rest →
     getLeadingComments sourceFile ctor container false (S fuel) h
     = (more <- getLeadingComments sourceFile ctor container false fuel ;;
        ret (mkCommentList (S (nextAddress h)) ctor (c_getFullStart first) (c_pos first)
               (c_end (List.last cs first)) container
               (mkArray (Allocated (nextAddress h)) cs) :: more))
         (withScanner (allocated 2 h) (exhausted g))).
Proof.
  intros g cs. split; [exact isJsDocComment_iff|]. split; [|split].
  - intros Hne Hdoc. simpl. munfold. simpl. fold g. fold cs.
    destruct cs as [|first rest]; [congruence|].
    rewrite Hdoc. reflexivity.
  - intros fuel' groups h'. apply getLeadingComments_no_jsDoc.
  - intros first rest Hcs. simpl. munfold. simpl. fold g. fold cs.
    rewrite Hcs. reflexivity.
Qed.

(** C4: a pass keeps a scanned group exactly when the group ends at or
    before the ceiling; with [p] the cursor after the last scan, the
    ceiling is [p] itself when [p] is the length of the text or the
    character at [p] is a closing brace, and the start of the line of [p]
    otherwise. *)
Theorem getCommentNodes_clamp (ctor : CommentListKind) (container : NodeId)
    (stopAtJsDoc : bool) (fuel : nat) (h h1 h2 : Heap Sc)
    (groups : list CompilerCommentList) :
  skipTrailingLine sourceFile fuel h = (Ok tt, h1) →
  getLeadingComments sourceFile ctor container stopAtJsDoc fuel h1 = (Ok groups, h2) →
  let p := getPos (scanner h2) in
  let ceiling := maxEndAt sourceFile p in
  (∃ kept, getCommentNodes sourceFile ctor container stopAtJsDoc fuel h = (Ok kept, h2)
           ∧ ∀ group, group ∈ kept ↔ group ∈ groups ∧ cl_end group ≤ ceiling)
  ∧ (text_length (text sourceFile) = p ∨ charAt (text sourceFile) p = Some "}"%char →
     ceiling = p)
  ∧ (text_length (text sourceFile) ≠ p → charAt (text sourceFile) p ≠ Some "}"%char →
     ceiling = getLineStartFromPos (text sourceFile) p).
Proof.
  intros Hskip Hlead p ceiling. split; [|split].
  - eexists. split.
    + unfold getCommentNodes.
      rewrite (bind_Ok _ _ _ _ _ Hskip), (bind_Ok _ _ _ _ _ Hlead). reflexivity.
    + intros group. fold p. fold ceiling. rewrite list_elem_of_filter. tauto.
  - unfold ceiling, maxEndAt, isCloseBrace, sourceFileText. intros [Hp|Hp].
    + rewrite (bool_decide_eq_true_2 _ Hp). reflexivity.
    + rewrite (bool_decide_eq_true_2 _ Hp), orb_true_r. reflexivity.
  - unfold ceiling, maxEndAt, isCloseBrace, sourceFileText. intros Hp Hc.
    rewrite (bool_decide_eq_false_2 _ Hp), (bool_decide_eq_false_2 _ Hc). reflexivity.
Qed.

End Structure.

(** ** Chains of spans *)

Lemma chain_le {A} (start finish : A → Z) (l : list A) (lo hi : Z) :
  chain start finish lo l hi → lo ≤ hi.
Proof.
  revert lo. induction l as [|a l IH]; simpl; intros lo H; [exact H|].
  destruct H as (H1 & H2 & H3). apply IH in H3. lia.
Qed.

Lemma chain_weaken {A} (start finish : A → Z) (l : list A) (lo lo' hi hi' : Z) :
  lo' ≤ lo → hi ≤ hi' → chain start finish lo l hi → chain start finish lo' l hi'.
Proof.
  revert lo lo'. induction l as [|a l IH]; simpl; intros lo lo' Hlo Hhi H; [lia|].
  destruct H as (H1 & H2 & H3). repeat split; try lia.
  eapply IH; [reflexivity|exact Hhi|exact H3].
Qed.

Lemma chain_app {A} (start finish : A → Z) (l1 l2 : list A) (lo mid hi : Z) :
  chain start finish lo l1 mid → chain start finish mid l2 hi →
  chain start finish lo (l1 ++ l2) hi.
Proof.
  revert lo. induction l1 as [|a l1 IH]; simpl; intros lo H1 H2.
  - eapply chain_weaken; [exact H1|reflexivity|exact H2].
  - destruct H1 as (Ha & Hb & Hc). repeat split; try assumption. eauto.
Qed.

Lemma chain_filter {A} (start finish : A → Z) (P : A → Prop) `{!∀ a, Decision (P a)}
    (l : list A) (lo hi : Z) :
  chain start finish lo l hi → chain start finish lo (filter P l) hi.
Proof.
  revert lo. induction l as [|a l IH]; simpl; intros lo Hch; [exact Hch|].
  destruct Hch as (Ha & Hb & Hc). rewrite filter_cons. destruct (decide (P a)).
  - simpl. repeat split; try assumption. eauto.
  - eapply chain_weaken; [|reflexivity|apply IH; exact Hc]. lia.
Qed.

Lemma chain_fmap {A B} (f : A → B) (start finish : B → Z) (l : list A) (lo hi : Z) :
  chain (start ∘ f) (finish ∘ f) lo l hi → chain start finish lo (f <$> l) hi.
Proof.
  revert lo. induction l as [|a l IH]; simpl; intros lo H; [exact H|].
  destruct H as (Ha & Hb & Hc). repeat split; try assumption. eauto.
Qed.

Lemma chain_elem {A} (start finish : A → Z) (l : list A) (lo hi : Z) (a : A) :
  chain start finish lo l hi → a ∈ l → lo ≤ start a ∧ start a < finish a ∧ finish a ≤ hi.
Proof.
  revert lo. induction l as [|b l IH]; simpl; intros lo H Ha.
  - by apply elem_of_nil in Ha.
  - destruct H as (H1 & H2 & H3). apply elem_of_cons in Ha as [->|Ha].
    + apply chain_le in H3. lia.
    + destruct (IH _ H3 Ha) as (? & ? & ?). lia.
Qed.

Lemma chain_last {A} (start finish : A → Z) (l : list A) (lo hi : Z) (d : A) :
  chain start finish lo l hi → l ≠ [] →
  lo < finish (List.last l d) ∧ finish (List.last l d) ≤ hi.
Proof.
  revert lo. induction l as [|a l IH]; intros lo H Hne; [congruence|].
  destruct H as (H1 & H2 & H3). destruct l as [|b l].
  - simpl in *. lia.
  - change (List.last (a :: b :: l) d) with (List.last (b :: l) d).
    destruct (IH _ H3) as [? ?]; [congruence|]. lia.
Qed.

Lemma chain_pairwise {A} (start finish : A → Z) (l : list A) (lo hi : Z)
    (i j : nat) (a b : A) :
  chain start finish lo l hi → (i < j)%nat → l !! i = Some a → l !! j = Some b →
  start a < start b ∧ finish a ≤ start b.
Proof.
  revert lo i j. induction l as [|c l IH]; intros lo i j H Hij Hi Hj.
  - discriminate.
  - destruct H as (H1 & H2 & H3). destruct j as [|j]; [lia|]. simpl in Hj.
    destruct i as [|i].
    + injection Hi as ->.
      destruct (chain_elem _ _ _ _ _ b H3) as (? & ? & ?).
      * eapply list_elem_of_lookup_2. exact Hj.
      * lia.
    + simpl in Hi. apply (IH (finish c) i j H3); [lia|exact Hi|exact Hj].
Qed.

(** ** The text scanner obeys the laws *)

Lemma get_Some_lt (s : string) (n : nat) (c : ascii) :
  String.get n s = Some c → (n < String.length s)%nat.
Proof.
  revert n. induction s as [|d s IH]; intros n H; [discriminate|].
  destruct n as [|n]; simpl in *; [lia|]. apply IH in H. lia.
Qed.

Lemma charAt_Some (s : string) (p : Z) (c : ascii) :
  charAt s p = Some c → 0 ≤ p < text_length s.
Proof.
  unfold charAt, text_length. destruct (Z.ltb_spec p 0) as [Hneg|Hpos]; [discriminate|].
  intros Hget. apply get_Some_lt in Hget. lia.
Qed.

Module TextScannerLaws.
Import TextScanner.

Lemma length_dropString (n : nat) (s : string) :
  String.length (dropString n s) = (String.length s - n)%nat.
Proof.
  revert s. induction n as [|n IH]; intros s; simpl; [lia|].
  destruct s; simpl; [reflexivity|apply IH].
Qed.

Lemma get_dropString (n : nat) (s : string) :
  String.get n s = match dropString n s with
                   | String c _ => Some c
                   | EmptyString => None
                   end.
Proof.
  revert s. induction n as [|n IH]; intros s; destruct s; simpl; try reflexivity.
  apply IH.
Qed.

Lemma lineCommentBody_le (s : string) : (lineCommentBody s ≤ String.length s)%nat.
Proof. induction s as [|c s IH]; simpl; [lia|]. destruct (isLineBreak c); lia. Qed.

Lemma blockCommentBody_le (s : string) : (blockCommentBody s ≤ String.length s)%nat.
Proof.
  induction s as [|c s IH]; simpl; [lia|].
  destruct s as [|d s]; [simpl; lia|].
  destruct (bool_decide (c = "*"%char) && bool_decide (d = "/"%char)).
  - simpl. lia.
  - simpl in *. lia.
Qed.

Lemma commentAt_bounds (s : string) (k : SyntaxKind) (n : nat) :
  commentAt s = Some (k, n) → (2 ≤ n ≤ String.length s)%nat.
Proof.
  unfold commentAt. destruct s as [|c [|d s]]; try discriminate.
  destruct (bool_decide (c = "/"%char) && bool_decide (d = "/"%char)).
  - intros [= <- <-]. pose proof (lineCommentBody_le s). simpl. lia.
  - destruct (bool_decide (c = "/"%char) && bool_decide (d = "*"%char)); [|discriminate].
    intros [= <- <-]. pose proof (blockCommentBody_le s). simpl. lia.
Qed.

Lemma triviaAt_bounds (txt : string) (p q : nat) (t : Trivia) :
  triviaAt txt p = Some (t, q) → (p < q ≤ String.length txt)%nat.
Proof.
  unfold triviaAt. pose proof (length_dropString p txt) as Hlen.
  destruct (dropString p txt) as [|c rest] eqn:Hdrop; [discriminate|].
  simpl in Hlen.
  destruct (isSpace c); [intros [= <- <-]; lia|].
  destruct (isNewLine c); [intros [= <- <-]; lia|].
  destruct (commentAt (String c rest)) as [[k n]|] eqn:Hc; [|discriminate].
  apply commentAt_bounds in Hc. simpl in Hc. intros [= <- <-]. lia.
Qed.

Lemma triviaAt_comma (txt : string) (p : nat) :
  String.get p txt = Some ","%char → triviaAt txt p = None.
Proof.
  rewrite get_dropString. unfold triviaAt.
  destruct (dropString p txt) as [|c rest]; [discriminate|].
  intros [= ->]. destruct rest; reflexivity.
Qed.

Lemma reach_le (txt : string) (p q : nat) :
  reach txt p q → (p ≤ q)%nat ∧ (q = p ∨ (q ≤ String.length txt)%nat).
Proof.
  induction 1 as [p|p q r t Hstep Hreach IH]; [lia|].
  apply triviaAt_bounds in Hstep. lia.
Qed.

Lemma reach_trans (txt : string) (p q r : nat) :
  reach txt p q → reach txt q r → reach txt p r.
Proof.
  induction 1 as [p|p q r' t Hstep Hreach IH]; intros H; [exact H|].
  eapply reach_step; eauto.
Qed.

Lemma skipTrivia_reach (txt : string) (fuel p : nat) :
  reach txt p (skipTrivia txt fuel p).
Proof.
  revert p. induction fuel as [|fuel IH]; intros p; simpl; [constructor|].
  destruct (triviaAt txt p) as [[t q]|] eqn:Hstep; [|constructor].
  eapply reach_step; eauto.
Qed.

Lemma skipTrivia_fuel (txt : string) (f1 f2 p : nat) :
  (String.length txt ≤ f1 + p)%nat → (String.length txt ≤ f2 + p)%nat →
  skipTrivia txt f1 p = skipTrivia txt f2 p.
Proof.
  revert f2 p. induction f1 as [|f1 IH]; intros f2 p H1 H2.
  - destruct f2 as [|f2]; [reflexivity|]. simpl.
    destruct (triviaAt txt p) as [[t q]|] eqn:Hstep; [|reflexivity].
    apply triviaAt_bounds in Hstep. lia.
  - simpl. destruct (triviaAt txt p) as [[t q]|] eqn:Hstep.
    + pose proof (triviaAt_bounds _ _ _ _ Hstep).
      destruct f2 as [|f2]; [lia|]. simpl. rewrite Hstep. apply IH; lia.
    + destruct f2; simpl; [reflexivity|]. rewrite Hstep. reflexivity.
Qed.

Lemma skipTrivia_of_reach (txt : string) (p q : nat) :
  reach txt p q →
  skipTrivia txt (String.length txt) q = skipTrivia txt (String.length txt) p.
Proof.
  induction 1 as [p|p q r t Hstep Hreach IH]; [reflexivity|].
  rewrite IH. pose proof (triviaAt_bounds _ _ _ _ Hstep) as Hb.
  rewrite (skipTrivia_fuel txt (String.length txt) (S (String.length txt)) p) by lia.
  simpl. rewrite Hstep. reflexivity.
Qed.

Lemma scanTrivia_spec (txt : string) (par : option NodeId) (r : LineRule)
    (fuel : nat) (fs : Z) (p : nat) :
  ∃ q, position (scanTrivia txt par r fuel fs p).2 = Z.of_nat q
       ∧ reach txt p q
       ∧ inOrder (Z.of_nat p) ((scanTrivia txt par r fuel fs p).1.*1) (Z.of_nat q).
Proof.
  revert r fs p. induction fuel as [|fuel IH]; intros r fs p; simpl.
  - exists p. simpl. repeat split; [constructor|unfold inOrder; simpl; lia].
  - destruct (triviaAt txt p) as [[t q]|] eqn:Hstep.
    + pose proof (triviaAt_bounds _ _ _ _ Hstep) as Hb. destruct t as [| |k].
      * destruct (IH r fs q) as (q' & Hpos & Hreach & Hord). exists q'.
        repeat split; [exact Hpos|eapply reach_step; eauto|].
        eapply chain_weaken; [|reflexivity|exact Hord]. lia.
      * destruct (atNewLine r) as [r'|].
        -- destruct (IH r' fs q) as (q' & Hpos & Hreach & Hord). exists q'.
           repeat split; [exact Hpos|eapply reach_step; eauto|].
           eapply chain_weaken; [|reflexivity|exact Hord]. lia.
        -- exists p. simpl. repeat split; [constructor|unfold inOrder; simpl; lia].
      * destruct (IH (atComment r) (Z.of_nat q) q) as (q' & Hpos & Hreach & Hord).
        destruct (scanTrivia txt par (atComment r) fuel (Z.of_nat q) q) as [ys fin].
        exists q'. simpl in *.
        split; [exact Hpos|]. split; [eapply reach_step; eauto|].
        unfold inOrder in *. simpl. repeat split; [lia|lia|exact Hord].
    + exists p. simpl. repeat split; [constructor|unfold inOrder; simpl; lia].
Qed.

Lemma scan_spec (txt : string) (r : LineRule) (s : State) :
  inOrder (position s) (yields (scan txt r s)).*1 (position (exhausted (scan txt r s)))
  ∧ position (exhausted (scan txt r s)) ≤ tokenStart txt (position s)
  ∧ tokenStart txt (position (exhausted (scan txt r s))) = tokenStart txt (position s)
  ∧ (yields (scan txt r s) ≠ [] →
     0 ≤ position s ∧ position (exhausted (scan txt r s)) ≤ text_length txt).
Proof.
  unfold scan, tokenStart. destruct (Z.ltb_spec (position s) 0) as [Hneg|Hpos].
  - simpl. rewrite (proj2 (Z.ltb_lt _ _) Hneg).
    repeat split; try reflexivity; try (unfold inOrder; simpl; lia); congruence.
  - destruct (scanTrivia_spec txt (scanParent s) r (S (String.length txt))
                (fullStart s) (Z.to_nat (position s))) as (q & Hq & Hreach & Hord).
    destruct (scanTrivia txt (scanParent s) r (S (String.length txt))
                (fullStart s) (Z.to_nat (position s))) as [ys fin].
    simpl in *. rewrite Hq, Z2Nat.id in * by exact Hpos.
    destruct (Z.ltb_spec (Z.of_nat q) 0) as [?|_]; [lia|]. rewrite Nat2Z.id.
    pose proof (reach_le _ _ _ Hreach) as [Hle Hin].
    pose proof (skipTrivia_of_reach _ _ _ Hreach) as Heq.
    pose proof (reach_le _ _ _ (skipTrivia_reach txt (String.length txt) q)) as [Hle' _].
    repeat split.
    + exact Hord.
    + rewrite <- Heq. lia.
    + rewrite Heq. reflexivity.
    + exact Hpos.
    + destruct ys as [|[c s'] ys]; [congruence|].
      destruct Hord as (H1 & H2 & H3). apply chain_le in H3.
      unfold text_length. lia.
Qed.

Lemma textScanner_laws (sourceFile : SourceFileObj) : ScannerLaws sourceFile State.
Proof.
  refine {| nextToken := tokenStart (text sourceFile) |}.
  - reflexivity.
  - reflexivity.
  - intros s. apply (scan_spec (text sourceFile) (StopAtBlankLine false false) s).
  - intros s. split; apply (scan_spec (text sourceFile) (StopAtBlankLine false false) s).
  - intros s. apply (scan_spec (text sourceFile) (StopAtBlankLine false false) s).
  - intros s. apply (scan_spec (text sourceFile) StopAtLine s).
  - intros s. split; apply (scan_spec (text sourceFile) StopAtLine s).
  - intros p Hc. pose proof (charAt_Some _ _ _ Hc) as Hp.
    unfold charAt in Hc. unfold tokenStart.
    destruct (Z.ltb_spec p 0); [lia|].
    apply triviaAt_comma in Hc.
    destruct (String.length (text sourceFile)); simpl; [|rewrite Hc]; lia.
Defined.

#[global] Existing Instance textScanner_laws.

End TextScannerLaws.

(** ** The enumeration leaves both tables alone *)

Lemma frames_ret {Sc A} (a : A) : frames (@ret Sc A a).
Proof. intros h. split; reflexivity. Qed.

Lemma frames_bind {Sc A B} (m : M Sc A) (f : A → M Sc B) :
  frames m → (∀ a, frames (f a)) → frames (bind m f).
Proof.
  intros Hm Hf h. unfold bind. specialize (Hm h).
  destruct (m h) as [[a|e|] h1]; simpl in *; try exact Hm.
  destruct (Hf a h1) as [H1 H2]. destruct Hm as [H3 H4]. split; congruence.
Qed.

Lemma frames_lift {Sc A} (o : Outcome A) : frames (@lift Sc A o).
Proof. intros h. split; reflexivity. Qed.

Lemma frames_outOfFuel {Sc A} : frames (@outOfFuel Sc A).
Proof. intros h. split; reflexivity. Qed.

Lemma frames_allocate {Sc} : frames (@allocate Sc).
Proof. intros h. split; reflexivity. Qed.

Lemma frames_onScanner {Sc} (f : Sc → Sc) : frames (onScanner f).
Proof. intros h. split; reflexivity. Qed.

Lemma frames_readScanner {Sc A} (f : Sc → A) : frames (readScanner f).
Proof. intros h. split; reflexivity. Qed.

Lemma frames_drain {Sc} (gen : Sc → Generator Sc) : frames (drain gen).
Proof. intros h. split; reflexivity. Qed.

Lemma frames_pushUntil {Sc} (gen : Sc → Generator Sc) (stop : CompilerCommentNode → bool) :
  frames (pushUntil gen stop).
Proof.
  intros h. unfold pushUntil. destruct (untilBreak _ _ _). split; reflexivity.
Qed.

Lemma frames_getScannerForSourceFile {Sc} : frames (@getScannerForSourceFile Sc).
Proof. intros h. split; reflexivity. Qed.

Create HintDb frames.
#[global] Hint Resolve frames_ret frames_lift frames_outOfFuel frames_allocate
  frames_onScanner frames_readScanner frames_drain frames_pushUntil
  frames_getScannerForSourceFile : frames.

(** Splits a computation into its steps and closes the primitive ones. *)
Ltac frame_steps :=
  repeat first
    [ solve [auto with frames]
    | apply frames_bind; [|intros ?]
    | match goal with |- frames (if ?b then _ else _) => destruct b end
    | match goal with |- frames (match ?l with [] => _ | _ :: _ => _ end) => destruct l end ].

Section Frames.
Context (sourceFile : SourceFileObj) {Sc : Type} `{!CommentScanner sourceFile Sc}.

Lemma frames_skipTrailingLine_loop (fuel : nat) :
  frames (skipTrailingLine_loop sourceFile fuel).
Proof. induction fuel as [|fuel IH]; simpl; frame_steps. Qed.

Lemma frames_skipTrailingLine (fuel : nat) : frames (skipTrailingLine sourceFile fuel).
Proof.
  pose proof frames_skipTrailingLine_loop. unfold skipTrailingLine. frame_steps.
Qed.

Lemma frames_getLeadingComments (ctor : CommentListKind) (container : NodeId)
    (stopAtJsDoc : bool) (fuel : nat) :
  frames (getLeadingComments sourceFile ctor container stopAtJsDoc fuel).
Proof.
  induction fuel as [|fuel IH]; simpl; [auto with frames|].
  unfold createCommentList. frame_steps.
Qed.

Lemma frames_getCommentNodes (ctor : CommentListKind) (container : NodeId)
    (stopAtJsDoc : bool) (fuel : nat) :
  frames (getCommentNodes sourceFile ctor container stopAtJsDoc fuel).
Proof.
  pose proof frames_skipTrailingLine. pose proof frames_getLeadingComments.
  unfold getCommentNodes. frame_steps.
Qed.

Lemma frames_getNodes_children (ctor : CommentListKind) (container : NodeId)
    (fuel : nat) (childNodes : list NodeId) :
  frames (getNodes_children sourceFile ctor container fuel childNodes).
Proof.
  pose proof frames_getCommentNodes.
  induction childNodes as [|c l IH]; simpl; frame_steps.
Qed.

Lemma frames_getNodes (fuel : nat) (container : NodeId) :
  frames (getNodes sourceFile fuel container).
Proof.
  pose proof frames_getCommentNodes. pose proof frames_getNodes_children.
  unfold getNodes, getScannerForSourceFile. frame_steps.
Qed.

End Frames.

(** ** Passes over a lawful scanner *)

Lemma chain_upto_last {A} (start finish : A → Z) (l : list A) (lo hi : Z) (d : A) :
  chain start finish lo l hi → l ≠ [] →
  chain start finish lo l (finish (List.last l d)).
Proof.
  revert lo. induction l as [|a l IH]; intros lo Hch Hne; [congruence|].
  destruct Hch as (H1 & H2 & H3). destruct l as [|b l].
  - simpl. lia.
  - change (List.last (a :: b :: l) d) with (List.last (b :: l) d).
    split; [exact H1|]. split; [exact H2|]. apply IH; [exact H3|discriminate].
Qed.

Lemma chain_tighten {A} (start finish : A → Z) (a : A) (l : list A) (lo hi : Z) :
  chain start finish lo (a :: l) hi →
  chain start finish (start a) (a :: l) (finish (List.last (a :: l) a)).
Proof.
  intros Hch. apply (chain_upto_last _ _ _ _ _ a) in Hch; [|discriminate].
  destruct Hch as (H1 & H2 & H3). split; [lia|]. split; [exact H2|exact H3].
Qed.

Section Passes.
Context (sourceFile : SourceFileObj) {Sc : Type} `{!CommentScanner sourceFile Sc}
  `{!ScannerLaws sourceFile Sc}.

Lemma skipTrailingLine_loop_run (fuel : nat) (h : Heap Sc) :
  (room sourceFile (getPos (scanner h)) < fuel)%nat →
  ∃ s1, skipTrailingLine_loop sourceFile fuel h = (Ok tt, withScanner h s1)
        ∧ getPos (scanner h) ≤ getPos s1
        ∧ (∀ c, c ∈ skippedComments sourceFile fuel (scanner h) →
                c_pos c < c_end c ∧ c_end c ≤ getPos s1)
        ∧ (charAt (text sourceFile) (nextToken (getPos (scanner h))) ≠ Some ","%char →
           getPos s1 ≤ nextToken (getPos (scanner h))
           ∧ nextToken (getPos s1) = nextToken (getPos (scanner h))).
Proof.
  revert h. induction fuel as [|fuel IH]; intros h Hroom; [lia|].
  simpl. munfold. simpl. unfold sourceFileText.
  pose proof (scanUntilNewLineOrToken_inOrder (scanner h)) as Hord.
  pose proof (scanUntilNewLineOrToken_nextToken (scanner h)) as [Hle Heq].
  set (g := scanUntilNewLineOrToken (scanner h)) in *.
  pose proof (chain_le _ _ _ _ _ Hord) as Hmono.
  unfold isComma. case_bool_decide as Hcomma; simpl.
  - pose proof (charAt_Some _ _ _ Hcomma) as Hin.
    destruct (IH (withScanner h (setPos (getPos (exhausted g) + 1) (exhausted g))))
      as (s1 & Hrun & Hge & Hskipped & Htoken).
    { simpl. rewrite getPos_setPos. unfold room in *. lia. }
    simpl in *. rewrite getPos_setPos in *.
    exists s1. split; [exact Hrun|]. split; [lia|]. split.
    + intros c Hc. apply elem_of_app in Hc as [Hc|Hc].
      * destruct (chain_elem _ _ _ _ _ c Hord Hc) as (? & ? & ?). lia.
      * destruct (Hskipped c Hc). lia.
    + intros Hnot. exfalso. apply Hnot.
      rewrite <- Heq, (comma_is_token _ Hcomma). exact Hcomma.
  - exists (exhausted g). split; [reflexivity|]. split; [exact Hmono|]. split.
    + intros c Hc. rewrite app_nil_r in Hc.
      destruct (chain_elem _ _ _ _ _ c Hord Hc) as (? & ? & ?). lia.
    + intros _. split; [exact Hle|exact Heq].
Qed.

Lemma getLeadingComments_run (ctor : CommentListKind) (container : NodeId)
    (stopAtJsDoc : bool) (fuel : nat) (h : Heap Sc) :
  (room sourceFile (getPos (scanner h)) < fuel)%nat →
  ∃ groups h', getLeadingComments sourceFile ctor container stopAtJsDoc fuel h
               = (Ok groups, h')
    ∧ chain cl_pos cl_end (getPos (scanner h)) groups (getPos (scanner h'))
    ∧ Forall groupOk groups
    ∧ getPos (scanner h') ≤ nextToken (getPos (scanner h))
    ∧ nextToken (getPos (scanner h')) = nextToken (getPos (scanner h)).
Proof.
  revert h. induction fuel as [|fuel IH]; intros h Hroom; [lia|].
  rewrite getLeadingComments_S. simpl.
  pose proof (scanForNewLines_inOrder (scanner h)) as Hord.
  pose proof (scanForNewLines_nextToken (scanner h)) as [Hle Heq].
  pose proof (scanForNewLines_inText (scanner h)) as Hin.
  set (g := scanForNewLines (scanner h)) in *.
  pose proof (chain_le _ _ _ _ _ Hord) as Hmono.
  destruct ((yields g).*1) as [|first rest] eqn:Hcs.
  - eexists [], _. split; [reflexivity|]. simpl. repeat split; auto.
  - destruct (stopAtJsDoc && existsb isJsDocComment (first :: rest)).
    + eexists [], _. split; [reflexivity|]. simpl. repeat split; auto.
    + destruct Hin as [Hp Hlen]; [intros Hnil; rewrite Hnil in Hcs; discriminate|].
      pose proof (chain_last _ _ _ _ _ first Hord) as [Hlt Hlast]; [discriminate|].
      destruct (IH (withScanner (allocated 2 h) (exhausted g)))
        as (groups & h' & Hrun & Hchain & Hok & Hle' & Heq').
      { simpl. unfold room in *. lia. }
      rewrite Hrun. simpl in Hchain, Hle', Heq'.
      eexists (_ :: groups), h'. split; [reflexivity|].
      pose proof (chain_tighten _ _ _ _ _ _ Hord) as Htight.
      assert (c_pos first < c_end (List.last (first :: rest) first)) as Hspan.
      { destruct Htight as (_ & ? & Ht). apply chain_le in Ht. lia. }
      destruct Hord as (H1 & H2 & H3).
      split; [|split; [|split]].
      * split; [exact H1|]. split; [exact Hspan|].
        eapply chain_weaken; [exact Hlast|reflexivity|exact Hchain].
      * constructor; [exact Htight|exact Hok].
      * lia.
      * congruence.
Qed.

Lemma getCommentNodes_run (ctor : CommentListKind) (container : NodeId)
    (stopAtJsDoc : bool) (fuel : nat) (h : Heap Sc) :
  (room sourceFile (getPos (scanner h)) < fuel)%nat →
  ∃ groups h', getCommentNodes sourceFile ctor container stopAtJsDoc fuel h
               = (Ok groups, h')
    ∧ chain cl_pos cl_end (getPos (scanner h)) groups (getPos (scanner h'))
    ∧ Forall groupOk groups
    ∧ (charAt (text sourceFile) (nextToken (getPos (scanner h))) ≠ Some ","%char →
       getPos (scanner h') ≤ nextToken (getPos (scanner h)))
    ∧ (getPos (scanner h) ≠ 0 →
       ∀ c cl c', c ∈ skippedComments sourceFile fuel (scanner h) →
                  cl ∈ groups → c' ∈ items (comments cl) →
                  c_pos c < c_end c ∧ c_end c ≤ c_pos c').
Proof.
  intros Hroom.
  assert (∃ s1, skipTrailingLine sourceFile fuel h = (Ok tt, withScanner h s1)
                ∧ getPos (scanner h) ≤ getPos s1
                ∧ (getPos (scanner h) ≠ 0 →
                   ∀ c, c ∈ skippedComments sourceFile fuel (scanner h) →
                        c_pos c < c_end c ∧ c_end c ≤ getPos s1)
                ∧ (charAt (text sourceFile) (nextToken (getPos (scanner h))) ≠ Some ","%char →
                   getPos s1 ≤ nextToken (getPos (scanner h))
                   ∧ nextToken (getPos s1) = nextToken (getPos (scanner h))))
    as (s1 & Hskip & Hge & Hskipped & Htoken).
  { unfold skipTrailingLine. munfold. case_bool_decide as Hzero.
    - exists (scanner h). split; [destruct h; reflexivity|]. split; [lia|].
      split; [congruence|]. intros _. split; [|reflexivity].
      pose proof (scanForNewLines_nextToken (scanner h)) as [Hle _].
      pose proof (chain_le _ _ _ _ _ (scanForNewLines_inOrder (scanner h))). lia.
    - destruct (skipTrailingLine_loop_run fuel h Hroom) as (s1 & H1 & H2 & H3 & H4).
      exists s1. split; [exact H1|]. split; [exact H2|].
      split; [intros _; exact H3|exact H4]. }
  destruct (getLeadingComments_run ctor container stopAtJsDoc fuel (withScanner h s1))
    as (groups & h' & Hrun & Hchain & Hok & Hle & Heq).
  { simpl. unfold room in *. lia. }
  simpl in *.
  eexists _, h'. split.
  { unfold getCommentNodes.
    rewrite (bind_Ok _ _ _ _ _ Hskip), (bind_Ok _ _ _ _ _ Hrun). reflexivity. }
  split; [|split; [|split]].
  - apply chain_filter. eapply chain_weaken; [exact Hge|reflexivity|exact Hchain].
  - apply Forall_forall. intros cl Hcl. apply list_elem_of_filter in Hcl as [_ Hcl].
    rewrite Forall_forall in Hok. auto.
  - intros Hnot. destruct (Htoken Hnot) as [H1 H2]. lia.
  - intros Hnz c cl c' Hc Hcl Hc'. apply list_elem_of_filter in Hcl as [_ Hcl].
    destruct (Hskipped Hnz c Hc) as [Hc0 Hc2].
    destruct (chain_elem _ _ _ _ _ cl Hchain Hcl) as (Hcl1 & _ & _).
    rewrite Forall_forall in Hok.
    destruct (chain_elem _ _ _ _ _ c' (Hok cl Hcl) Hc') as (Hc1 & _ & _). lia.
Qed.

Lemma room_le (p : Z) : (room sourceFile p ≤ String.length (text sourceFile))%nat.
Proof. unfold room, text_length. lia. Qed.

Lemma getNodes_children_run (ctor : CommentListKind) (container : NodeId)
    (fuel : nat) (childNodes : list NodeId) (h : Heap Sc) :
  Forall (wellFormedChild sourceFile) childNodes →
  consecutive sourceFile childNodes →
  (String.length (text sourceFile) < fuel)%nat →
  ∃ refs h', getNodes_children sourceFile ctor container fuel childNodes h = (Ok refs, h')
    ∧ match childNodes with
      | [] => refs = []
      | firstChild :: _ =>
          ∀ d, chain (ref_getStart sourceFile) (ref_end sourceFile)
                 (pos (node sourceFile firstChild)) refs
                 (end_ (node sourceFile (List.last childNodes d)))
      end.
Proof.
  intros Hwf Hcons Hfuel. revert h.
  induction childNodes as [|c rest IH]; intros h.
  - eexists [], h. split; reflexivity.
  - apply Forall_cons in Hwf as [(Hspan & Htoken & Hcomma) Hwf].
    destruct Hcons as [Hnext Hcons]. specialize (IH Hwf Hcons).
    simpl. mstep.
    destruct (getCommentNodes_run ctor container true fuel
                (withScanner h (setFullStartAndPos (pos (node sourceFile c)) (scanner h))))
      as (groups & h1 & Hrun & Hchain & _ & Hstop & _).
    { pose proof (room_le (getPos (scanner (withScanner h
        (setFullStartAndPos (pos (node sourceFile c)) (scanner h)))))). lia. }
    simpl in Hchain, Hstop. rewrite getPos_setFullStartAndPos in Hchain, Hstop.
    rewrite Htoken in Hstop. specialize (Hstop Hcomma).
    rewrite (bind_Ok _ _ _ _ _ Hrun).
    destruct (IH h1) as (refs & h' & Hrest & Hrefs).
    rewrite (bind_Ok _ _ _ _ _ Hrest).
    eexists _, h'. split; [reflexivity|]. intros d.
    eapply chain_app.
    + apply chain_fmap. exact Hchain.
    + simpl. split; [exact Hstop|]. split; [exact Hspan|].
      destruct rest as [|b rest].
      * subst refs. simpl. lia.
      * change (List.last (c :: b :: rest) d) with (List.last (b :: rest) d).
        eapply chain_weaken; [exact Hnext|reflexivity|apply Hrefs].
Qed.

Lemma getNodes_run (fuel : nat) (container : NodeId) (h : Heap Sc) :
  wellFormedContainer sourceFile container →
  (String.length (text sourceFile) < fuel)%nat →
  match getNodes sourceFile fuel container h with
  | (Ok refs, _) =>
      ∃ lo hi, scanStart sourceFile container = Ok lo
               ∧ chain (ref_getStart sourceFile) (ref_end sourceFile) lo refs hi
  | (Throw _, _) => True
  | (OutOfFuel, _) => False
  end.
Proof.
  intros Hwf Hfuel. unfold getNodes, scanStart. mstep.
  specialize (Hwf (match getContainerChildren (node sourceFile container) with
                   | Ok l => l | _ => [] end)).
  destruct (getContainerChildren (node sourceFile container)) as [childNodes|e|] eqn:Hc.
  - mstep.
    destruct (getCtor (node sourceFile container)) as [ctor|e|] eqn:Hctor.
    + mstep.
      destruct (Hwf eq_refl) as [Hchildren Hcons].
      destruct childNodes as [|firstChild others].
      * destruct (getContainerBodyPos sourceFile (node sourceFile container))
          as [b|e|] eqn:Hb; [|exact I|].
        -- mstep.
           match goal with
           | |- context [bind (getCommentNodes _ _ _ _ _) _ ?h0] =>
               destruct (getCommentNodes_run ctor container false fuel h0)
                 as (groups & h1 & Hrun & Hchain & _)
           end.
           { match goal with |- (room _ ?p < _)%nat => pose proof (room_le p) end. lia. }
           rewrite (bind_Ok _ _ _ _ _ Hrun). simpl in Hchain |- *.
           rewrite getPos_setFullStartAndPos in Hchain.
           eexists _, _. split; [reflexivity|]. apply chain_fmap. exact Hchain.
        -- exfalso. clear -Hb. unfold getContainerBodyPos, orElse, getLastSyntaxListPos in Hb.
           repeat match type of Hb with
                  | (if ?b then _ else _) = _ => destruct b
                  | match ?o with _ => _ end = _ => destruct o
                  end; discriminate.
      * destruct (getNodes_children_run ctor container fuel (firstChild :: others)
                    (withScanner h (setParent container (scanner h))) Hchildren Hcons Hfuel)
          as (refs & h1 & Hrun & Hrefs).
        rewrite (bind_Ok _ _ _ _ _ Hrun). mstep.
        match goal with
        | |- context [bind (getCommentNodes _ _ _ _ _) _ ?h0] =>
            destruct (getCommentNodes_run ctor container false fuel h0)
              as (groups & h2 & Hlast & Hchain & _)
        end.
        { match goal with |- (room _ ?p < _)%nat => pose proof (room_le p) end. lia. }
        rewrite (bind_Ok _ _ _ _ _ Hlast). simpl in Hchain |- *.
        rewrite getPos_setFullStartAndPos in Hchain.
        eexists _, _. split; [reflexivity|].
        eapply chain_app; [apply Hrefs|]. apply chain_fmap. exact Hchain.
    + mstep. exact I.
    + exfalso. clear -Hctor. unfold getCtor in Hctor.
      repeat match type of Hctor with
             | (if ?b then _ else _) = _ => destruct b
             end; discriminate.
  - exact I.
  - exfalso. clear -Hc. unfold getContainerChildren in Hc.
    repeat match type of Hc with
           | (if ?b then _ else _) = _ => destruct b
           end; discriminate.
Qed.

End Passes.

(** ** The memoization layer *)

Section Caching.
Context (sourceFile : SourceFileObj) {Sc : Type} `{!CommentScanner sourceFile Sc}.

Lemma getOrParseChildren_hit (fuel : nat) (container : NodeId) (h : Heap Sc)
    (children : JsArray NodeRef) :
  childrenSaver h !! redirect sourceFile container = Some children →
  getOrParseChildren sourceFile fuel container h = (Ok children, h).
Proof. intros Hhit. unfold getOrParseChildren. rewrite Hhit. reflexivity. Qed.

Lemma getOrParseChildren_miss (fuel : nat) (container : NodeId) (h : Heap Sc) :
  childrenSaver h !! redirect sourceFile container = None →
  getOrParseChildren sourceFile fuel container h
  = match getNodes sourceFile fuel (redirect sourceFile container) h with
    | (Ok nodes, h1) =>
        let children := mkArray (Allocated (nextAddress h1)) nodes in
        (Ok children,
         mkHeap (scanner h1) (S (nextAddress h1))
           (<[redirect sourceFile container := children]> (childrenSaver h)) (tokenSaver h))
    | (Throw e, h1) => (Throw e, h1)
    | (OutOfFuel, h1) => (OutOfFuel, h1)
    end.
Proof.
  intros Hmiss. unfold getOrParseChildren. rewrite Hmiss. unfold bind at 1.
  pose proof (frames_getNodes sourceFile fuel (redirect sourceFile container) h) as [H1 H2].
  destruct (getNodes sourceFile fuel (redirect sourceFile container) h) as [[nodes|e|] h1];
    try reflexivity.
  simpl in H1, H2. munfold. simpl. rewrite H1, H2. reflexivity.
Qed.

(** What holds of every computed child sequence holds of every sequence
    that [getOrParseChildren] returns, once it holds of the stored ones. *)
Lemma getOrParseChildren_invariant (P : NodeId → list NodeRef → Prop)
    (fuel : nat) (container : NodeId) (h : Heap Sc) :
  (∀ c arr, childrenSaver h !! c = Some arr → P c (items arr)) →
  (∀ refs h1, getNodes sourceFile fuel (redirect sourceFile container) h = (Ok refs, h1) →
              P (redirect sourceFile container) refs) →
  ∀ children h', getOrParseChildren sourceFile fuel container h = (Ok children, h') →
    P (redirect sourceFile container) (items children)
    ∧ (∀ c arr, childrenSaver h' !! c = Some arr → P c (items arr)).
Proof.
  intros Hinv Hnew children h'.
  destruct (childrenSaver h !! redirect sourceFile container) as [arr|] eqn:Hlook.
  - rewrite (getOrParseChildren_hit _ _ _ _ Hlook). intros [= <- <-]. eauto.
  - rewrite (getOrParseChildren_miss _ _ _ Hlook).
    destruct (getNodes sourceFile fuel (redirect sourceFile container) h)
      as [[nodes|e|] h1] eqn:Hnodes; try discriminate.
    intros [= <- <-]. split; [simpl; eauto|].
    intros c arr. simpl. rewrite lookup_insert. case_decide as Hc.
    + intros [= <-]. subst c. simpl. eauto.
    + apply Hinv.
Qed.

Lemma getOrParseTokens_stored (fuel : nat) (n : NodeRef) (h h' : Heap Sc)
    (tokens : JsArray Token) :
  getOrParseTokens sourceFile fuel n h = (Ok tokens, h') →
  tokenSaver h' !! keyOf n = Some tokens.
Proof.
  unfold getOrParseTokens.
  destruct (tokenSaver h !! keyOf n) as [stored|] eqn:Hlook.
  - intros [= <- <-]. exact Hlook.
  - unfold bind at 1. destruct (getTokens sourceFile fuel n h) as [[ts|e|] h1];
      try discriminate.
    munfold. intros [= <- <-]. simpl. apply lookup_insert_eq.
Qed.

Lemma frames_grows {A} (m : M Sc A) : frames m → grows m.
Proof. intros Hm h. destruct (Hm h) as [-> ->]. split; reflexivity. Qed.

Lemma grows_bind {A B} (m : M Sc A) (f : A → M Sc B) :
  grows m → (∀ a, grows (f a)) → grows (bind m f).
Proof.
  intros Hm Hf h. unfold bind. specialize (Hm h).
  destruct (m h) as [[a|e|] h1]; simpl in *; try exact Hm.
  destruct (Hf a h1) as [H1 H2]. destruct Hm as [H3 H4].
  split; [etransitivity; eassumption|congruence].
Qed.

Lemma grows_getOrParseChildren (fuel : nat) (container : NodeId) :
  grows (getOrParseChildren sourceFile fuel container).
Proof.
  intros h.
  destruct (childrenSaver h !! redirect sourceFile container) as [arr|] eqn:Hlook.
  - rewrite (getOrParseChildren_hit _ _ _ _ Hlook). split; reflexivity.
  - rewrite (getOrParseChildren_miss _ _ _ Hlook).
    pose proof (frames_getNodes sourceFile fuel (redirect sourceFile container) h) as [H1 H2].
    destruct (getNodes sourceFile fuel (redirect sourceFile container) h) as [[nodes|e|] h1];
      simpl in *; try (rewrite H1, H2; split; reflexivity).
    split; [|reflexivity]. apply insert_subseteq. exact Hlook.
Qed.

Lemma frames_parseChildSyntaxList_children (children : list NodeRef) :
  frames (parseChildSyntaxList_children sourceFile children).
Proof. induction children as [|c l IH]; simpl; frame_steps. Qed.

Lemma frames_parseNode_loop (rest : list NodeId) (lastEnd : Z) :
  frames (parseNode_loop sourceFile lastEnd rest).
Proof.
  revert lastEnd. induction rest as [|c l IH]; intros lastEnd; simpl; frame_steps.
Qed.

Lemma grows_getTokens (fuel : nat) (n : NodeRef) : grows (getTokens sourceFile fuel n).
Proof.
  destruct n as [i|cl]; simpl; [|apply frames_grows; auto with frames].
  destruct (isSyntaxList (node sourceFile i) && isChildSyntaxList sourceFile i).
  - unfold parseChildSyntaxList.
    apply grows_bind; [apply frames_grows; auto with frames|intros a].
    apply grows_bind; [apply grows_getOrParseChildren|intros children].
    apply frames_grows. pose proof frames_parseChildSyntaxList_children. frame_steps.
  - apply frames_grows. unfold parseNode. pose proof frames_parseNode_loop.
    destruct (getChildren (node sourceFile i)) as [|first [|second rest]]; frame_steps.
Qed.

Lemma getOrParseTokens_keeps (fuel : nat) (n : NodeRef) (h : Heap Sc) :
  childrenSaver h ⊆ childrenSaver (getOrParseTokens sourceFile fuel n h).2
  ∧ tokenSaver h ⊆ tokenSaver (getOrParseTokens sourceFile fuel n h).2.
Proof.
  unfold getOrParseTokens.
  destruct (tokenSaver h !! keyOf n) as [stored|] eqn:Hlook; [split; reflexivity|].
  pose proof (grows_getTokens fuel n h) as [H1 H2].
  destruct (getTokens sourceFile fuel n h) as [[ts|e|] h1] eqn:Hget; simpl in H1, H2.
  - rewrite (bind_Ok _ _ _ _ _ Hget). munfold. simpl.
    split; [exact H1|]. rewrite H2. apply insert_subseteq. exact Hlook.
  - unfold bind. rewrite Hget. simpl. rewrite H2. split; [exact H1|reflexivity].
  - unfold bind. rewrite Hget. simpl. rewrite H2. split; [exact H1|reflexivity].
Qed.

(** C6: both tables are read-through caches.  Once a call has returned a
    sequence, a further call with the same key returns the very same array
    (same reference, same items) and leaves the heap as it is; a call of
    [getOrParseChildren] with a syntax list reads and writes the entry of
    the list's parent and no other, so the list gets no entry of its own
    and the parent's own call returns the same array.  No call of either
    function removes or replaces an entry of either table. *)
Theorem caches_read_through (fuel fuel' : nat) :
  (∀ container (h h' : Heap Sc) children,
     getOrParseChildren sourceFile fuel container h = (Ok children, h') →
     getOrParseChildren sourceFile fuel' container h' = (Ok children, h'))
  ∧ (∀ n (h h' : Heap Sc) tokens,
       getOrParseTokens sourceFile fuel n h = (Ok tokens, h') →
       getOrParseTokens sourceFile fuel' n h' = (Ok tokens, h'))
  ∧ (∀ syntaxList (h h' : Heap Sc) children,
       isSyntaxList (node sourceFile syntaxList) = true →
       getOrParseChildren sourceFile fuel syntaxList h = (Ok children, h') →
       let container := parent (node sourceFile syntaxList) in
       childrenSaver h' !! container = Some children
       ∧ (∀ k, k ≠ container → childrenSaver h' !! k = childrenSaver h !! k)
       ∧ (isSyntaxList (node sourceFile container) = false →
          getOrParseChildren sourceFile fuel' container h' = (Ok children, h')))
  ∧ (∀ container n (h : Heap Sc),
       let afterChildren := (getOrParseChildren sourceFile fuel container h).2 in
       let afterTokens := (getOrParseTokens sourceFile fuel n h).2 in
       childrenSaver h ⊆ childrenSaver afterChildren
       ∧ tokenSaver h ⊆ tokenSaver afterChildren
       ∧ childrenSaver h ⊆ childrenSaver afterTokens
       ∧ tokenSaver h ⊆ tokenSaver afterTokens).
Proof.
  assert (∀ container (h h' : Heap Sc) children,
            getOrParseChildren sourceFile fuel container h = (Ok children, h') →
            childrenSaver h' !! redirect sourceFile container = Some children
            ∧ ∀ k, k ≠ redirect sourceFile container →
                   childrenSaver h' !! k = childrenSaver h !! k) as Hstored.
  { intros container h h' children.
    destruct (childrenSaver h !! redirect sourceFile container) as [arr|] eqn:Hlook.
    - rewrite (getOrParseChildren_hit _ _ _ _ Hlook). intros [= <- <-]. auto.
    - rewrite (getOrParseChildren_miss _ _ _ Hlook).
      destruct (getNodes sourceFile fuel (redirect sourceFile container) h)
        as [[nodes|e|] h1]; try discriminate.
      intros [= <- <-]. simpl. split; [apply lookup_insert_eq|].
      intros k Hk. apply lookup_insert_ne. congruence. }
  split; [|split; [|split]].
  - intros container h h' children Hrun.
    apply getOrParseChildren_hit. apply (Hstored _ _ _ _ Hrun).
  - intros n h h' tokens Hrun. apply getOrParseTokens_stored in Hrun.
    unfold getOrParseTokens. rewrite Hrun. reflexivity.
  - intros syntaxList h h' children Hlist Hrun container.
    destruct (Hstored _ _ _ _ Hrun) as [Hhere Hothers].
    assert (redirect sourceFile syntaxList = container) as Hredirect
      by (unfold redirect; rewrite Hlist; reflexivity).
    rewrite Hredirect in Hhere, Hothers.
    split; [exact Hhere|]. split; [exact Hothers|].
    intros Hparent. apply getOrParseChildren_hit.
    unfold redirect. rewrite Hparent. exact Hhere.
  - intros container n h afterChildren afterTokens.
    destruct (grows_getOrParseChildren fuel container h) as [H1 H2].
    destruct (getOrParseTokens_keeps fuel n h) as [H3 H4].
    fold afterChildren in H1, H2. fold afterTokens in H3, H4.
    rewrite H2. auto.
Qed.

End Caching.

(** ** Order and spans of a child sequence *)


Section Enumeration.
Context (sourceFile : SourceFileObj) {Sc : Type} `{!CommentScanner sourceFile Sc}
  `{!ScannerLaws sourceFile Sc}.

Lemma getOrParseChildren_returns (fuel : nat) (container : NodeId) (h : Heap Sc) :
  wellFormedContainer sourceFile (redirect sourceFile container) →
  (String.length (text sourceFile) < fuel)%nat →
  (getOrParseChildren sourceFile fuel container h).1 ≠ OutOfFuel.
Proof.
  intros Hwf Hfuel.
  destruct (childrenSaver h !! redirect sourceFile container) as [arr|] eqn:Hlook.
  - rewrite (getOrParseChildren_hit _ _ _ _ _ Hlook). discriminate.
  - rewrite (getOrParseChildren_miss _ _ _ _ Hlook).
    pose proof (getNodes_run sourceFile fuel _ h Hwf Hfuel) as Hrun.
    destruct (getNodes sourceFile fuel (redirect sourceFile container) h)
      as [[nodes|e|] h1]; simpl; try discriminate. contradiction.
Qed.

(** C2: the child sequence that [getOrParseChildren] returns for a
    container whose children are well formed is strictly increasing by
    start offset ([getStart] of a real child, [pos] of a comment list), and
    the span of an element ends before the next one starts; the call
    returns or throws whenever the fuel exceeds the length of the text, and
    what it stores keeps the stored sequences ordered. *)
Theorem getOrParseChildren_ordered (fuel : nat) (container : NodeId) (h : Heap Sc) :
  wellFormedContainer sourceFile (redirect sourceFile container) →
  (String.length (text sourceFile) < fuel)%nat →
  (∀ c arr, childrenSaver h !! c = Some arr → strictlyOrdered sourceFile (items arr)) →
  (getOrParseChildren sourceFile fuel container h).1 ≠ OutOfFuel
  ∧ ∀ children h',
      getOrParseChildren sourceFile fuel container h = (Ok children, h') →
      strictlyOrdered sourceFile (items children)
      ∧ (∀ c arr, childrenSaver h' !! c = Some arr → strictlyOrdered sourceFile (items arr)).
Proof.
  intros Hwf Hfuel Hinv. split; [apply getOrParseChildren_returns; assumption|].
  apply (getOrParseChildren_invariant sourceFile (λ _, strictlyOrdered sourceFile));
    [exact Hinv|].
  intros refs h1 Hrun. pose proof (getNodes_run sourceFile fuel _ h Hwf Hfuel) as Hspec.
  rewrite Hrun in Hspec. destruct Hspec as (lo & hi & _ & Hchain).
  intros i j a b Hij Ha Hb. eapply chain_pairwise; eauto.
Qed.


(** C5: a pass that starts at offset 0 skips nothing.  Any other pass
    first drains the scanner up to the first newline or significant token
    without keeping what it yields; when the character at the cursor is
    then a comma, the cursor steps over it and the drain is repeated.  No
    comment that a drain has thrown away is a member of a comment list of
    the pass: every member starts at or after the end of every drained
    comment. *)
Theorem skipTrailingLine_header_line (ctor : CommentListKind) (container : NodeId)
    (stopAtJsDoc : bool) (fuel : nat) (h : Heap Sc) :
  let drained (h0 : Heap Sc) := scanUntilNewLineOrToken (scanner h0) in
  let cursor (h0 : Heap Sc) := getPos (exhausted (drained h0)) in
  (getPos (scanner h) = 0 → skipTrailingLine sourceFile fuel h = (Ok tt, h))
  ∧ (getPos (scanner h) ≠ 0 →
     skipTrailingLine sourceFile fuel h = skipTrailingLine_loop sourceFile fuel h)
  ∧ (∀ h0 : Heap Sc,
       skipTrailingLine_loop sourceFile (S fuel) h0
       = if isComma (charAt (text sourceFile) (cursor h0))
         then skipTrailingLine_loop sourceFile fuel
                (withScanner h0 (setPos (cursor h0 + 1) (exhausted (drained h0))))
         else (Ok tt, withScanner h0 (exhausted (drained h0))))
  ∧ (getPos (scanner h) ≠ 0 →
     (String.length (text sourceFile) < fuel)%nat →
     ∃ groups h',
       getCommentNodes sourceFile ctor container stopAtJsDoc fuel h = (Ok groups, h')
       ∧ ∀ c cl c', c ∈ skippedComments sourceFile fuel (scanner h) →
                    cl ∈ groups → c' ∈ items (comments cl) →
                    c_end c ≤ c_pos c' ∧ c ≠ c').
Proof.
  intros drained cursor. split; [|split; [|split]].
  - intros Hzero. unfold skipTrailingLine. mstep.
    rewrite (bool_decide_eq_true_2 _ Hzero). reflexivity.
  - intros Hnz. unfold skipTrailingLine. mstep.
    rewrite (bool_decide_eq_false_2 _ Hnz). reflexivity.
  - intros h0. simpl. munfold. simpl. unfold sourceFileText, cursor, drained.
    destruct (isComma (charAt (text sourceFile)
                (getPos (exhausted (scanUntilNewLineOrToken (scanner h0)))))); reflexivity.
  - intros Hnz Hfuel.
    destruct (getCommentNodes_run sourceFile ctor container stopAtJsDoc fuel h)
      as (groups & h' & Hrun & _ & _ & _ & Hskipped).
    { pose proof (room_le sourceFile (getPos (scanner h))). lia. }
    exists groups, h'. split; [exact Hrun|].
    intros c cl c' Hc Hcl Hc'. destruct (Hskipped Hnz c cl c' Hc Hcl Hc') as [H1 H2].
    split; [exact H2|]. intros ->. lia.
Qed.

End Enumeration.

(** ** Coverage *)




(** ** The trailing comments of a child syntax list *)

Lemma untilBreak_kept {Sc} (stop : CompilerCommentNode → bool)
    (ys : list (CompilerCommentNode * Sc)) (finished : Sc) :
  (∀ c, c ∈ (untilBreak stop ys finished).1 → stop c = false)
  ∧ ∃ rest, ys.*1 = (untilBreak stop ys finished).1 ++ rest
            ∧ match rest with
              | [] => True
              | c :: _ => stop c = true
              end.
Proof.
  induction ys as [|[c s] ys [IH1 (rest & IH2 & IH3)]]; simpl.
  - split; [intros c Hc; by apply elem_of_nil in Hc|]. exists []. auto.
  - destruct (stop c) eqn:Hstop; simpl.
    + split; [intros c' Hc; by apply elem_of_nil in Hc|].
      exists (c :: ys.*1). auto.
    + destruct (untilBreak stop ys finished) as [cs s'] eqn:Hrec. simpl in *. split.
      * intros c' Hc. apply elem_of_cons in Hc as [->|Hc]; auto.
      * exists rest. split; [|exact IH3]. f_equal. exact IH2.
Qed.

Lemma indexOf_lookup (l : list NodeId) (x : NodeId) (i : nat) :
  l !! i = Some x → (∀ j, (j < i)%nat → l !! j ≠ Some x) → indexOf l x = Z.of_nat i.
Proof.
  revert i. induction l as [|c l IH]; intros i Hi Hfirst; [discriminate|].
  simpl. destruct i as [|i].
  - injection Hi as ->. rewrite bool_decide_eq_true_2 by reflexivity. reflexivity.
  - rewrite bool_decide_eq_false_2.
    + rewrite (IH i Hi).
      * destruct (Z.ltb_spec (Z.of_nat i) 0); lia.
      * intros j Hj. apply (Hfirst (S j)). lia.
    + intros ->. apply (Hfirst 0%nat); [lia|reflexivity].
Qed.

Section SyntaxLists.
Context (sourceFile : SourceFileObj) {Sc : Type} `{!CommentScanner sourceFile Sc}.

(** C9: the bound of the trailing scan of a child syntax list is the end of
    the parent when the parent is the source file; else it is the end of
    the next sibling minus one, which is the start of that sibling, when
    the sibling is a close brace (a token one character wide); else it is
    the end of the source file, which is the end of the text.  The result of [parseChildSyntaxList] ends
    with the comments of the last scan up to the first one whose position
    exceeds the bound, so that no comment of the trailing part lies beyond
    the bound. *)
Theorem parseChildSyntaxList_searchEnd (fuel : nat) (syntaxList : NodeId) (h : Heap Sc) :
  let parent' := parent (node sourceFile syntaxList) in
  let siblings := getChildren (node sourceFile parent') in
  let searchEnd := getSearchEnd sourceFile syntaxList in
  (isSourceFile (node sourceFile parent') = true →
   searchEnd = end_ (node sourceFile parent'))
  ∧ (∀ (i : nat) nextChild,
       isSourceFile (node sourceFile parent') = false →
       indexOf siblings syntaxList = Z.of_nat i →
       siblings !! S i = Some nextChild →
       kind (node sourceFile nextChild) = CloseBraceToken →
       searchEnd = end_ (node sourceFile nextChild) - 1
       ∧ (end_ (node sourceFile nextChild) = getStart (node sourceFile nextChild) + 1 →
          searchEnd = getStart (node sourceFile nextChild)))
  ∧ (∀ i : nat,
       isSourceFile (node sourceFile parent') = false →
       indexOf siblings syntaxList = Z.of_nat i →
       match siblings !! S i with
       | Some nextChild => kind (node sourceFile nextChild) ≠ CloseBraceToken
       | None => True
       end →
       searchEnd = end_ (node sourceFile (sf_node sourceFile))
       ∧ (end_ (node sourceFile (sf_node sourceFile)) = text_length (text sourceFile) →
          searchEnd = text_length (text sourceFile)))
  ∧ (∀ children h1 before h2,
       getOrParseChildren sourceFile fuel syntaxList (allocated 1 h) = (Ok children, h1) →
       parseChildSyntaxList_children sourceFile (items children)
         (withScanner h1 (setFullStartAndPos (pos (node sourceFile syntaxList))
                            (setParent parent' (scanner h1))))
       = (Ok before, h2) →
       let g := scanUntilToken (scanner h2) in
       let trailing :=
         (untilBreak (λ comment, bool_decide (searchEnd < c_pos comment))
                     (yields g) (exhausted g)).1 in
       (parseChildSyntaxList sourceFile fuel syntaxList h).1
       = Ok (mkArray (Allocated (nextAddress h)) (before ++ (TokComment <$> trailing)))
       ∧ (∀ c, c ∈ trailing → c_pos c ≤ searchEnd)
       ∧ ∃ rest, (yields g).*1 = trailing ++ rest
                 ∧ match rest with
                   | [] => True
                   | c :: _ => searchEnd < c_pos c
                   end).
Proof.
  intros parent' siblings searchEnd. split; [|split; [|split]].
  - intros Hsf. unfold searchEnd, getSearchEnd. fold parent'. rewrite Hsf. reflexivity.
  - intros i nextChild Hsf Hi Hnext Hkind.
    assert (searchEnd = end_ (node sourceFile nextChild) - 1) as Heq.
    { unfold searchEnd, getSearchEnd. fold parent'. rewrite Hsf. fold siblings.
      rewrite Hi. unfold at_index.
      destruct (Z.ltb_spec (Z.of_nat i + 1) 0); [lia|].
      replace (Z.to_nat (Z.of_nat i + 1)) with (S i) by lia.
      rewrite Hnext. apply isKind_true in Hkind. rewrite Hkind. reflexivity. }
    split; [exact Heq|]. intros Hwide. lia.
  - intros i Hsf Hi Hnext.
    assert (searchEnd = end_ (node sourceFile (sf_node sourceFile))) as Heq.
    { unfold searchEnd, getSearchEnd. fold parent'. rewrite Hsf. fold siblings.
      rewrite Hi. unfold at_index.
      destruct (Z.ltb_spec (Z.of_nat i + 1) 0); [lia|].
      replace (Z.to_nat (Z.of_nat i + 1)) with (S i) by lia.
      destruct (siblings !! S i) as [nextChild|]; [|reflexivity].
      apply isKind_false in Hnext. rewrite Hnext. reflexivity. }
    split; [exact Heq|]. intros Hlen. lia.
  - intros children h1 before h2 Hchildren Hbefore g trailing.
    pose proof (untilBreak_kept (λ comment, bool_decide (searchEnd < c_pos comment))
                  (yields g) (exhausted g)) as [Hkept (rest & Hrest & Hstop)].
    fold trailing in Hkept, Hrest. split; [|split].
    + unfold parseChildSyntaxList. mstep.
      rewrite (bind_Ok _ _ _ _ _ Hchildren). mstep. fold parent'. simpl.
      simpl in Hbefore. rewrite (bind_Ok _ _ _ _ _ Hbefore).
      unfold bind, pushUntil, ret. fold searchEnd. fold g.
      unfold trailing.
      destruct (untilBreak (λ comment, bool_decide (searchEnd < c_pos comment))
                  (yields g) (exhausted g)) as [cs s']. reflexivity.
    + intros c Hc. apply Hkept in Hc. apply bool_decide_eq_false in Hc. lia.
    + exists rest. split; [exact Hrest|]. destruct rest as [|c rest]; [exact I|].
      apply bool_decide_eq_true in Hstop. exact Hstop.
Qed.

End SyntaxLists.

(** ** The examples, run on the text scanner *)

Module Runs.
Import TextScanner TextScannerLaws Examples.

Lemma grouped_run :
  (getOrParseChildren grouped 16 0%nat emptyHeap).1
  = Ok (mkArray (Allocated 6) groupedChildren).
Proof. vm_compute. reflexivity. Qed.



Lemma fuel_enough (sourceFile : SourceFileObj) (fuel : nat) :
  (String.length (text sourceFile) <? fuel)%nat = true →
  (String.length (text sourceFile) < fuel)%nat.
Proof. apply Nat.ltb_lt. Qed.

Lemma emptyHeap_stores_nothing (P : NodeId → list NodeRef → Prop) :
  ∀ c arr, childrenSaver emptyHeap !! c = Some arr → P c (items arr).
Proof. intros c arr Hlook. simpl in Hlook. rewrite lookup_empty in Hlook. discriminate. Qed.

Lemma grouped_wellFormed : wellFormedContainer grouped 0%nat.
Proof.
  intros childNodes Hc. vm_compute in Hc. injection Hc as <-. split.
  - constructor; [|constructor]. split; [reflexivity|]. split; [reflexivity|].
    vm_compute. discriminate.
  - simpl. tauto.
Qed.

Lemma getOrParseChildren_ordered_witness : strictlyOrdered grouped groupedChildren.
Proof.
  pose proof grouped_run as Hrun.
  destruct (getOrParseChildren grouped 16 0%nat emptyHeap) as [o h'] eqn:Heq.
  simpl in Hrun. subst o.
  exact (proj1 (proj2 (getOrParseChildren_ordered grouped 16 0%nat emptyHeap
                         grouped_wellFormed (fuel_enough grouped 16 eq_refl)
                         (emptyHeap_stores_nothing (λ _, strictlyOrdered grouped)))
                  _ _ Heq)).
Defined.

(** C10 fails as stated: the block of [zeroLength] has a container kind
    and zero length, and [shouldParseChildren] does not classify it as a
    container; asked for its children all the same, [getOrParseChildren]
    returns a sequence that holds a comment list. *)
Lemma zero_length_counterexample :
  kind (node zeroLength 1%nat) ∈ commentNodeParserKinds
  ∧ pos (node zeroLength 1%nat) = end_ (node zeroLength 1%nat)
  ∧ shouldParseChildren (node zeroLength 1%nat) = false
  ∧ ∃ children h' cl,
      getOrParseChildren zeroLength 8 1%nat emptyHeap = (Ok children, h')
      ∧ items children = [CommentList cl]
      ∧ isCommentList (CommentList cl) = true.
Proof.
  split; [decided|]. split; [reflexivity|]. split; [reflexivity|].
  pose (run := getOrParseChildren zeroLength 8 1%nat emptyHeap).
  assert (run = (Ok (valueOr (mkArray (Allocated 0) []) run.1), run.2)) as Hrun
    by (vm_compute; reflexivity).
  eexists _, _, _. split; [exact Hrun|]. split; [vm_compute; reflexivity|reflexivity].
Qed.

(** C10, amended: a node is classified as a container exactly when its kind
    is one of the recognised container kinds and its start position
    differs from its end position, so that a node of zero length is never
    classified as a container.  The classification is a gate for callers
    and no more: [getOrParseChildren] does not consult it.  For every node
    whose children it is asked for, of zero length or not, it returns and
    stores what the enumeration yields; for the block of zero length of
    [zeroLength] that is a sequence with one comment list. *)
Theorem shouldParseChildren_gate :
  (∀ container : Node,
     (shouldParseChildren container = true
      ↔ kind container ∈ commentNodeParserKinds ∧ pos container ≠ end_ container)
     ∧ (pos container = end_ container → shouldParseChildren container = false))
  ∧ (∀ (sourceFile : SourceFileObj) (Sc : Type) (scn : CommentScanner sourceFile Sc)
       (fuel : nat) (container : NodeId) (h h1 : Heap Sc) (refs : list NodeRef),
       childrenSaver h !! redirect sourceFile container = None →
       getNodes sourceFile fuel (redirect sourceFile container) h = (Ok refs, h1) →
       ∃ children h',
         getOrParseChildren sourceFile fuel container h = (Ok children, h')
         ∧ items children = refs
         ∧ childrenSaver h' !! redirect sourceFile container = Some children)
  ∧ (shouldParseChildren (node zeroLength 1%nat) = false
     ∧ (getOrParseChildren zeroLength 8 1%nat emptyHeap).1
       = Ok (mkArray (Allocated 3)
               [CommentList
                  (mkCommentList 1 Statement 1 2 6 1%nat
                     (mkArray (Allocated 0)
                        [mkComment SingleLineCommentTrivia 1 2 6 "// c"]))])).
Proof.
  split; [exact shouldParseChildren_iff|]. split.
  - intros sourceFile Sc scn fuel container h h1 refs Hmiss Hnodes.
    rewrite (getOrParseChildren_miss _ _ _ _ Hmiss), Hnodes.
    eexists _, _. split; [reflexivity|]. split; [reflexivity|].
    simpl. apply lookup_insert_eq.
  - split; [reflexivity|vm_compute; reflexivity].
Qed.

(** The class is classified as a container, the block of zero length is
    not, and the enumeration of the block is returned and stored. *)
Lemma shouldParseChildren_gate_witness :
  shouldParseChildren (node classFile 3%nat) = true
  ∧ shouldParseChildren (node zeroLength 1%nat) = false
  ∧ ∃ children h',
      getOrParseChildren zeroLength 8 1%nat emptyHeap = (Ok children, h')
      ∧ items children = valueOr [] (getNodes zeroLength 8 1%nat emptyHeap).1
      ∧ childrenSaver h' !! 1%nat = Some children.
Proof.
  split; [|split].
  - apply (proj1 (proj1 shouldParseChildren_gate (node classFile 3%nat))).
    split; [decided|vm_compute; discriminate].
  - apply (proj2 (proj1 shouldParseChildren_gate (node zeroLength 1%nat))). reflexivity.
  - pose (run := getNodes zeroLength 8 1%nat emptyHeap).
    assert (run = (Ok (valueOr [] run.1), run.2)) as Hrun by (vm_compute; reflexivity).
    exact (proj1 (proj2 shouldParseChildren_gate) zeroLength State (textScanner zeroLength)
             8%nat 1%nat emptyHeap run.2 (valueOr [] run.1) (lookup_empty _) Hrun).
Defined.

(** The leading pass of the documented function stops at its doc comment;
    the trailing pass of a file that holds only a doc comment keeps it. *)
Lemma getLeadingComments_jsDoc_rule_witness :
  (getLeadingComments documented Statement 0%nat true 1 emptyHeap).1 = Ok []
  ∧ ∃ cl, (getLeadingComments docOnly Statement 0%nat false 2 emptyHeap).1 = Ok [cl]
          ∧ existsb isJsDocComment (items (comments cl)) = true.
Proof.
  split.
  - rewrite (proj1 (proj2 (getLeadingComments_jsDoc_rule documented Statement 0%nat 0
                             emptyHeap))).
    + reflexivity.
    + vm_compute. discriminate.
    + vm_compute. reflexivity.
  - pose proof (proj2 (proj2 (proj2 (getLeadingComments_jsDoc_rule docOnly Statement
                                       0%nat 1 emptyHeap)))) as Hrule.
    specialize (Hrule (mkComment MultiLineCommentTrivia 0 0 10 "/** doc */") []).
    rewrite Hrule by (vm_compute; reflexivity).
    eexists. split; vm_compute; reflexivity.
Defined.

(** The trailing pass of the class body: the cursor stops at the closing
    brace, offset 22, which is the ceiling, and the group [// t] is kept. *)
Lemma getCommentNodes_clamp_witness :
  let h := withScanner emptyHeap (mkState (Some 3%nat) 14 14) in
  ∃ kept h2,
    getCommentNodes classFile ClassElement 3%nat false 25 h = (Ok kept, h2)
    ∧ maxEndAt classFile (position (scanner h2)) = 22
    ∧ ∀ group, group ∈ kept → cl_end group ≤ 22.
Proof.
  intros h.
  pose (r1 := skipTrailingLine classFile 25 h).
  assert (r1 = (Ok tt, r1.2)) as Hskip by (vm_compute; reflexivity).
  pose (r2 := getLeadingComments classFile ClassElement 3%nat false 25 r1.2).
  assert (r2 = (Ok (valueOr [] r2.1), r2.2)) as Hlead by (vm_compute; reflexivity).
  destruct (getCommentNodes_clamp classFile ClassElement 3%nat false 25 h r1.2 r2.2
              (valueOr [] r2.1) Hskip Hlead) as ((kept & Hrun & Hkept) & Hbrace & _).
  assert (maxEndAt classFile (position (scanner r2.2)) = 22) as Hceiling.
  { change position with (getPos (CommentScanner := textScanner classFile)).
    rewrite Hbrace; [vm_compute; reflexivity|]. right. vm_compute. reflexivity. }
  exists kept, r2.2. split; [exact Hrun|]. split; [exact Hceiling|].
  intros group Hgroup. apply Hkept in Hgroup as [_ Hend].
  change position with (getPos (CommentScanner := textScanner classFile)) in Hceiling.
  rewrite Hceiling in Hend. exact Hend.
Defined.

(** The comment behind the last comma of the enum is drained, and the
    trailing pass of the enum yields nothing. *)
Example enum_skipped :
  skippedComments enumFile 31 (mkState (Some 3%nat) 22 22)
  = [mkComment SingleLineCommentTrivia 22 24 28 "// b"].
Proof. vm_compute. reflexivity. Qed.

Lemma skipTrailingLine_header_line_witness :
  let h := withScanner emptyHeap (mkState (Some 3%nat) 22 22) in
  ∃ groups h',
    getCommentNodes enumFile EnumMember 3%nat false 31 h = (Ok groups, h')
    ∧ ∀ c cl c', c ∈ skippedComments enumFile 31 (scanner h) →
                 cl ∈ groups → c' ∈ items (comments cl) →
                 c_end c ≤ c_pos c' ∧ c ≠ c'.
Proof.
  intros h.
  apply (proj2 (proj2 (proj2 (skipTrailingLine_header_line enumFile EnumMember 3%nat
                                false 31 h)))).
  - vm_compute. discriminate.
  - apply fuel_enough. reflexivity.
Defined.

(** The member list of the class shares the entry of the class. *)
Lemma caches_read_through_witness :
  let first := getOrParseChildren classFile 25 7%nat emptyHeap in
  let children := valueOr (mkArray (Allocated 0) []) first.1 in
  childrenSaver first.2 !! 3%nat = Some children
  ∧ childrenSaver first.2 !! 7%nat = None
  ∧ getOrParseChildren classFile 25 3%nat first.2 = (Ok children, first.2)
  ∧ getOrParseChildren classFile 25 7%nat first.2 = (Ok children, first.2).
Proof.
  intros first children.
  assert (first = (Ok children, first.2)) as Hrun by (vm_compute; reflexivity).
  destruct (proj1 (proj2 (proj2 (caches_read_through classFile 25 25))) 7%nat emptyHeap
              first.2 children eq_refl Hrun) as (Hstored & Hothers & Hparent).
  split; [exact Hstored|]. split.
  - transitivity (childrenSaver emptyHeap !! 7%nat); [|apply lookup_empty].
    apply Hothers. vm_compute. discriminate.
  - split; [apply Hparent; reflexivity|].
    apply (proj1 (caches_read_through classFile 25 25) 7%nat emptyHeap first.2 children Hrun).
Defined.

(** The trailing scan of the member list of the class is bounded by the
    start of the closing brace. *)
Lemma parseChildSyntaxList_searchEnd_witness :
  getSearchEnd classFile 7%nat = 22
  ∧ getSearchEnd classFile 7%nat = getStart (node classFile 8%nat).
Proof.
  destruct (proj1 (proj2 (parseChildSyntaxList_searchEnd classFile 25 7%nat emptyHeap))
              3%nat 8%nat eq_refl eq_refl eq_refl eq_refl) as [Hend Hstart].
  split; [exact Hend|]. apply Hstart. reflexivity.
Defined.

(** C7 fails as stated: the object literal of [x = { /* only */ };] has no
    property, its body starts at the end of its open brace (offset 5), and
    its computed child sequence is empty, because the comment stands on the
    line of the brace and the header-line skip of the one trailing pass
    drains it. *)
Lemma only_comment_counterexample :
  getContainerChildren (node only 4%nat) = Ok []
  ∧ getContainerBodyPos only (node only 4%nat) = Ok 5
  ∧ ∃ children h',
      getOrParseChildren only 20 4%nat emptyHeap = (Ok children, h')
      ∧ items children = []
      ∧ ¬ ∃ cl, items children = [CommentList cl].
Proof.
  split; [reflexivity|]. split; [reflexivity|].
  assert ((getOrParseChildren only 20 4%nat emptyHeap).1 = Ok (mkArray (Allocated 1) []))
    as Hrun by (vm_compute; reflexivity).
  destruct (getOrParseChildren only 20 4%nat emptyHeap) as [o h'].
  simpl in Hrun. subst o. eexists _, h'. split; [reflexivity|].
  split; [reflexivity|]. intros [cl Hcl]. discriminate.
Qed.

(** C7, amended: for a container without real children the enumeration
    puts the scanner at the body start of the boundary resolver and runs
    one trailing pass, with the doc-comment rule off.  An object literal
    whose only comment stands on a line below its open brace yields one
    comment list that wraps the comment, the scan starting at the end of
    the brace; a comment on the line of the brace itself is dropped by the
    header-line skip of that pass, and the sequence is empty. *)
Theorem getNodes_without_children :
  (∀ (sourceFile : SourceFileObj) (Sc : Type) (scn : CommentScanner sourceFile Sc)
     (fuel : nat) (container : NodeId) (h : Heap Sc) (ctor : CommentListKind) (b : Z),
     getContainerChildren (node sourceFile container) = Ok [] →
     getCtor (node sourceFile container) = Ok ctor →
     getContainerBodyPos sourceFile (node sourceFile container) = Ok b →
     getNodes sourceFile fuel container h
     = (cls <- getCommentNodes sourceFile ctor container false fuel ;;
        ret (CommentList <$> cls))
         (withScanner h (setFullStartAndPos b (setParent container (scanner h)))))
  ∧ (getContainerChildren (node onlyBelow 4%nat) = Ok []
     ∧ getContainerBodyPos onlyBelow (node onlyBelow 4%nat)
       = Ok (end_ (node onlyBelow 5%nat))
     ∧ (getOrParseChildren onlyBelow 21 4%nat emptyHeap).1
       = Ok (mkArray (Allocated 3)
               [CommentList
                  (mkCommentList 1 ObjectLiteralElement 5 7 17 4%nat
                     (mkArray (Allocated 0)
                        [mkComment MultiLineCommentTrivia 5 7 17 "/* only */"]))]))
  ∧ (getOrParseChildren only 20 4%nat emptyHeap).1 = Ok (mkArray (Allocated 1) []).
Proof.
  split; [|split; [split; [|split]|]].
  - intros sourceFile Sc scn fuel container h ctor b Hchildren Hctor Hbody.
    unfold getNodes. mstep. rewrite Hchildren. mstep. rewrite Hctor. mstep.
    rewrite Hbody. mstep. reflexivity.
  - reflexivity.
  - reflexivity.
  - vm_compute. reflexivity.
  - vm_compute. reflexivity.
Qed.

Lemma getNodes_without_children_witness :
  getNodes onlyBelow 21 4%nat emptyHeap
  = (cls <- getCommentNodes onlyBelow ObjectLiteralElement 4%nat false 21 ;;
     ret (CommentList <$> cls))
      (withScanner emptyHeap (mkState (Some 4%nat) 5 5)).
Proof.
  exact (proj1 getNodes_without_children onlyBelow State (textScanner onlyBelow)
           21%nat 4%nat emptyHeap ObjectLiteralElement 5 eq_refl eq_refl eq_refl).
Defined.

(** The examples of the specification, on the text scanner. *)

(** Two groups that a blank line separates, then the statement. *)
Example blank_line_grouping :
  (valueOr (mkArray (Allocated 0) []) (getOrParseChildren grouped 16 0%nat emptyHeap).1)
  = mkArray (Allocated 6) groupedChildren.
Proof. vm_compute. reflexivity. Qed.

(** The doc comment of a function is not wrapped. *)
Example jsDoc_exemption :
  items (valueOr (mkArray (Allocated 0) [])
           (getOrParseChildren documented 26 0%nat emptyHeap).1)
  = [RealNode 3%nat].
Proof. vm_compute. reflexivity. Qed.

(** The full start of the statement of [grouped] is offset 0, where the
    first comment list starts too: it is by their starts, not by their
    full starts, that the elements of a child sequence are ordered. *)
Example full_start_precedes_comments :
  pos (node grouped 3%nat) = 0
  ∧ ref_getStart grouped (RealNode 3%nat) = 12
  ∧ (ref_getStart grouped <$> groupedChildren) = [0; 6; 12].
Proof. repeat split. Qed.

(** The comment on the line of the open brace of a class is in no comment
    list. *)
Example header_line_skip :
  items (valueOr (mkArray (Allocated 0) [])
           (getOrParseChildren headerFile 22 3%nat emptyHeap).1)
  = [RealNode 9%nat].
Proof. vm_compute. reflexivity. Qed.

(** The comments behind the commas of the enum are in no comment list, and
    the comment before the closing brace of the class is in one. *)
Example trailing_comma_skip :
  items (valueOr (mkArray (Allocated 0) [])
           (getOrParseChildren enumFile 31 3%nat emptyHeap).1)
  = [RealNode 9%nat; RealNode 10%nat].
Proof. vm_compute. reflexivity. Qed.

Example comment_before_close_brace :
  items (valueOr (mkArray (Allocated 0) [])
           (getOrParseChildren classFile 25 3%nat emptyHeap).1)
  = [RealNode 9%nat;
     CommentList (mkCommentList 2 ClassElement 14 17 21 3%nat
       (mkArray (Allocated 1) [mkComment SingleLineCommentTrivia 14 17 21 "// t"]))].
Proof. vm_compute. reflexivity. Qed.

End Runs.

(** * Further properties of the parser *)

(** ** More reasoning in the monad *)

Lemma bind_inv_Ok {Sc A B} (m : M Sc A) (f : A → M Sc B) (h h' : Heap Sc) (b : B) :
  bind m f h = (Ok b, h') → ∃ a h1, m h = (Ok a, h1) ∧ f a h1 = (Ok b, h').
Proof.
  unfold bind. destruct (m h) as [[a| |] h1]; intros Hrun; try discriminate. eauto.
Qed.

Lemma bind_inv_fail {Sc A B} (m : M Sc A) (f : A → M Sc B) (h h' : Heap Sc)
    (o : Outcome B) :
  bind m f h = (o, h') → (∀ b, o ≠ Ok b) →
  (∃ o1, m h = (o1, h') ∧ ∀ a, o1 ≠ Ok a)
  ∨ ∃ a h1, m h = (Ok a, h1) ∧ f a h1 = (o, h').
Proof.
  unfold bind. destruct (m h) as [[a| |] h1]; intros Hrun Hfail.
  - right. eauto.
  - left. injection Hrun as <- <-. eexists. split; [reflexivity|]. discriminate.
  - left. injection Hrun as <- <-. eexists. split; [reflexivity|]. discriminate.
Qed.

Lemma neverThrows_ret {Sc A} (a : A) : neverThrows (@ret Sc A a).
Proof. intros h e. discriminate. Qed.

Lemma neverThrows_bind {Sc A B} (m : M Sc A) (f : A → M Sc B) :
  neverThrows m → (∀ a, neverThrows (f a)) → neverThrows (bind m f).
Proof.
  intros Hm Hf h e. unfold bind. specialize (Hm h).
  destruct (m h) as [[a|e'|] h1]; simpl in *.
  - apply Hf.
  - exfalso. apply (Hm e'). reflexivity.
  - discriminate.
Qed.

Lemma neverThrows_outOfFuel {Sc A} : neverThrows (@outOfFuel Sc A).
Proof. intros h e. discriminate. Qed.

Lemma neverThrows_allocate {Sc} : neverThrows (@allocate Sc).
Proof. intros h e. discriminate. Qed.

Lemma neverThrows_onScanner {Sc} (f : Sc → Sc) : neverThrows (onScanner f).
Proof. intros h e. discriminate. Qed.

Lemma neverThrows_readScanner {Sc A} (f : Sc → A) : neverThrows (readScanner f).
Proof. intros h e. discriminate. Qed.

Lemma neverThrows_drain {Sc} (gen : Sc → Generator Sc) : neverThrows (drain gen).
Proof. intros h e. discriminate. Qed.

Create HintDb neverThrows.
#[global] Hint Resolve neverThrows_ret neverThrows_outOfFuel neverThrows_allocate
  neverThrows_onScanner neverThrows_readScanner neverThrows_drain : neverThrows.

Lemma alwaysReturns_ret {Sc A} (a : A) : alwaysReturns (@ret Sc A a).
Proof. intros h. eexists. reflexivity. Qed.

Lemma alwaysReturns_bind {Sc A B} (m : M Sc A) (f : A → M Sc B) :
  alwaysReturns m → (∀ a, alwaysReturns (f a)) → alwaysReturns (bind m f).
Proof.
  intros Hm Hf h. unfold bind. destruct (Hm h) as [a Ha].
  destruct (m h) as [o h1]. simpl in Ha. subst o. apply Hf.
Qed.

Lemma alwaysReturns_allocate {Sc} : alwaysReturns (@allocate Sc).
Proof. intros h. eexists. reflexivity. Qed.

Lemma alwaysReturns_onScanner {Sc} (f : Sc → Sc) : alwaysReturns (onScanner f).
Proof. intros h. eexists. reflexivity. Qed.

Lemma alwaysReturns_getScanner {Sc} : alwaysReturns (@getScannerForSourceFile Sc).
Proof. intros h. eexists. reflexivity. Qed.

Lemma alwaysReturns_pushUntil {Sc} (gen : Sc → Generator Sc)
    (stop : CompilerCommentNode → bool) :
  alwaysReturns (pushUntil gen stop).
Proof.
  intros h. unfold pushUntil. destruct (untilBreak _ _ _). eexists. reflexivity.
Qed.

Create HintDb alwaysReturns.
#[global] Hint Resolve alwaysReturns_ret alwaysReturns_allocate alwaysReturns_onScanner
  alwaysReturns_getScanner alwaysReturns_pushUntil : alwaysReturns.

Lemma movesScannerOnly_ret {Sc A} (a : A) : movesScannerOnly (@ret Sc A a).
Proof. intros h. exists (scanner h). destruct h. reflexivity. Qed.

Lemma movesScannerOnly_bind {Sc A B} (m : M Sc A) (f : A → M Sc B) :
  movesScannerOnly m → (∀ a, movesScannerOnly (f a)) → movesScannerOnly (bind m f).
Proof.
  intros Hm Hf h. unfold bind. destruct (Hm h) as [s1 Hs1].
  destruct (m h) as [[a|e|] h1]; simpl in Hs1; subst h1; simpl; eauto.
  destruct (Hf a (withScanner h s1)) as [s2 Hs2]. exists s2. rewrite Hs2. reflexivity.
Qed.

Lemma movesScannerOnly_outOfFuel {Sc A} : movesScannerOnly (@outOfFuel Sc A).
Proof. intros h. exists (scanner h). destruct h. reflexivity. Qed.

Lemma movesScannerOnly_onScanner {Sc} (f : Sc → Sc) : movesScannerOnly (onScanner f).
Proof. intros h. eexists. reflexivity. Qed.

Lemma movesScannerOnly_readScanner {Sc A} (f : Sc → A) : movesScannerOnly (readScanner f).
Proof. intros h. exists (scanner h). destruct h. reflexivity. Qed.

Lemma movesScannerOnly_drain {Sc} (gen : Sc → Generator Sc) : movesScannerOnly (drain gen).
Proof. intros h. eexists. reflexivity. Qed.

Lemma movesScannerOnly_pushUntil {Sc} (gen : Sc → Generator Sc)
    (stop : CompilerCommentNode → bool) :
  movesScannerOnly (pushUntil gen stop).
Proof.
  intros h. unfold pushUntil. destruct (untilBreak _ _ _). eexists. reflexivity.
Qed.

Lemma movesScannerOnly_getScanner {Sc} : movesScannerOnly (@getScannerForSourceFile Sc).
Proof. apply movesScannerOnly_ret. Qed.

Create HintDb movesScannerOnly.
#[global] Hint Resolve movesScannerOnly_ret movesScannerOnly_outOfFuel
  movesScannerOnly_onScanner movesScannerOnly_readScanner movesScannerOnly_drain
  movesScannerOnly_pushUntil movesScannerOnly_getScanner : movesScannerOnly.

(** Splits a computation into its steps, for one of the predicates above. *)
Ltac never_throws_steps :=
  repeat first
    [ solve [auto with neverThrows]
    | apply neverThrows_bind; [|intros ?]
    | match goal with |- neverThrows (if ?b then _ else _) => destruct b end
    | match goal with |- neverThrows (match ?l with [] => _ | _ :: _ => _ end) =>
        destruct l end ].

Ltac always_returns_steps :=
  repeat first
    [ solve [auto with alwaysReturns]
    | apply alwaysReturns_bind; [|intros ?]
    | match goal with |- alwaysReturns (if ?b then _ else _) => destruct b end
    | match goal with |- alwaysReturns (match ?l with [] => _ | _ :: _ => _ end) =>
        destruct l end ].

Ltac moves_scanner_steps :=
  repeat first
    [ solve [auto with movesScannerOnly]
    | apply movesScannerOnly_bind; [|intros ?]
    | match goal with |- movesScannerOnly (if ?b then _ else _) => destruct b end
    | match goal with |- movesScannerOnly (match ?l with [] => _ | _ :: _ => _ end) =>
        destruct l end ].

Section Behaviour.
Context (sourceFile : SourceFileObj) {Sc : Type} `{!CommentScanner sourceFile Sc}.

Lemma neverThrows_skipTrailingLine_loop (fuel : nat) :
  neverThrows (skipTrailingLine_loop sourceFile fuel).
Proof. induction fuel as [|fuel IH]; simpl; never_throws_steps. Qed.

Lemma neverThrows_skipTrailingLine (fuel : nat) :
  neverThrows (skipTrailingLine sourceFile fuel).
Proof.
  pose proof neverThrows_skipTrailingLine_loop. unfold skipTrailingLine.
  never_throws_steps.
Qed.

Lemma neverThrows_getLeadingComments (ctor : CommentListKind) (container : NodeId)
    (stopAtJsDoc : bool) (fuel : nat) :
  neverThrows (getLeadingComments sourceFile ctor container stopAtJsDoc fuel).
Proof.
  induction fuel as [|fuel IH]; simpl; [auto with neverThrows|].
  unfold createCommentList. never_throws_steps.
Qed.

Lemma neverThrows_getCommentNodes (ctor : CommentListKind) (container : NodeId)
    (stopAtJsDoc : bool) (fuel : nat) :
  neverThrows (getCommentNodes sourceFile ctor container stopAtJsDoc fuel).
Proof.
  pose proof neverThrows_skipTrailingLine. pose proof neverThrows_getLeadingComments.
  unfold getCommentNodes. never_throws_steps.
Qed.

Lemma neverThrows_getNodes_children (ctor : CommentListKind) (container : NodeId)
    (fuel : nat) (childNodes : list NodeId) :
  neverThrows (getNodes_children sourceFile ctor container fuel childNodes).
Proof.
  pose proof neverThrows_getCommentNodes.
  induction childNodes as [|c l IH]; simpl; never_throws_steps.
Qed.

Lemma movesScannerOnly_skipTrailingLine_loop (fuel : nat) :
  movesScannerOnly (skipTrailingLine_loop sourceFile fuel).
Proof. induction fuel as [|fuel IH]; simpl; moves_scanner_steps. Qed.

Lemma movesScannerOnly_skipTrailingLine (fuel : nat) :
  movesScannerOnly (skipTrailingLine sourceFile fuel).
Proof.
  pose proof movesScannerOnly_skipTrailingLine_loop. unfold skipTrailingLine.
  moves_scanner_steps.
Qed.

Lemma alwaysReturns_parseChildSyntaxList_children (children : list NodeRef) :
  alwaysReturns (parseChildSyntaxList_children sourceFile children).
Proof. induction children as [|c l IH]; simpl; always_returns_steps. Qed.

Lemma movesScannerOnly_parseChildSyntaxList_children (children : list NodeRef) :
  movesScannerOnly (parseChildSyntaxList_children sourceFile children).
Proof. induction children as [|c l IH]; simpl; moves_scanner_steps. Qed.

Lemma alwaysReturns_parseNode_loop (rest : list NodeId) (lastEnd : Z) :
  alwaysReturns (parseNode_loop sourceFile lastEnd rest).
Proof.
  revert lastEnd. induction rest as [|c l IH]; intros lastEnd; simpl;
    always_returns_steps.
Qed.

Lemma movesScannerOnly_parseNode_loop (rest : list NodeId) (lastEnd : Z) :
  movesScannerOnly (parseNode_loop sourceFile lastEnd rest).
Proof.
  revert lastEnd. induction rest as [|c l IH]; intros lastEnd; simpl;
    moves_scanner_steps.
Qed.

End Behaviour.

(** ** What a child sequence holds *)

Lemma realNodes_app (l1 l2 : list NodeRef) :
  realNodes (l1 ++ l2) = realNodes l1 ++ realNodes l2.
Proof. apply omap_app. Qed.

Lemma commentLists_app (l1 l2 : list NodeRef) :
  commentLists (l1 ++ l2) = commentLists l1 ++ commentLists l2.
Proof. apply omap_app. Qed.

Lemma realNodes_comments (cls : list CompilerCommentList) :
  realNodes (CommentList <$> cls) = [].
Proof. induction cls as [|cl cls IH]; [reflexivity|exact IH]. Qed.

Lemma commentLists_comments (cls : list CompilerCommentList) :
  commentLists (CommentList <$> cls) = cls.
Proof. induction cls as [|cl cls IH]; [reflexivity|]. simpl. f_equal. exact IH. Qed.

Lemma commentLists_elem (l : list NodeRef) (cl : CompilerCommentList) :
  cl ∈ commentLists l ↔ CommentList cl ∈ l.
Proof.
  unfold commentLists. rewrite list_elem_of_omap. split.
  - intros ([n|cl'] & Hin & Heq); [discriminate|]. injection Heq as ->. exact Hin.
  - intros Hin. exists (CommentList cl). auto.
Qed.

Lemma getContainerChildren_getCtor (container : Node) (l : list NodeId) :
  getContainerChildren container = Ok l → ∃ ctor, getCtor container = Ok ctor.
Proof.
  unfold getContainerChildren, getCtor, isStatementContainerNode, isClassLike,
    isSourceFile, isBlock, isModuleBlock, isCaseClause, isDefaultClause,
    isClassDeclaration, isClassExpression, isEnumDeclaration, isInterfaceDeclaration,
    isTypeLiteralNode, isObjectLiteralExpression, isKind.
  destruct (kind container); simpl; intros Hc; try discriminate; eauto.
Qed.

Lemma getContainerChildren_kind (container : Node) :
  (kind container ∈ commentNodeParserKinds → ∃ l, getContainerChildren container = Ok l)
  ∧ (kind container ∉ commentNodeParserKinds →
     getContainerChildren container = Throw NotImplementedError).
Proof.
  unfold getContainerChildren, isSourceFile, isBlock, isModuleBlock, isCaseClause,
    isDefaultClause, isClassDeclaration, isClassExpression, isEnumDeclaration,
    isInterfaceDeclaration, isTypeLiteralNode, isObjectLiteralExpression, isKind,
    commentNodeParserKinds.
  split; intros Hk.
  - destruct (kind container); simpl; eauto;
      exfalso; repeat (apply elem_of_cons in Hk as [Hk|Hk]; [discriminate|]);
      by apply elem_of_nil in Hk.
  - repeat rewrite not_elem_of_cons in Hk.
    repeat (rewrite bool_decide_eq_false_2 by tauto). reflexivity.
Qed.

Section Built.
Context (sourceFile : SourceFileObj) {Sc : Type} `{!CommentScanner sourceFile Sc}.

Lemma getLeadingComments_built (ctor : CommentListKind) (container : NodeId)
    (stopAtJsDoc : bool) (fuel : nat) (h h' : Heap Sc)
    (groups : list CompilerCommentList) :
  getLeadingComments sourceFile ctor container stopAtJsDoc fuel h = (Ok groups, h') →
  Forall (builtFor ctor container) groups.
Proof.
  revert h h' groups. induction fuel as [|fuel IH]; intros h h' groups Hrun;
    [discriminate|].
  rewrite getLeadingComments_S in Hrun. simpl in Hrun.
  destruct ((yields (scanForNewLines (scanner h))).*1) as [|first rest] eqn:Hcs.
  - injection Hrun as <- <-. constructor.
  - destruct (stopAtJsDoc && existsb isJsDocComment (first :: rest)).
    + injection Hrun as <- <-. constructor.
    + match type of Hrun with
      | context [getLeadingComments _ _ _ _ fuel ?h1] =>
          destruct (getLeadingComments sourceFile ctor container stopAtJsDoc fuel h1)
            as [[more| |] h2] eqn:Hmore; try discriminate
      end.
      injection Hrun as <- <-. constructor; [|eapply IH; exact Hmore].
      split; [reflexivity|]. split; [reflexivity|]. exists first, rest. auto.
Qed.

Lemma getCommentNodes_built (ctor : CommentListKind) (container : NodeId)
    (stopAtJsDoc : bool) (fuel : nat) (h h' : Heap Sc)
    (kept : list CompilerCommentList) :
  getCommentNodes sourceFile ctor container stopAtJsDoc fuel h = (Ok kept, h') →
  Forall (builtFor ctor container) kept.
Proof.
  unfold getCommentNodes. intros Hrun.
  apply bind_inv_Ok in Hrun as ([] & h1 & Hskip & Hrun).
  apply bind_inv_Ok in Hrun as (groups & h2 & Hlead & Hrun).
  rewrite bind_readScanner in Hrun. injection Hrun as <- <-.
  apply getLeadingComments_built in Hlead. rewrite Forall_forall in Hlead.
  apply Forall_forall. intros cl Hcl. apply list_elem_of_filter in Hcl as [_ Hcl]. auto.
Qed.

Lemma getNodes_children_built (ctor : CommentListKind) (container : NodeId)
    (fuel : nat) (childNodes : list NodeId) (h h' : Heap Sc) (refs : list NodeRef) :
  getNodes_children sourceFile ctor container fuel childNodes h = (Ok refs, h') →
  realNodes refs = childNodes
  ∧ Forall (builtFor ctor container) (commentLists refs).
Proof.
  revert h h' refs. induction childNodes as [|c l IH]; intros h h' refs Hrun.
  - injection Hrun as <- <-. split; [reflexivity|constructor].
  - simpl in Hrun. rewrite bind_onScanner in Hrun.
    apply bind_inv_Ok in Hrun as (cls & h1 & Hcls & Hrun).
    apply bind_inv_Ok in Hrun as (more & h2 & Hmore & Hrun).
    injection Hrun as <- <-.
    apply getCommentNodes_built in Hcls.
    destruct (IH _ _ _ Hmore) as (Hreal & Hb2).
    rewrite realNodes_app, commentLists_app, realNodes_comments, commentLists_comments.
    simpl. fold (realNodes more). fold (commentLists more). rewrite Hreal.
    split; [reflexivity|apply Forall_app; auto].
Qed.

Lemma getNodes_built (fuel : nat) (container : NodeId) (h h' : Heap Sc)
    (refs : list NodeRef) :
  getNodes sourceFile fuel container h = (Ok refs, h') →
  ∃ ctor, getCtor (node sourceFile container) = Ok ctor
    ∧ getContainerChildren (node sourceFile container) = Ok (realNodes refs)
    ∧ Forall (builtFor ctor container) (commentLists refs).
Proof.
  unfold getNodes. rewrite bind_getScanner. intros Hrun.
  destruct (getContainerChildren (node sourceFile container)) as [childNodes|e|] eqn:Hc;
    try discriminate.
  rewrite bind_lift_Ok in Hrun.
  destruct (getCtor (node sourceFile container)) as [ctor|e|] eqn:Hctor; try discriminate.
  rewrite bind_lift_Ok, bind_onScanner in Hrun. exists ctor. split; [reflexivity|].
  destruct childNodes as [|firstChild others].
  - destruct (getContainerBodyPos sourceFile (node sourceFile container)) as [b|e|];
      try discriminate.
    rewrite bind_lift_Ok, bind_onScanner in Hrun.
    apply bind_inv_Ok in Hrun as (cls & h1 & Hcls & Hrun). injection Hrun as <- <-.
    apply getCommentNodes_built in Hcls.
    rewrite realNodes_comments, commentLists_comments. auto.
  - apply bind_inv_Ok in Hrun as (before & h1 & Hbefore & Hrun).
    rewrite bind_onScanner in Hrun.
    apply bind_inv_Ok in Hrun as (cls & h2 & Hcls & Hrun). injection Hrun as <- <-.
    destruct (getNodes_children_built _ _ _ _ _ _ _ Hbefore) as (Hreal & Hb1).
    apply getCommentNodes_built in Hcls.
    rewrite realNodes_app, commentLists_app, realNodes_comments, commentLists_comments,
      app_nil_r, Hreal.
    split; [reflexivity|apply Forall_app; auto].
Qed.

End Built.

(** ** Errors of the boundary resolver *)

Lemma find_none_iff (sourceFile : SourceFileObj) (k : SyntaxKind) (n : Node) :
  find (λ c, isKind k (node sourceFile c)) (getChildren n) = None
  ↔ noChildOfKind sourceFile k n.
Proof.
  unfold noChildOfKind. induction (getChildren n) as [|c l IH]; simpl.
  - split; [intros _ c Hc; by apply elem_of_nil in Hc|reflexivity].
  - destruct (isKind k (node sourceFile c)) eqn:Hk.
    + apply isKind_true in Hk. split; [discriminate|].
      intros Hall. exfalso. apply (Hall c); [left|exact Hk].
    + apply isKind_false in Hk. rewrite IH. split.
      * intros Hall c' Hc'. apply elem_of_cons in Hc' as [->|Hc']; auto.
      * intros Hall c' Hc'. apply Hall. by right.
Qed.

Lemma last_filter_none_iff (sourceFile : SourceFileObj) (k : SyntaxKind) (n : Node) :
  last (filter (λ c, kind (node sourceFile c) = k) (getChildren n)) = None
  ↔ noChildOfKind sourceFile k n.
Proof.
  rewrite last_None. unfold noChildOfKind. split.
  - intros Hnil c Hc Hk.
    assert (c ∈ filter (λ c, kind (node sourceFile c) = k) (getChildren n)) as Hin
      by (apply list_elem_of_filter; auto).
    rewrite Hnil in Hin. by apply elem_of_nil in Hin.
  - intros Hall. destruct (filter _ _) as [|c l] eqn:Hf; [reflexivity|].
    assert (c ∈ filter (λ c, kind (node sourceFile c) = k) (getChildren n)) as Hin
      by (rewrite Hf; left).
    apply list_elem_of_filter in Hin as [Hk Hc]. exfalso. exact (Hall c Hc Hk).
Qed.

Lemma getLastSyntaxListPos_throws (sourceFile : SourceFileObj) (n : Node) (e : Exception) :
  getLastSyntaxListPos sourceFile n = Throw e
  ↔ e = noSyntaxListError ∧ noChildOfKind sourceFile SyntaxList n.
Proof.
  unfold getLastSyntaxListPos. rewrite <- last_filter_none_iff, findLastSyntaxList_spec.
  destruct (last _) as [c|].
  - split; [discriminate|]. intros [_ H]. discriminate.
  - split; [intros [= <-]; auto|]. intros [-> _]. reflexivity.
Qed.

Lemma orElse_throws (sourceFile : SourceFileObj) (k : SyntaxKind) (n : Node) (e : Exception) :
  orElse (getTokenEnd sourceFile n k) (getLastSyntaxListPos sourceFile n) = Throw e
  ↔ e = noSyntaxListError ∧ noChildOfKind sourceFile k n
    ∧ noChildOfKind sourceFile SyntaxList n.
Proof.
  unfold getTokenEnd. rewrite <- find_none_iff.
  destruct (find _ _) as [c|]; simpl.
  - split; [discriminate|]. intros (_ & H & _). discriminate.
  - rewrite getLastSyntaxListPos_throws. tauto.
Qed.

Lemma getContainerBodyPos_container_error (sourceFile : SourceFileObj) (container : Node)
    (e : Exception) :
  getContainerBodyPos sourceFile container = Throw e →
  kind container ∈ commentNodeParserKinds → e = noSyntaxListError.
Proof.
  unfold getContainerBodyPos, isSourceFile, isClassDeclaration, isEnumDeclaration,
    isInterfaceDeclaration, isTypeLiteralNode, isClassExpression,
    isObjectLiteralExpression, isModuleBlock, isBlock, isCaseClause, isDefaultClause,
    isKind at 1 2 3 4 5 6 7 8 9 10 11.
  assert (∀ k (l : list SyntaxKind), k ∈ l → bool_decide (k ∈ l) = false → False) as Hno.
  { intros k l Hin Hb. apply bool_decide_eq_false in Hb. auto. }
  destruct (kind container) eqn:Hk; simpl; intros Hthrow Hin;
    first [ discriminate Hthrow
          | exfalso; exact (Hno _ _ Hin eq_refl)
          | apply orElse_throws in Hthrow; apply Hthrow ].
Qed.

(** X1: for a node of a container kind the boundary resolver throws in one
    case and no other: a declaration body without open brace among its
    children, or a case or default clause without colon among its
    children, that has no syntax list among its children either; what it
    throws then is the plain error.  For a source file, a block and a
    module block it always returns a position. *)
Theorem getContainerBodyPos_throws_iff (sourceFile : SourceFileObj) (container : Node)
    (e : Exception) :
  kind container ∈ commentNodeParserKinds →
  getContainerBodyPos sourceFile container = Throw e
  ↔ e = noSyntaxListError
    ∧ noChildOfKind sourceFile SyntaxList container
    ∧ ((kind container ∈ openBraceSyntaxListParents
        ∧ noChildOfKind sourceFile OpenBraceToken container)
       ∨ (kind container ∈ [CaseClause; DefaultClause]
          ∧ noChildOfKind sourceFile ColonToken container)).
Proof.
  intros Hkind. revert Hkind.
  unfold getContainerBodyPos, isSourceFile, isClassDeclaration, isEnumDeclaration,
    isInterfaceDeclaration, isTypeLiteralNode, isClassExpression,
    isObjectLiteralExpression, isModuleBlock, isBlock, isCaseClause, isDefaultClause,
    isKind at 1 2 3 4 5 6 7 8 9 10 11.
  assert (∀ k (l : list SyntaxKind), k ∈ l → bool_decide (k ∈ l) = false → False) as Hno.
  { intros k l Hin Hb. apply bool_decide_eq_false in Hb. auto. }
  destruct (kind container) eqn:Hk; simpl; intros Hkind; try rewrite orElse_throws;
    try (exfalso; exact (Hno _ _ Hkind eq_refl));
    (split;
     [ intros H;
       first [ discriminate H
             | destruct H as (-> & H1 & H2); split; [reflexivity|];
               split; [exact H2|];
               first [left; split; [decided|exact H1] | right; split; [decided|exact H1]] ]
     | intros (-> & Hlist & [[Hin Hnone]|[Hin Hnone]]);
       first [ exfalso; exact (Hno _ _ Hin eq_refl)
             | split; [reflexivity|split; assumption] ] ]).
Qed.

(** ** The child sequences of [getOrParseChildren] *)

Section ChildSequences.
Context (sourceFile : SourceFileObj) {Sc : Type} `{!CommentScanner sourceFile Sc}.

(** X2: a child sequence holds every child of its container (its
    statements, members or properties) once and in source order; what the
    parser adds between them are comment lists only.  This holds of the
    sequence that [getOrParseChildren] returns and of every sequence it
    stores, once it holds of the stored ones. *)
Theorem getOrParseChildren_real_children (fuel : nat) (container : NodeId) (h : Heap Sc) :
  storedChildren (keepsChildren sourceFile) h →
  ∀ children h',
    getOrParseChildren sourceFile fuel container h = (Ok children, h') →
    keepsChildren sourceFile (redirect sourceFile container) (items children)
    ∧ storedChildren (keepsChildren sourceFile) h'.
Proof.
  intros Hinv. apply (getOrParseChildren_invariant sourceFile (keepsChildren sourceFile));
    [exact Hinv|].
  intros refs h1 Hrun. apply getNodes_built in Hrun as (ctor & _ & Hchildren & _).
  exact Hchildren.
Qed.

(** X3: every comment list of a child sequence has the container as its
    parent and the kind that the container calls for, holds at least one
    comment, starts where its first comment starts (full start and
    position) and ends where its last comment ends. *)
Theorem getOrParseChildren_comment_lists (fuel : nat) (container : NodeId) (h : Heap Sc) :
  storedChildren (builtBy sourceFile) h →
  ∀ children h',
    getOrParseChildren sourceFile fuel container h = (Ok children, h') →
    builtBy sourceFile (redirect sourceFile container) (items children)
    ∧ storedChildren (builtBy sourceFile) h'.
Proof.
  intros Hinv. apply (getOrParseChildren_invariant sourceFile (builtBy sourceFile));
    [exact Hinv|].
  intros refs h1 Hrun. apply getNodes_built in Hrun as (ctor & Hctor & _ & Hbuilt).
  exists ctor. auto.
Qed.

Lemma builtBy_kinds (c : NodeId) (l : list NodeRef) (r : NodeRef) :
  builtBy sourceFile c l → r ∈ l → isCommentList r = true →
  isCommentListStatement r = isStatementContainerNode (node sourceFile c)
  ∧ isCommentListClassElement r = isClassLike (node sourceFile c)
  ∧ isCommentListTypeElement r
    = isInterfaceDeclaration (node sourceFile c) || isTypeLiteralNode (node sourceFile c)
  ∧ isCommentListObjectLiteralElement r = isObjectLiteralExpression (node sourceFile c)
  ∧ isCommentListEnumMember r = isEnumDeclaration (node sourceFile c).
Proof.
  intros (ctor & Hctor & Hbuilt) Hr Hlist. destruct r as [n|cl]; [discriminate|].
  apply commentLists_elem in Hr. rewrite Forall_forall in Hbuilt.
  destruct (Hbuilt cl Hr) as (Hkind & _).
  unfold isCommentListStatement, isCommentListClassElement, isCommentListTypeElement,
    isCommentListObjectLiteralElement, isCommentListEnumMember, hasCommentListKind.
  rewrite Hkind. revert Hctor.
  unfold getCtor, isStatementContainerNode, isClassLike, isSourceFile, isBlock,
    isModuleBlock, isCaseClause, isDefaultClause, isClassDeclaration, isClassExpression,
    isEnumDeclaration, isInterfaceDeclaration, isTypeLiteralNode,
    isObjectLiteralExpression, isKind.
  destruct (kind (node sourceFile c)); simpl; intros [= <-]; repeat split.
Qed.

(** X4: the five kind predicates tell of a comment list of a child sequence
    what the container is: the list is a statement list exactly when the
    container is a statement container, a class element list exactly when
    it is a class, a type element list for an interface or a type literal,
    an object literal element list for an object literal, and an enum
    member list for an enum. *)
Theorem comment_list_kind_of_container (fuel : nat) (container : NodeId) (h : Heap Sc) :
  storedChildren (builtBy sourceFile) h →
  ∀ children h' r,
    getOrParseChildren sourceFile fuel container h = (Ok children, h') →
    r ∈ items children → isCommentList r = true →
    let c := node sourceFile (redirect sourceFile container) in
    isCommentListStatement r = isStatementContainerNode c
    ∧ isCommentListClassElement r = isClassLike c
    ∧ isCommentListTypeElement r = isInterfaceDeclaration c || isTypeLiteralNode c
    ∧ isCommentListObjectLiteralElement r = isObjectLiteralExpression c
    ∧ isCommentListEnumMember r = isEnumDeclaration c.
Proof.
  intros Hinv children h' r Hrun Hr Hlist c.
  apply (builtBy_kinds _ (items children)); [|exact Hr|exact Hlist].
  refine (proj1 (getOrParseChildren_invariant sourceFile (builtBy sourceFile) fuel
                   container h Hinv _ _ _ Hrun)).
  intros refs h1 Hnodes. apply getNodes_built in Hnodes as (ctor & Hctor & _ & Hbuilt).
  exists ctor. auto.
Qed.

Lemma getNodes_throws (fuel : nat) (container : NodeId) (h h' : Heap Sc) (e : Exception) :
  getNodes sourceFile fuel container h = (Throw e, h') →
  (e = NotImplementedError
   ∧ (kind (node sourceFile container) ∉ commentNodeParserKinds) ∧ h' = h)
  ∨ (e = noSyntaxListError
     ∧ getContainerChildren (node sourceFile container) = Ok []
     ∧ getContainerBodyPos sourceFile (node sourceFile container) = Throw e
     ∧ h' = withScanner h (setParent container (scanner h))).
Proof.
  unfold getNodes. rewrite bind_getScanner. intros Hrun.
  destruct (getContainerChildren_kind (node sourceFile container)) as [Hin Hout].
  destruct (decide (kind (node sourceFile container) ∈ commentNodeParserKinds)) as [Hk|Hk].
  - destruct (Hin Hk) as [childNodes Hc]. rewrite Hc, bind_lift_Ok in Hrun.
    destruct (getContainerChildren_getCtor _ _ Hc) as [ctor Hctor].
    rewrite Hctor, bind_lift_Ok, bind_onScanner in Hrun.
    destruct childNodes as [|firstChild others].
    + destruct (getContainerBodyPos sourceFile (node sourceFile container))
        as [b|e'|] eqn:Hbody.
      * rewrite bind_lift_Ok, bind_onScanner in Hrun. exfalso.
        eapply (neverThrows_bind _ _ (neverThrows_getCommentNodes sourceFile ctor container
                                        false fuel)); [|rewrite Hrun; reflexivity].
        intros a. apply neverThrows_ret.
      * rewrite bind_lift_Throw in Hrun. injection Hrun as <- <-. right.
        rewrite (getContainerBodyPos_container_error _ _ _ Hbody Hk). auto.
      * discriminate.
    + exfalso.
      eapply (neverThrows_bind _ _ (neverThrows_getNodes_children sourceFile ctor container
                                      fuel (firstChild :: others)));
        [|rewrite Hrun; reflexivity].
      intros before. apply neverThrows_bind; [apply neverThrows_onScanner|intros []].
      apply neverThrows_bind; [apply neverThrows_getCommentNodes|intros cls].
      apply neverThrows_ret.
  - rewrite (Hout Hk), bind_lift_Throw in Hrun. injection Hrun as <- <-. auto.
Qed.

End ChildSequences.

(** ** Calls that throw *)

Lemma bind_inv_Throw {Sc A B} (m : M Sc A) (f : A → M Sc B) (h h' : Heap Sc)
    (e : Exception) :
  bind m f h = (Throw e, h') →
  m h = (Throw e, h') ∨ ∃ a h1, m h = (Ok a, h1) ∧ f a h1 = (Throw e, h').
Proof.
  unfold bind. destruct (m h) as [[a|e'|] h1]; intros Hrun.
  - right. eauto.
  - left. injection Hrun as <- <-. reflexivity.
  - discriminate.
Qed.

Lemma alwaysReturns_neverThrows {Sc A} (m : M Sc A) : alwaysReturns m → neverThrows m.
Proof. intros Hm h e He. destruct (Hm h) as [a Ha]. congruence. Qed.

Section Failures.
Context (sourceFile : SourceFileObj) {Sc : Type} `{!CommentScanner sourceFile Sc}.

Lemma alwaysReturns_parseNode (n : NodeId) : alwaysReturns (parseNode sourceFile n).
Proof.
  pose proof alwaysReturns_parseNode_loop. unfold parseNode.
  destruct (getChildren (node sourceFile n)) as [|first [|second rest]];
    always_returns_steps.
Qed.

Lemma alwaysReturns_after_children (syntaxList : NodeId) (a : nat)
    (children : JsArray NodeRef) :
  alwaysReturns
    (getScannerForSourceFile ;;;
     onScanner (setParent (parent (node sourceFile syntaxList))) ;;;
     onScanner (setFullStartAndPos (pos (node sourceFile syntaxList))) ;;;
     before <- parseChildSyntaxList_children sourceFile (items children) ;;
     cs <- pushUntil scanUntilToken
             (λ comment, bool_decide (getSearchEnd sourceFile syntaxList < c_pos comment)) ;;
     ret (mkArray (Allocated a) (before ++ (TokComment <$> cs)))).
Proof.
  pose proof alwaysReturns_parseChildSyntaxList_children. always_returns_steps.
Qed.

Lemma getOrParseChildren_throw_heap (fuel : nat) (container : NodeId) (h h' : Heap Sc)
    (e : Exception) :
  getOrParseChildren sourceFile fuel container h = (Throw e, h') →
  childrenSaver h !! redirect sourceFile container = None
  ∧ getNodes sourceFile fuel (redirect sourceFile container) h = (Throw e, h').
Proof.
  destruct (childrenSaver h !! redirect sourceFile container) as [arr|] eqn:Hlook.
  - rewrite (getOrParseChildren_hit _ _ _ _ _ Hlook). discriminate.
  - rewrite (getOrParseChildren_miss _ _ _ _ Hlook).
    destruct (getNodes sourceFile fuel (redirect sourceFile container) h)
      as [[nodes|e'|] h1]; try discriminate.
    intros [= <- <-]. auto.
Qed.

(** X5: a call of [getOrParseChildren] never throws when the sequence is
    stored.  For a container without children whose body the boundary
    resolver cannot locate, a call that has to compute the sequence throws
    what the resolver throws, the scanner then having the container as its
    parent and nothing else having changed.  The plain error of the
    resolver comes from no other place: when a call throws it, the
    container (a syntax list counting as its parent) has no children and
    the resolver throws it for the container. *)
Theorem getOrParseChildren_throws (fuel : nat) (container : NodeId) (h : Heap Sc) :
  let target := redirect sourceFile container in
  (∀ e h',
     getOrParseChildren sourceFile fuel container h = (Throw e, h') →
     childrenSaver h !! target = None)
  ∧ (∀ e,
       childrenSaver h !! target = None →
       getContainerChildren (node sourceFile target) = Ok [] →
       getContainerBodyPos sourceFile (node sourceFile target) = Throw e →
       getOrParseChildren sourceFile fuel container h
       = (Throw e, withScanner h (setParent target (scanner h))))
  ∧ (∀ h',
       getOrParseChildren sourceFile fuel container h = (Throw noSyntaxListError, h') →
       getContainerChildren (node sourceFile target) = Ok []
       ∧ getContainerBodyPos sourceFile (node sourceFile target) = Throw noSyntaxListError
       ∧ h' = withScanner h (setParent target (scanner h))).
Proof.
  intros target. split; [|split].
  - intros e h' Hrun. apply (getOrParseChildren_throw_heap _ _ _ _ _ Hrun).
  - intros e Hmiss Hchildren Hbody. rewrite (getOrParseChildren_miss _ _ _ _ Hmiss).
    fold target. unfold getNodes. rewrite bind_getScanner, Hchildren, bind_lift_Ok.
    destruct (getContainerChildren_getCtor _ _ Hchildren) as [ctor Hctor].
    rewrite Hctor, bind_lift_Ok, bind_onScanner, Hbody, bind_lift_Throw. reflexivity.
  - intros h' Hrun. apply getOrParseChildren_throw_heap in Hrun as [_ Hnodes].
    apply getNodes_throws in Hnodes as [(He & _)|(_ & H1 & H2 & H3)];
      [discriminate He|auto].
Qed.

Lemma getOrParseChildren_throw_frame (fuel : nat) (container : NodeId) (h h' : Heap Sc)
    (e : Exception) :
  getOrParseChildren sourceFile fuel container h = (Throw e, h') →
  childrenSaver h' = childrenSaver h ∧ tokenSaver h' = tokenSaver h
  ∧ nextAddress h' = nextAddress h.
Proof.
  intros Hrun. apply getOrParseChildren_throw_heap in Hrun as [_ Hnodes].
  apply getNodes_throws in Hnodes as [(_ & _ & ->)|(_ & _ & _ & ->)]; auto.
Qed.

Lemma getTokens_throws (fuel : nat) (n : NodeRef) (h h' : Heap Sc) (e : Exception) :
  getTokens sourceFile fuel n h = (Throw e, h') →
  ∃ syntaxList, n = RealNode syntaxList
    ∧ isSyntaxList (node sourceFile syntaxList) = true
    ∧ isChildSyntaxList sourceFile syntaxList = true
    ∧ getOrParseChildren sourceFile fuel syntaxList (allocated 1 h) = (Throw e, h').
Proof.
  destruct n as [i|cl]; simpl; [|discriminate].
  destruct (isSyntaxList (node sourceFile i) && isChildSyntaxList sourceFile i) eqn:Htest.
  - apply andb_true_iff in Htest as [Hlist Hchild].
    unfold parseChildSyntaxList. rewrite bind_allocate. intros Hrun.
    apply bind_inv_Throw in Hrun as [Hrun|(children & h1 & _ & Hrest)].
    + exists i. auto.
    + exfalso.
      apply (alwaysReturns_neverThrows _
               (alwaysReturns_after_children i (nextAddress h) children) h1 e).
      rewrite Hrest. reflexivity.
  - intros Hrun. exfalso.
    apply (alwaysReturns_neverThrows _ (alwaysReturns_parseNode i) h e).
    rewrite Hrun. reflexivity.
Qed.

(** X6: a call that throws stores nothing.  When [getOrParseChildren]
    throws, neither table has changed and no address is taken.  A call of
    [getOrParseTokens] throws only for a child syntax list whose child
    sequence cannot be computed: it throws what [getOrParseChildren]
    throws for that list, and neither table has changed. *)
Theorem throwing_call_stores_nothing (fuel : nat) :
  (∀ container (h h' : Heap Sc) e,
     getOrParseChildren sourceFile fuel container h = (Throw e, h') →
     childrenSaver h' = childrenSaver h ∧ tokenSaver h' = tokenSaver h
     ∧ nextAddress h' = nextAddress h)
  ∧ (∀ n (h h' : Heap Sc) e,
       getOrParseTokens sourceFile fuel n h = (Throw e, h') →
       childrenSaver h' = childrenSaver h ∧ tokenSaver h' = tokenSaver h
       ∧ ∃ syntaxList, n = RealNode syntaxList
           ∧ isSyntaxList (node sourceFile syntaxList) = true
           ∧ isChildSyntaxList sourceFile syntaxList = true
           ∧ getOrParseChildren sourceFile fuel syntaxList (allocated 1 h)
             = (Throw e, h')).
Proof.
  split; [apply getOrParseChildren_throw_frame|].
  intros n h h' e. unfold getOrParseTokens.
  destruct (tokenSaver h !! keyOf n) as [stored|]; [discriminate|]. intros Hrun.
  apply bind_inv_Throw in Hrun as [Hrun|(tokens & h1 & _ & Hrest)];
    [|munfold; discriminate].
  apply getTokens_throws in Hrun as (syntaxList & -> & Hlist & Hchild & Hrun).
  destruct (getOrParseChildren_throw_frame _ _ _ _ _ Hrun) as (H1 & H2 & _).
  split; [exact H1|]. split; [exact H2|]. exists syntaxList. auto.
Qed.

End Failures.

(** ** What the tables tell *)

Section Lookups.
Context (sourceFile : SourceFileObj) {Sc : Type} `{!CommentScanner sourceFile Sc}.

Lemma hasParsedChildren_true (container : NodeId) (h : Heap Sc) :
  hasParsedChildren sourceFile container h = true
  ↔ ∃ children, childrenSaver h !! redirect sourceFile container = Some children.
Proof. unfold hasParsedChildren. rewrite bool_decide_eq_true. reflexivity. Qed.

Lemma hasParsedTokens_true (n : NodeRef) (h : Heap Sc) :
  hasParsedTokens n h = true ↔ ∃ tokens, tokenSaver h !! keyOf n = Some tokens.
Proof. unfold hasParsedTokens. rewrite bool_decide_eq_true. reflexivity. Qed.

Lemma getOrParseChildren_stored (fuel : nat) (container : NodeId) (h h' : Heap Sc)
    (children : JsArray NodeRef) :
  getOrParseChildren sourceFile fuel container h = (Ok children, h') →
  childrenSaver h' !! redirect sourceFile container = Some children
  ∧ (childrenSaver h !! redirect sourceFile container = None → h' ≠ h).
Proof.
  destruct (childrenSaver h !! redirect sourceFile container) as [arr|] eqn:Hlook.
  - rewrite (getOrParseChildren_hit _ _ _ _ _ Hlook). intros [= <- <-].
    split; [exact Hlook|discriminate].
  - rewrite (getOrParseChildren_miss _ _ _ _ Hlook).
    destruct (getNodes sourceFile fuel (redirect sourceFile container) h)
      as [[nodes|e|] h1]; try discriminate.
    intros [= <- <-]. simpl. split; [apply lookup_insert_eq|].
    intros _ Heq. rewrite <- Heq in Hlook. simpl in Hlook.
    rewrite lookup_insert_eq in Hlook. discriminate.
Qed.

Lemma subseteq_is_Some `{Countable K} {V} (m1 m2 : gmap K V) (k : K) :
  m1 ⊆ m2 → is_Some (m1 !! k) → is_Some (m2 !! k).
Proof.
  intros Hsub [v Hv]. exists v. eapply lookup_weaken; eassumption.
Qed.

(** X7: [hasParsedChildren] tells whether a call of [getOrParseChildren]
    is a read of the table: it holds exactly when the call returns a
    sequence and leaves the heap as it is.  It holds after every call that
    returns, it is not lost by any later call of [getOrParseChildren] or
    [getOrParseTokens], it does not come to hold by a call that throws,
    and a syntax list has it exactly when its parent has it. *)
Theorem hasParsedChildren_spec (fuel : nat) (container : NodeId) (h : Heap Sc) :
  (hasParsedChildren sourceFile container h = true
   ↔ ∃ children, getOrParseChildren sourceFile fuel container h = (Ok children, h))
  ∧ (∀ children h',
       getOrParseChildren sourceFile fuel container h = (Ok children, h') →
       hasParsedChildren sourceFile container h' = true)
  ∧ (hasParsedChildren sourceFile container h = true →
     ∀ other n,
       hasParsedChildren sourceFile container
         (getOrParseChildren sourceFile fuel other h).2 = true
       ∧ hasParsedChildren sourceFile container
           (getOrParseTokens sourceFile fuel n h).2 = true)
  ∧ (∀ e h',
       getOrParseChildren sourceFile fuel container h = (Throw e, h') →
       hasParsedChildren sourceFile container h = false
       ∧ hasParsedChildren sourceFile container h' = false)
  ∧ (isSyntaxList (node sourceFile container) = true →
     isSyntaxList (node sourceFile (parent (node sourceFile container))) = false →
     hasParsedChildren sourceFile container h
     = hasParsedChildren sourceFile (parent (node sourceFile container)) h).
Proof.
  split; [|split; [|split; [|split]]].
  - rewrite hasParsedChildren_true. split.
    + intros [children Hlook]. exists children. apply getOrParseChildren_hit. exact Hlook.
    + intros [children Hrun]. exists children.
      destruct (childrenSaver h !! redirect sourceFile container) as [arr|] eqn:Hlook.
      * rewrite (getOrParseChildren_hit _ _ _ _ _ Hlook) in Hrun. congruence.
      * apply getOrParseChildren_stored in Hrun as [_ Hne]. exfalso. by apply Hne.
  - intros children h' Hrun. apply hasParsedChildren_true. exists children.
    apply (getOrParseChildren_stored _ _ _ _ _ Hrun).
  - intros Hhas other n. unfold hasParsedChildren in *.
    apply bool_decide_eq_true in Hhas.
    destruct (grows_getOrParseChildren sourceFile fuel other h) as [H1 _].
    destruct (getOrParseTokens_keeps sourceFile fuel n h) as [H2 _].
    split; apply bool_decide_eq_true; eapply subseteq_is_Some; eassumption.
  - intros e h' Hrun.
    pose proof (getOrParseChildren_throw_heap _ _ _ _ _ _ Hrun) as [Hmiss _].
    apply getOrParseChildren_throw_frame in Hrun as (Hsame & _).
    unfold hasParsedChildren. rewrite Hsame, Hmiss.
    split; apply bool_decide_eq_false; intros [x Hx]; discriminate.
  - intros Hlist Hparent. unfold hasParsedChildren, redirect.
    rewrite Hlist, Hparent. reflexivity.
Qed.

Lemma getOrParseTokens_miss (fuel : nat) (n : NodeRef) (h h' : Heap Sc)
    (tokens : JsArray Token) :
  tokenSaver h !! keyOf n = None →
  getOrParseTokens sourceFile fuel n h = (Ok tokens, h') →
  ∃ h1, getTokens sourceFile fuel n h = (Ok tokens, h1)
        ∧ h' = mkHeap (scanner h1) (nextAddress h1) (childrenSaver h1)
                 (<[keyOf n := tokens]> (tokenSaver h1)).
Proof.
  intros Hmiss. unfold getOrParseTokens. rewrite Hmiss. intros Hrun.
  apply bind_inv_Ok in Hrun as (ts & h1 & Hget & Hrun).
  munfold. injection Hrun as <- <-. eauto.
Qed.

Lemma parseChildSyntaxList_inv (fuel : nat) (syntaxList : NodeId) (h h' : Heap Sc)
    (tokens : JsArray Token) :
  parseChildSyntaxList sourceFile fuel syntaxList h = (Ok tokens, h') →
  ∃ children h1 before h2 cs,
    getOrParseChildren sourceFile fuel syntaxList (allocated 1 h) = (Ok children, h1)
    ∧ parseChildSyntaxList_children sourceFile (items children)
        (withScanner h1 (setFullStartAndPos (pos (node sourceFile syntaxList))
                           (setParent (parent (node sourceFile syntaxList)) (scanner h1))))
      = (Ok before, h2)
    ∧ tokens = mkArray (Allocated (nextAddress h)) (before ++ (TokComment <$> cs))
    ∧ (∀ c, c ∈ cs → c_pos c ≤ getSearchEnd sourceFile syntaxList)
    ∧ ∃ s, h' = withScanner h1 s.
Proof.
  unfold parseChildSyntaxList. rewrite bind_allocate. intros Hrun.
  apply bind_inv_Ok in Hrun as (children & h1 & Hchildren & Hrun).
  rewrite bind_getScanner, !bind_onScanner in Hrun. simpl in Hrun.
  apply bind_inv_Ok in Hrun as (before & h2 & Hbefore & Hrun).
  apply bind_inv_Ok in Hrun as (cs & h3 & Hcs & Hrun).
  injection Hrun as <- <-. exists children, h1, before, h2, cs.
  split; [exact Hchildren|]. split; [exact Hbefore|]. split; [reflexivity|].
  match type of Hbefore with
  | ?m ?h0 = _ =>
      destruct (movesScannerOnly_parseChildSyntaxList_children sourceFile
                  (items children) h0) as [s2 Hs2]
  end.
  rewrite Hbefore in Hs2. simpl in Hs2. subst h2.
  unfold pushUntil in Hcs. simpl in Hcs.
  match type of Hcs with
  | context [untilBreak ?stop ?ys ?fin] =>
      pose proof (untilBreak_kept stop ys fin) as [Hkept _];
      destruct (untilBreak stop ys fin) as [cs' s3]
  end.
  injection Hcs as <- <-. split.
  - intros c Hc. apply Hkept in Hc. apply bool_decide_eq_false in Hc. lia.
  - exists s3. reflexivity.
Qed.

(** X8: [hasParsedTokens] tells whether a call of [getOrParseTokens] is a
    read of the table: it holds exactly when the call returns a sequence
    and leaves the heap as it is.  It holds after every call that returns,
    it is not lost by any later call, and no call of [getOrParseChildren]
    changes it.  Computing the tokens of a child syntax list computes its
    child sequence too: afterwards [hasParsedChildren] holds of the list. *)
Theorem hasParsedTokens_spec (fuel : nat) (n : NodeRef) (h : Heap Sc) :
  (hasParsedTokens n h = true
   ↔ ∃ tokens, getOrParseTokens sourceFile fuel n h = (Ok tokens, h))
  ∧ (∀ tokens h',
       getOrParseTokens sourceFile fuel n h = (Ok tokens, h') →
       hasParsedTokens n h' = true)
  ∧ (hasParsedTokens n h = true →
     ∀ other, hasParsedTokens n (getOrParseTokens sourceFile fuel other h).2 = true)
  ∧ (∀ container,
       hasParsedTokens n (getOrParseChildren sourceFile fuel container h).2
       = hasParsedTokens n h)
  ∧ (∀ syntaxList tokens h',
       n = RealNode syntaxList →
       isSyntaxList (node sourceFile syntaxList) = true →
       isChildSyntaxList sourceFile syntaxList = true →
       hasParsedTokens n h = false →
       getOrParseTokens sourceFile fuel n h = (Ok tokens, h') →
       hasParsedChildren sourceFile syntaxList h' = true).
Proof.
  split; [|split; [|split; [|split]]].
  - rewrite hasParsedTokens_true. split.
    + intros [tokens Hlook]. exists tokens. unfold getOrParseTokens.
      rewrite Hlook. reflexivity.
    + intros [tokens Hrun]. exists tokens.
      destruct (tokenSaver h !! keyOf n) as [stored|] eqn:Hlook.
      * unfold getOrParseTokens in Hrun. rewrite Hlook in Hrun. congruence.
      * rewrite <- Hlook. apply (getOrParseTokens_stored _ _ _ _ _ _ Hrun).
  - intros tokens h' Hrun. apply hasParsedTokens_true. exists tokens.
    apply (getOrParseTokens_stored _ _ _ _ _ _ Hrun).
  - intros Hhas other. unfold hasParsedTokens in *. apply bool_decide_eq_true in Hhas.
    destruct (getOrParseTokens_keeps sourceFile fuel other h) as [_ H2].
    apply bool_decide_eq_true. eapply subseteq_is_Some; eassumption.
  - intros container. unfold hasParsedTokens.
    destruct (grows_getOrParseChildren sourceFile fuel container h) as [_ H2].
    rewrite H2. reflexivity.
  - intros syntaxList tokens h' -> Hlist Hchild Hnot Hrun.
    unfold hasParsedTokens in Hnot. apply bool_decide_eq_false in Hnot.
    destruct (tokenSaver h !! keyOf (RealNode syntaxList)) as [stored|] eqn:Hlook;
      [exfalso; apply Hnot; eauto|].
    apply (getOrParseTokens_miss _ _ _ _ _ Hlook) in Hrun as (h1 & Hget & ->).
    simpl in Hget. rewrite Hlist, Hchild in Hget. simpl in Hget.
    apply parseChildSyntaxList_inv in Hget
      as (children & h2 & before & h3 & cs & Hchildren & _ & _ & _ & s & ->).
    apply hasParsedChildren_true. exists children. simpl.
    apply (getOrParseChildren_stored _ _ _ _ _ Hchildren).
Qed.

End Lookups.

(** ** The token sequences of [getOrParseTokens] *)

Lemma tokenNodes_app (l1 l2 : list Token) :
  tokenNodes (l1 ++ l2) = tokenNodes l1 ++ tokenNodes l2.
Proof. apply omap_app. Qed.

Lemma tokenNodes_comments (cs : list CompilerCommentNode) :
  tokenNodes (TokComment <$> cs) = [].
Proof. induction cs as [|c cs IH]; [reflexivity|exact IH]. Qed.

Lemma Interleaved_nodes {N} (wrap : N → Token) (unwrap : N → NodeRef)
    (ok : N → list CompilerCommentNode → Prop) (children : list N) (tokens : list Token) :
  (∀ child, wrap child = TokNode (unwrap child)) →
  Interleaved wrap ok children tokens → tokenNodes tokens = unwrap <$> children.
Proof.
  intros Hwrap Hinter. induction Hinter as [|child cs children tokens Hok Hrest IH].
  - reflexivity.
  - rewrite tokenNodes_app, tokenNodes_comments, Hwrap. simpl.
    fold (tokenNodes tokens). rewrite IH. reflexivity.
Qed.

Lemma pushUntil_inv {Sc} (gen : Sc → Generator Sc) (stop : CompilerCommentNode → bool)
    (h h' : Heap Sc) (cs : list CompilerCommentNode) :
  pushUntil gen stop h = (Ok cs, h') → ∀ c, c ∈ cs → stop c = false.
Proof.
  unfold pushUntil.
  pose proof (untilBreak_kept stop (yields (gen (scanner h)))
                (exhausted (gen (scanner h)))) as [Hkept _].
  destruct (untilBreak stop _ _) as [cs' s']. intros [= <- <-]. exact Hkept.
Qed.

Lemma isChildSyntaxList_loop_passed (sourceFile : SourceFileObj) (n : NodeId)
    (children : list NodeId) :
  isChildSyntaxList_loop sourceFile n true children = true ↔ children !! 0%nat = Some n.
Proof.
  destruct children as [|c l]; simpl; [split; discriminate|].
  rewrite bool_decide_eq_true. split; congruence.
Qed.

Lemma isChildSyntaxList_loop_spec (sourceFile : SourceFileObj) (n : NodeId)
    (children : list NodeId) :
  isChildSyntaxList_loop sourceFile n false children = true
  ↔ afterFirstBrace sourceFile children n.
Proof.
  unfold afterFirstBrace. induction children as [|c l IH]; simpl.
  - split; [discriminate|]. intros (i & brace & Hi & _). discriminate.
  - destruct (isKind OpenBraceToken (node sourceFile c)) eqn:Hbrace.
    + apply isKind_true in Hbrace. rewrite isChildSyntaxList_loop_passed. split.
      * intros Hn. exists 0%nat, c. split; [reflexivity|]. split; [exact Hbrace|].
        split; [intros j c' Hj; lia|exact Hn].
      * intros (i & brace & Hi & Hk & Hfirst & Hn). destruct i as [|i]; [exact Hn|].
        exfalso. apply (Hfirst 0%nat c); [lia|reflexivity|exact Hbrace].
    + apply isKind_false in Hbrace. rewrite IH. split.
      * intros (i & brace & Hi & Hk & Hfirst & Hn). exists (S i), brace.
        split; [exact Hi|]. split; [exact Hk|]. split; [|exact Hn].
        intros [|j] c' Hj Hc'; [injection Hc' as <-; exact Hbrace|].
        apply (Hfirst j); [lia|exact Hc'].
      * intros (i & brace & Hi & Hk & Hfirst & Hn). destruct i as [|i].
        -- injection Hi as <-. contradiction.
        -- exists i, brace. split; [exact Hi|]. split; [exact Hk|]. split; [|exact Hn].
           intros j c' Hj Hc'. apply (Hfirst (S j)); [lia|exact Hc'].
Qed.

(** X9: a syntax list is a child syntax list whenever its parent is a
    source file, a block, a module block or a case or default clause,
    whatever its place among the children of the parent.  When the parent
    is a declaration body (class, interface, enum, class expression, type
    literal, object literal) it is one exactly when it is the child that
    follows the first open brace of the parent.  Under a parent of any
    other kind it is none. *)
Theorem isChildSyntaxList_spec (sourceFile : SourceFileObj) (n : NodeId) :
  let parent' := node sourceFile (parent (node sourceFile n)) in
  (kind parent' ∈ singleSyntaxListParents → isChildSyntaxList sourceFile n = true)
  ∧ (kind parent' ∈ openBraceSyntaxListParents →
     isChildSyntaxList sourceFile n = true
     ↔ afterFirstBrace sourceFile (getChildren parent') n)
  ∧ (kind parent' ∉ commentNodeParserKinds → isChildSyntaxList sourceFile n = false).
Proof.
  intros parent'. unfold isChildSyntaxList. fold parent'.
  assert (∀ k (l : list SyntaxKind), k ∈ l → bool_decide (k ∈ l) = false → False) as Hno.
  { intros k l Hin Hb. apply bool_decide_eq_false in Hb. auto. }
  split; [|split].
  - intros Hin. apply has_true in Hin. rewrite Hin. reflexivity.
  - intros Hin. rewrite <- isChildSyntaxList_loop_spec.
    pose proof (proj2 (has_true _ _) Hin) as Hopen. rewrite Hopen. simpl.
    destruct (has singleSyntaxListParents (kind parent')) eqn:Hsingle; [|reflexivity].
    apply has_true in Hsingle. exfalso. revert Hin Hsingle.
    destruct (kind parent'); intros Hin Hsingle;
      first [exact (Hno _ _ Hin eq_refl)|exact (Hno _ _ Hsingle eq_refl)].
  - intros Hout.
    destruct (has singleSyntaxListParents (kind parent')) eqn:Hsingle.
    + apply has_true in Hsingle. exfalso. apply Hout. revert Hsingle.
      unfold singleSyntaxListParents, commentNodeParserKinds.
      rewrite !elem_of_cons. tauto.
    + destruct (has openBraceSyntaxListParents (kind parent')) eqn:Hopen; [|reflexivity].
      apply has_true in Hopen. exfalso. apply Hout. revert Hopen.
      unfold openBraceSyntaxListParents, commentNodeParserKinds.
      rewrite !elem_of_cons. tauto.
Qed.

Section Tokens.
Context (sourceFile : SourceFileObj) {Sc : Type} `{!CommentScanner sourceFile Sc}.

Lemma parseNode_loop_interleaved (rest : list NodeId) (lastEnd : Z) (h h' : Heap Sc)
    (tokens : list Token) :
  parseNode_loop sourceFile lastEnd rest h = (Ok tokens, h') →
  Interleaved (TokNode ∘ RealNode) (commentsBeforeChild sourceFile) rest tokens.
Proof.
  revert lastEnd h h' tokens. induction rest as [|child rest IH];
    intros lastEnd h h' tokens Hrun.
  - injection Hrun as <- <-. constructor.
  - simpl in Hrun. apply bind_inv_Ok in Hrun as (cs & h1 & Hcs & Hrun).
    apply bind_inv_Ok in Hrun as (more & h2 & Hmore & Hrun). injection Hrun as <- <-.
    apply (Interleaved_cons (TokNode ∘ RealNode)); [|eapply IH; exact Hmore].
    unfold commentsBeforeChild.
    destruct (isKind EndOfFileToken (node sourceFile child)); simpl in Hcs.
    + injection Hcs as <- <-. reflexivity.
    + rewrite bind_onScanner in Hcs. intros comment Hin.
      apply (pushUntil_inv _ _ _ _ _ Hcs) in Hin. apply bool_decide_eq_false in Hin. lia.
Qed.

Lemma parseChildSyntaxList_children_interleaved (children : list NodeRef)
    (h h' : Heap Sc) (tokens : list Token) :
  parseChildSyntaxList_children sourceFile children h = (Ok tokens, h') →
  Interleaved TokNode (commentsBeforeElement sourceFile) children tokens.
Proof.
  revert h h' tokens. induction children as [|child rest IH]; intros h h' tokens Hrun.
  - injection Hrun as <- <-. constructor.
  - simpl in Hrun. apply bind_inv_Ok in Hrun as (cs & h1 & Hcs & Hrun).
    rewrite bind_onScanner in Hrun.
    apply bind_inv_Ok in Hrun as (more & h2 & Hmore & Hrun). injection Hrun as <- <-.
    constructor; [|eapply IH; exact Hmore].
    intros comment Hin. apply (pushUntil_inv _ _ _ _ _ Hcs) in Hin.
    apply bool_decide_eq_false in Hin. exact Hin.
Qed.

Lemma parseNode_nodes (n : NodeId) (h h' : Heap Sc) (tokens : JsArray Token) :
  parseNode sourceFile n h = (Ok tokens, h') →
  tokenNodes (items tokens) = RealNode <$> getChildren (node sourceFile n).
Proof.
  unfold parseNode.
  destruct (getChildren (node sourceFile n)) as [|first [|second rest]].
  - intros [= <- <-]. reflexivity.
  - intros [= <- <-]. reflexivity.
  - rewrite bind_allocate, bind_getScanner, bind_onScanner. intros Hrun.
    apply bind_inv_Ok in Hrun as (more & h1 & Hloop & Hrun). injection Hrun as <- <-.
    apply parseNode_loop_interleaved in Hloop. simpl. fold (tokenNodes more).
    rewrite (Interleaved_nodes (TokNode ∘ RealNode) RealNode _ _ _ (λ _, eq_refl) Hloop).
    reflexivity.
Qed.

(** X10: [parseNode] always returns.  For a node with at most one child it
    returns the children array of the node itself and leaves the heap as
    it is.  For a node with more children it returns a new array that
    starts with the first child and holds every further child once and in
    order, each behind the comments found before it: none before an end of
    file token; else comments that start at or before the full start of
    the child when it is a child syntax list, and at or before its start
    when it is any other child.  It moves the scanner and takes one
    address, and changes nothing else. *)
Theorem parseNode_tokens (n : NodeId) (h : Heap Sc) :
  let children := getChildren (node sourceFile n) in
  ((length children ≤ 1)%nat →
   parseNode sourceFile n h
   = (Ok (mkArray (ChildrenOf n) (TokNode ∘ RealNode <$> children)), h))
  ∧ (∀ first rest,
       children = first :: rest → rest ≠ [] →
       ∃ more s,
         parseNode sourceFile n h
         = (Ok (mkArray (Allocated (nextAddress h)) (TokNode (RealNode first) :: more)),
            withScanner (allocated 1 h) s)
         ∧ Interleaved (TokNode ∘ RealNode) (commentsBeforeChild sourceFile) rest more).
Proof.
  intros children. unfold parseNode. fold children. split.
  - intros Hlen. destruct children as [|first [|second rest]]; try reflexivity.
    simpl in Hlen. lia.
  - intros first rest -> Hrest. destruct rest as [|second rest]; [congruence|].
    rewrite bind_allocate, bind_getScanner, bind_onScanner.
    match goal with
    | |- context [bind (parseNode_loop _ ?e ?l) _ ?h0] =>
        destruct (alwaysReturns_parseNode_loop sourceFile l e h0) as [more Hmore];
        destruct (movesScannerOnly_parseNode_loop sourceFile l e h0) as [s Hs];
        destruct (parseNode_loop sourceFile e l h0) as [o h1] eqn:Hloop
    end.
    simpl in Hmore, Hs. subst o h1. exists more, s.
    rewrite (bind_Ok _ _ _ _ _ Hloop). split; [reflexivity|].
    apply (parseNode_loop_interleaved _ _ _ _ _ Hloop).
Qed.

(** X11: the tokens of a child syntax list are the elements of its child
    sequence, the one that [getOrParseChildren] returns and stores for the
    parent, each once and in order and each behind the comments found
    before it, none of which starts where the element starts; behind the
    last element stand the comments of the trailing scan.  The result is a
    new array. *)
Theorem parseChildSyntaxList_tokens (fuel : nat) (syntaxList : NodeId) (h h' : Heap Sc)
    (tokens : JsArray Token) :
  parseChildSyntaxList sourceFile fuel syntaxList h = (Ok tokens, h') →
  ∃ children before trailing,
    getOrParseChildren sourceFile fuel syntaxList h' = (Ok children, h')
    ∧ items tokens = before ++ (TokComment <$> trailing)
    ∧ Interleaved TokNode (commentsBeforeElement sourceFile) (items children) before
    ∧ tokenNodes (items tokens) = items children
    ∧ ref tokens = Allocated (nextAddress h).
Proof.
  intros Hrun. apply parseChildSyntaxList_inv in Hrun
    as (children & h1 & before & h2 & cs & Hchildren & Hbefore & -> & _ & s & ->).
  apply parseChildSyntaxList_children_interleaved in Hbefore.
  exists children, before, cs. split.
  - apply getOrParseChildren_hit. simpl.
    apply (getOrParseChildren_stored _ _ _ _ _ _ Hchildren).
  - split; [reflexivity|]. split; [exact Hbefore|]. split; [|reflexivity].
    simpl. rewrite tokenNodes_app, tokenNodes_comments, app_nil_r.
    rewrite (Interleaved_nodes TokNode id _ _ _ (λ _, eq_refl) Hbefore).
    apply list_fmap_id.
Qed.

(** X12: the nodes among the tokens that [getOrParseTokens] computes for a
    node are its children, each once and in order, whatever comments stand
    between them: the elements of the child sequence for a child syntax
    list, the children of the tree for any other node.  For a comment list
    the tokens are its comments and the array is the comments array of the
    list itself; computing them neither moves the scanner nor takes an
    address. *)
Theorem getOrParseTokens_nodes (fuel : nat) (n : NodeRef) (h h' : Heap Sc)
    (tokens : JsArray Token) :
  hasParsedTokens n h = false →
  getOrParseTokens sourceFile fuel n h = (Ok tokens, h') →
  match n with
  | CommentList cl =>
      tokens = mkArray (ref (comments cl)) (TokComment <$> items (comments cl))
      ∧ tokenNodes (items tokens) = []
      ∧ h' = mkHeap (scanner h) (nextAddress h) (childrenSaver h)
               (<[keyOf n := tokens]> (tokenSaver h))
  | RealNode i =>
      if isSyntaxList (node sourceFile i) && isChildSyntaxList sourceFile i
      then ∃ children,
             getOrParseChildren sourceFile fuel i h' = (Ok children, h')
             ∧ tokenNodes (items tokens) = items children
      else tokenNodes (items tokens) = RealNode <$> getChildren (node sourceFile i)
  end.
Proof.
  intros Hnot Hrun. unfold hasParsedTokens in Hnot. apply bool_decide_eq_false in Hnot.
  destruct (tokenSaver h !! keyOf n) as [stored|] eqn:Hlook; [exfalso; apply Hnot; eauto|].
  apply (getOrParseTokens_miss _ _ _ _ _ _ Hlook) in Hrun as (h1 & Hget & ->).
  destruct n as [i|cl]; simpl in Hget.
  - destruct (isSyntaxList (node sourceFile i) && isChildSyntaxList sourceFile i).
    + apply parseChildSyntaxList_inv in Hget
        as (children & h2 & before & h3 & cs & Hchildren & Hbefore & -> & _ & s & ->).
      apply parseChildSyntaxList_children_interleaved in Hbefore.
      exists children. split.
      * apply getOrParseChildren_hit. simpl.
        apply (getOrParseChildren_stored _ _ _ _ _ _ Hchildren).
      * simpl. rewrite tokenNodes_app, tokenNodes_comments, app_nil_r.
        rewrite (Interleaved_nodes TokNode id _ _ _ (λ _, eq_refl) Hbefore).
        apply list_fmap_id.
    + apply (parseNode_nodes _ _ _ _ Hget).
  - injection Hget as <- <-. split; [reflexivity|]. split; [apply tokenNodes_comments|].
    reflexivity.
Qed.

End Tokens.

(** ** With a scanner that obeys the laws *)

Section Lawful.
Context (sourceFile : SourceFileObj) {Sc : Type} `{!CommentScanner sourceFile Sc}
  `{!ScannerLaws sourceFile Sc}.

Lemma getLeadingComments_spanned (ctor : CommentListKind) (container : NodeId)
    (stopAtJsDoc : bool) (fuel : nat) (h h' : Heap Sc)
    (groups : list CompilerCommentList) :
  getLeadingComments sourceFile ctor container stopAtJsDoc fuel h = (Ok groups, h') →
  Forall spannedInOrder groups.
Proof.
  revert h h' groups. induction fuel as [|fuel IH]; intros h h' groups Hrun;
    [discriminate|].
  rewrite getLeadingComments_S in Hrun. simpl in Hrun.
  pose proof (scanForNewLines_inOrder (scanner h)) as Hord. unfold inOrder in Hord.
  destruct ((yields (scanForNewLines (scanner h))).*1) as [|first rest] eqn:Hcs.
  - injection Hrun as <- <-. constructor.
  - destruct (stopAtJsDoc && existsb isJsDocComment (first :: rest)).
    + injection Hrun as <- <-. constructor.
    + match type of Hrun with
      | context [getLeadingComments _ _ _ _ fuel ?h1] =>
          destruct (getLeadingComments sourceFile ctor container stopAtJsDoc fuel h1)
            as [[more| |] h2] eqn:Hmore; try discriminate
      end.
      injection Hrun as <- <-. constructor; [|eapply IH; exact Hmore].
      exists first, rest. split; [reflexivity|]. split; [reflexivity|].
      split; [reflexivity|]. apply chain_tighten in Hord. exact Hord.
Qed.

Lemma getCommentNodes_spanned (ctor : CommentListKind) (container : NodeId)
    (stopAtJsDoc : bool) (fuel : nat) (h h' : Heap Sc)
    (kept : list CompilerCommentList) :
  getCommentNodes sourceFile ctor container stopAtJsDoc fuel h = (Ok kept, h') →
  Forall spannedInOrder kept.
Proof.
  unfold getCommentNodes. intros Hrun.
  apply bind_inv_Ok in Hrun as ([] & h1 & Hskip & Hrun).
  apply bind_inv_Ok in Hrun as (groups & h2 & Hlead & Hrun).
  rewrite bind_readScanner in Hrun. injection Hrun as <- <-.
  apply getLeadingComments_spanned in Hlead. rewrite Forall_forall in Hlead.
  apply Forall_forall. intros cl Hcl. apply list_elem_of_filter in Hcl as [_ Hcl]. auto.
Qed.

Lemma getNodes_children_spanned (ctor : CommentListKind) (container : NodeId)
    (fuel : nat) (childNodes : list NodeId) (h h' : Heap Sc) (refs : list NodeRef) :
  getNodes_children sourceFile ctor container fuel childNodes h = (Ok refs, h') →
  Forall spannedInOrder (commentLists refs).
Proof.
  revert h h' refs. induction childNodes as [|c l IH]; intros h h' refs Hrun.
  - injection Hrun as <- <-. constructor.
  - simpl in Hrun. rewrite bind_onScanner in Hrun.
    apply bind_inv_Ok in Hrun as (cls & h1 & Hcls & Hrun).
    apply bind_inv_Ok in Hrun as (more & h2 & Hmore & Hrun).
    injection Hrun as <- <-.
    rewrite commentLists_app, commentLists_comments. simpl. fold (commentLists more).
    apply Forall_app. split; [eapply getCommentNodes_spanned; exact Hcls|].
    eapply IH; exact Hmore.
Qed.

Lemma getNodes_spanned (fuel : nat) (container : NodeId) (h h' : Heap Sc)
    (refs : list NodeRef) :
  getNodes sourceFile fuel container h = (Ok refs, h') →
  Forall spannedInOrder (commentLists refs).
Proof.
  unfold getNodes. rewrite bind_getScanner. intros Hrun.
  destruct (getContainerChildren (node sourceFile container)) as [childNodes|e|];
    try discriminate.
  rewrite bind_lift_Ok in Hrun.
  destruct (getCtor (node sourceFile container)) as [ctor|e|]; try discriminate.
  rewrite bind_lift_Ok, bind_onScanner in Hrun.
  destruct childNodes as [|firstChild others].
  - destruct (getContainerBodyPos sourceFile (node sourceFile container)) as [b|e|];
      try discriminate.
    rewrite bind_lift_Ok, bind_onScanner in Hrun.
    apply bind_inv_Ok in Hrun as (cls & h1 & Hcls & Hrun). injection Hrun as <- <-.
    rewrite commentLists_comments. eapply getCommentNodes_spanned; exact Hcls.
  - apply bind_inv_Ok in Hrun as (before & h1 & Hbefore & Hrun).
    rewrite bind_onScanner in Hrun.
    apply bind_inv_Ok in Hrun as (cls & h2 & Hcls & Hrun). injection Hrun as <- <-.
    rewrite commentLists_app, commentLists_comments. apply Forall_app. split.
    + eapply getNodes_children_spanned; exact Hbefore.
    + eapply getCommentNodes_spanned; exact Hcls.
Qed.

(** X13: with a scanner whose scans yield comments in order, the comments
    of every comment list of a child sequence span the list in source
    order: the list holds at least one comment, the position of the list
    is the position of its first comment, each comment is non-empty and
    ends at or before the start of the next, and the end of the list is
    the end of its last comment. *)
Theorem getOrParseChildren_groups_in_order (fuel : nat) (container : NodeId)
    (h : Heap Sc) :
  storedChildren groupsInOrder h →
  ∀ children h',
    getOrParseChildren sourceFile fuel container h = (Ok children, h') →
    groupsInOrder (redirect sourceFile container) (items children)
    ∧ storedChildren groupsInOrder h'.
Proof.
  intros Hinv. apply (getOrParseChildren_invariant sourceFile groupsInOrder);
    [exact Hinv|].
  intros refs h1 Hrun. eapply getNodes_spanned. exact Hrun.
Qed.

(** X14: a call of [getOrParseTokens] comes to an end.  For a comment list
    and for a node that is no child syntax list it needs no fuel.  For a
    child syntax list whose parent has well-formed children it returns or
    throws whenever the fuel exceeds the length of the text. *)
Theorem getOrParseTokens_returns (fuel : nat) (n : NodeRef) (h : Heap Sc) :
  (∀ syntaxList,
     n = RealNode syntaxList →
     isSyntaxList (node sourceFile syntaxList)
     && isChildSyntaxList sourceFile syntaxList = true →
     wellFormedContainer sourceFile (parent (node sourceFile syntaxList))
     ∧ (String.length (text sourceFile) < fuel)%nat) →
  (getOrParseTokens sourceFile fuel n h).1 ≠ OutOfFuel.
Proof.
  intros Hwf. unfold getOrParseTokens.
  destruct (tokenSaver h !! keyOf n) as [stored|]; [discriminate|].
  assert ((getTokens sourceFile fuel n h).1 ≠ OutOfFuel) as Hget.
  { destruct n as [i|cl]; simpl; [|discriminate].
    destruct (isSyntaxList (node sourceFile i) && isChildSyntaxList sourceFile i)
      eqn:Htest.
    - destruct (Hwf i eq_refl Htest) as [Hparent Hfuel].
      apply andb_true_iff in Htest as [Hlist _].
      unfold parseChildSyntaxList. rewrite bind_allocate.
      pose proof (getOrParseChildren_returns sourceFile fuel i (allocated 1 h)) as Hret.
      unfold redirect in Hret. rewrite Hlist in Hret.
      specialize (Hret Hparent Hfuel).
      destruct (getOrParseChildren sourceFile fuel i (allocated 1 h))
        as [[children|e|] h1] eqn:Hchildren.
      + rewrite (bind_Ok _ _ _ _ _ Hchildren).
        destruct (alwaysReturns_after_children sourceFile i (nextAddress h) children h1)
          as [tokens Htokens].
        rewrite Htokens. discriminate.
      + unfold bind. rewrite Hchildren. discriminate.
      + contradiction.
    - destruct (alwaysReturns_parseNode sourceFile i h) as [tokens Htokens].
      rewrite Htokens. discriminate. }
  unfold bind. destruct (getTokens sourceFile fuel n h) as [[tokens|e|] h1]; simpl in *;
    [discriminate|discriminate|contradiction].
Qed.

End Lawful.

(** ** Further runs on the text scanner *)

Module FurtherRuns.
Import TextScanner TextScannerLaws Examples.

Lemma none_of_kind (sourceFile : SourceFileObj) (k : SyntaxKind) (n : Node) :
  forallb (λ c, negb (isKind k (node sourceFile c))) (getChildren n) = true →
  noChildOfKind sourceFile k n.
Proof.
  intros Hall c Hc. rewrite forallb_forall in Hall.
  apply list_elem_of_In in Hc. apply Hall in Hc. apply negb_true_iff in Hc.
  apply isKind_false in Hc. exact Hc.
Qed.

(** The interface of [broken] has neither brace nor syntax list. *)
Lemma getContainerBodyPos_throws_iff_witness :
  getContainerBodyPos broken (node broken 1%nat) = Throw noSyntaxListError.
Proof.
  assert (kind (node broken 1%nat) ∈ commentNodeParserKinds) as Hkind by decided.
  apply (proj2 (getContainerBodyPos_throws_iff broken (node broken 1%nat)
                  noSyntaxListError Hkind)).
  split; [reflexivity|]. split; [apply none_of_kind; reflexivity|].
  left. split; [decided|apply none_of_kind; reflexivity].
Defined.

(** The member of the class is the one real child of its sequence. *)
Lemma getOrParseChildren_real_children_witness :
  let first := getOrParseChildren classFile 25 7%nat emptyHeap in
  keepsChildren classFile 3%nat (items (valueOr (mkArray (Allocated 0) []) first.1)).
Proof.
  intros first.
  assert (first = (Ok (valueOr (mkArray (Allocated 0) []) first.1), first.2)) as Hrun
    by (vm_compute; reflexivity).
  exact (proj1 (getOrParseChildren_real_children classFile 25 7%nat emptyHeap
                  (Runs.emptyHeap_stores_nothing (keepsChildren classFile)) _ _ Hrun)).
Defined.

Lemma getOrParseChildren_comment_lists_witness :
  let first := getOrParseChildren classFile 25 7%nat emptyHeap in
  builtBy classFile 3%nat (items (valueOr (mkArray (Allocated 0) []) first.1)).
Proof.
  intros first.
  assert (first = (Ok (valueOr (mkArray (Allocated 0) []) first.1), first.2)) as Hrun
    by (vm_compute; reflexivity).
  exact (proj1 (getOrParseChildren_comment_lists classFile 25 7%nat emptyHeap
                  (Runs.emptyHeap_stores_nothing (builtBy classFile)) _ _ Hrun)).
Defined.

(** The comment list before the closing brace of the class is a class
    element list and no statement list. *)
Lemma comment_list_kind_of_container_witness :
  let cl := CommentList (mkCommentList 2 ClassElement 14 17 21 3%nat
              (mkArray (Allocated 1) [mkComment SingleLineCommentTrivia 14 17 21 "// t"])) in
  isCommentListClassElement cl = isClassLike (node classFile 3%nat)
  ∧ isCommentListStatement cl = isStatementContainerNode (node classFile 3%nat).
Proof.
  intros cl. pose (first := getOrParseChildren classFile 25 3%nat emptyHeap).
  assert (first = (Ok (mkArray (Allocated 4) [RealNode 9%nat; cl]), first.2)) as Hrun
    by (vm_compute; reflexivity).
  destruct (comment_list_kind_of_container classFile 25 3%nat emptyHeap
              (Runs.emptyHeap_stores_nothing (builtBy classFile)) _ _ cl Hrun)
    as (H1 & H2 & _).
  - apply elem_of_cons. right. apply elem_of_cons. left. reflexivity.
  - reflexivity.
  - split; [exact H2|exact H1].
Defined.

(** The interface of [broken] has no member, and its body cannot be
    located. *)
Lemma getOrParseChildren_throws_witness :
  getOrParseChildren broken 5 1%nat emptyHeap
  = (Throw noSyntaxListError, withScanner emptyHeap (mkState (Some 1%nat) 0 0))
  ∧ getContainerChildren (node broken 1%nat) = Ok [].
Proof.
  assert (getContainerBodyPos broken (node broken 1%nat) = Throw noSyntaxListError)
    as Hbody by reflexivity.
  pose proof (proj1 (proj2 (getOrParseChildren_throws broken 5 1%nat emptyHeap))
                noSyntaxListError (lookup_empty _) eq_refl Hbody) as Hrun.
  split; [exact Hrun|].
  exact (proj1 (proj2 (proj2 (getOrParseChildren_throws broken 5 1%nat emptyHeap))
                  _ Hrun)).
Defined.

(** The tokens of the syntax list of [orphan] cannot be computed. *)
Lemma throwing_call_stores_nothing_witness :
  let failed := getOrParseTokens orphan 5 (RealNode 2%nat) emptyHeap in
  failed.1 = Throw noSyntaxListError
  ∧ childrenSaver failed.2 = ∅ ∧ tokenSaver failed.2 = ∅.
Proof.
  intros failed.
  assert (failed = (Throw noSyntaxListError, failed.2)) as Hrun
    by (vm_compute; reflexivity).
  destruct (proj2 (throwing_call_stores_nothing orphan 5) _ _ _ _ Hrun) as (H1 & H2 & _).
  split; [rewrite Hrun; reflexivity|]. split; [exact H1|exact H2].
Defined.

(** After the call for the member list of the class, the list and the
    class both have their children parsed. *)
Lemma hasParsedChildren_spec_witness :
  let first := getOrParseChildren classFile 25 7%nat emptyHeap in
  hasParsedChildren classFile 7%nat first.2 = true
  ∧ hasParsedChildren classFile 3%nat first.2 = true.
Proof.
  intros first.
  assert (first = (Ok (valueOr (mkArray (Allocated 0) []) first.1), first.2)) as Hrun
    by (vm_compute; reflexivity).
  pose proof (proj1 (proj2 (hasParsedChildren_spec classFile 25 7%nat emptyHeap))
                _ _ Hrun) as Hlist.
  split; [exact Hlist|].
  rewrite <- Hlist.
  symmetry.
  exact (proj2 (proj2 (proj2 (proj2 (hasParsedChildren_spec classFile 25 7%nat first.2))))
           eq_refl eq_refl).
Defined.

Lemma hasParsedTokens_spec_witness :
  let first := getOrParseTokens classFile 25 (RealNode 7%nat) emptyHeap in
  hasParsedTokens (RealNode 7%nat) first.2 = true
  ∧ hasParsedChildren classFile 7%nat first.2 = true.
Proof.
  intros first.
  assert (first = (Ok (valueOr (mkArray (Allocated 0) []) first.1), first.2)) as Hrun
    by (vm_compute; reflexivity).
  pose proof (hasParsedTokens_spec classFile 25 (RealNode 7%nat) emptyHeap)
    as (_ & Hafter & _ & _ & Hchildren).
  split; [exact (Hafter _ _ Hrun)|].
  assert (hasParsedTokens (RealNode 7%nat) (emptyHeap : Heap State) = false) as Hnot
    by (vm_compute; reflexivity).
  exact (Hchildren 7%nat _ _ eq_refl eq_refl eq_refl Hnot Hrun).
Defined.

(** The member list of the class follows its open brace; the statement
    list of a file is a child syntax list; a node under a node that is no
    container is none. *)
Lemma isChildSyntaxList_spec_witness :
  isChildSyntaxList classFile 7%nat = true
  ∧ isChildSyntaxList grouped 1%nat = true
  ∧ isChildSyntaxList only 4%nat = false.
Proof.
  split; [|split].
  - apply (proj1 (proj2 (isChildSyntaxList_spec classFile 7%nat))); [decided|].
    exists 2%nat, 6%nat. split; [reflexivity|]. split; [reflexivity|].
    split; [|reflexivity].
    intros [|[|j]] c Hj Hc; [| |lia]; injection Hc as <-; discriminate.
  - apply (proj1 (isChildSyntaxList_spec grouped 1%nat)). decided.
  - apply (proj2 (proj2 (isChildSyntaxList_spec only 4%nat))). decided.
Defined.

(** The tokens of the class declaration. *)
Lemma parseNode_tokens_witness :
  ∃ more s,
    parseNode classFile 3%nat emptyHeap
    = (Ok (mkArray (Allocated 0) (TokNode (RealNode 4%nat) :: more)),
       withScanner (allocated 1 emptyHeap) s)
    ∧ Interleaved (TokNode ∘ RealNode) (commentsBeforeChild classFile)
        [5; 6; 7; 8]%nat more.
Proof.
  exact (proj2 (parseNode_tokens classFile 3%nat emptyHeap) 4%nat [5; 6; 7; 8]%nat
           eq_refl ltac:(discriminate)).
Defined.

(** The tokens of the member list of the class. *)
Lemma parseChildSyntaxList_tokens_witness :
  let run := parseChildSyntaxList classFile 25 7%nat emptyHeap in
  ∃ children,
    getOrParseChildren classFile 25 7%nat run.2 = (Ok children, run.2)
    ∧ tokenNodes (items (valueOr (mkArray (Allocated 0) []) run.1)) = items children.
Proof.
  intros run.
  assert (run = (Ok (valueOr (mkArray (Allocated 0) []) run.1), run.2)) as Hrun
    by (vm_compute; reflexivity).
  destruct (parseChildSyntaxList_tokens classFile 25 7%nat emptyHeap _ _ Hrun)
    as (children & before & trailing & Hagain & _ & _ & Hnodes & _).
  exists children. split; [exact Hagain|exact Hnodes].
Defined.

Lemma getOrParseTokens_nodes_witness :
  let run := getOrParseTokens classFile 25 (RealNode 3%nat) emptyHeap in
  tokenNodes (items (valueOr (mkArray (Allocated 0) []) run.1))
  = RealNode <$> [4; 5; 6; 7; 8]%nat.
Proof.
  intros run.
  assert (run = (Ok (valueOr (mkArray (Allocated 0) []) run.1), run.2)) as Hrun
    by (vm_compute; reflexivity).
  assert (hasParsedTokens (RealNode 3%nat) (emptyHeap : Heap State) = false) as Hnot
    by (vm_compute; reflexivity).
  exact (getOrParseTokens_nodes classFile 25 (RealNode 3%nat) emptyHeap _ _ Hnot Hrun).
Defined.

Lemma getOrParseChildren_groups_in_order_witness : groupsInOrder 0%nat groupedChildren.
Proof.
  pose proof Runs.grouped_run as Hrun.
  destruct (getOrParseChildren grouped 16 0%nat emptyHeap) as [o h'] eqn:Heq.
  simpl in Hrun. subst o.
  exact (proj1 (getOrParseChildren_groups_in_order grouped 16 0%nat emptyHeap
                  (Runs.emptyHeap_stores_nothing groupsInOrder) _ _ Heq)).
Defined.

Lemma getOrParseTokens_returns_witness :
  (getOrParseTokens grouped 16 (RealNode 1%nat) emptyHeap).1 ≠ OutOfFuel.
Proof.
  refine (getOrParseTokens_returns grouped 16 (RealNode 1%nat) emptyHeap _).
  intros syntaxList [= <-] _.
  split; [exact Runs.grouped_wellFormed|apply Runs.fuel_enough; reflexivity].
Defined.

End FurtherRuns.

(** * What a child sequence covers *)

(** ** The text scanner passes over white space and comments *)

Module TextScannerCovers.
Import TextScanner TextScannerLaws.

Lemma charAt_of_nat (txt : string) (p : nat) :
  charAt txt (Z.of_nat p) = String.get p txt.
Proof.
  unfold charAt. destruct (Z.ltb_spec (Z.of_nat p) 0); [lia|].
  rewrite Nat2Z.id. reflexivity.
Qed.

Lemma triviaAt_blank (txt : string) (p q : nat) (t : Trivia) :
  triviaAt txt p = Some (t, q) →
  match t with
  | Comment _ => True
  | _ => q = S p ∧ isWhiteSpace (charAt txt (Z.of_nat p)) = true
  end.
Proof.
  rewrite charAt_of_nat, get_dropString. unfold triviaAt.
  destruct (dropString p txt) as [|c rest]; [discriminate|].
  generalize (commentAt (String c rest)). intros found.
  unfold isSpace, isNewLine, isWhiteSpace.
  destruct (bool_decide (c = " "%char)); simpl;
    [intros [= <- <-]; split; reflexivity|].
  destruct (bool_decide (c = "009"%char)); simpl;
    [intros [= <- <-]; split; reflexivity|].
  destruct (bool_decide (c = "013"%char)); simpl;
    [intros [= <- <-]; split; reflexivity|].
  destruct (bool_decide (c = "010"%char)); simpl;
    [intros [= <- <-]; split; reflexivity|].
  destruct found as [[k n]|]; [|discriminate].
  intros [= <- <-]. exact I.
Qed.

Lemma scanTrivia_covers (txt : string) (par : option NodeId) (r : LineRule)
    (fuel : nat) (fs : Z) (p : nat) (x : Z) :
  Z.of_nat p ≤ x < position (scanTrivia txt par r fuel fs p).2 →
  isWhiteSpace (charAt txt x) = true
  ∨ ∃ c, c ∈ (scanTrivia txt par r fuel fs p).1.*1 ∧ inComment x c.
Proof.
  revert r fs p. induction fuel as [|fuel IH]; intros r fs p; simpl; [lia|].
  destruct (triviaAt txt p) as [[t q]|] eqn:Hstep; [|simpl; lia].
  pose proof (triviaAt_bounds _ _ _ _ Hstep) as Hb.
  pose proof (triviaAt_blank _ _ _ _ Hstep) as Hblank.
  destruct t as [| |k].
  - destruct Hblank as [-> Hwhite]. intros Hx.
    destruct (decide (x = Z.of_nat p)) as [->|Hne]; [left; exact Hwhite|].
    apply IH. lia.
  - destruct Hblank as [-> Hwhite]. destruct (atNewLine r) as [r'|]; [|simpl; lia].
    intros Hx. destruct (decide (x = Z.of_nat p)) as [->|Hne]; [left; exact Hwhite|].
    apply IH. lia.
  - specialize (IH (atComment r) (Z.of_nat q) q).
    destruct (scanTrivia txt par (atComment r) fuel (Z.of_nat q) q) as [ys fin].
    simpl in *. intros Hx. destruct (Z.lt_ge_cases x (Z.of_nat q)) as [Hlt|Hge].
    + right. eexists. split; [left|]. unfold inComment. simpl. lia.
    + destruct IH as [Hwhite|(c & Hc & Hin)]; [lia|left; exact Hwhite|].
      right. exists c. split; [right; exact Hc|exact Hin].
Qed.

Lemma scan_covers (sourceFile : SourceFileObj) (r : LineRule) (s : State) :
  passesOver sourceFile (position s) (yields (scan (text sourceFile) r s)).*1
    (position (exhausted (scan (text sourceFile) r s))).
Proof.
  intros x. unfold scan. destruct (Z.ltb_spec (position s) 0) as [Hneg|Hpos].
  - simpl. lia.
  - pose proof (scanTrivia_covers (text sourceFile) (scanParent s) r
                  (S (String.length (text sourceFile))) (fullStart s)
                  (Z.to_nat (position s)) x) as Hcov.
    destruct (scanTrivia (text sourceFile) (scanParent s) r
                (S (String.length (text sourceFile))) (fullStart s)
                (Z.to_nat (position s))) as [ys fin].
    simpl in *. intros Hx. apply Hcov. lia.
Qed.

Lemma textScanner_covers (sourceFile : SourceFileObj) : ScanCovers sourceFile State.
Proof.
  split; intros s; apply scan_covers.
Defined.

#[global] Existing Instance textScanner_covers.

End TextScannerCovers.

(** ** What the passes leave out *)

Section Coverage.
Context (sourceFile : SourceFileObj) {Sc : Type} `{!CommentScanner sourceFile Sc}
  `{!ScannerLaws sourceFile Sc} `{!ScanCovers sourceFile Sc}.






End Coverage.

(** ** What a child sequence covers *)

Section Covering.
Context (sourceFile : SourceFileObj) {Sc : Type} `{!CommentScanner sourceFile Sc}
  `{!ScannerLaws sourceFile Sc} `{!ScanCovers sourceFile Sc}.




End Covering.

Module CoverageRuns.
Import TextScanner TextScannerLaws TextScannerCovers Examples.


End CoverageRuns.
